(** * Governor MCP: risk scoring, plan lifecycle, deviation detection, audit log

    A shallow embedding of the core of [governor_mcp] and the properties
    that its specification states about it.

    Conventions of the embedding.
    - A Python [str] is a [string]; each character is a code point below 256
      and the character classes ([str.lower], [str.isspace], the classes
      [\s], [\w], [\d] of [re]) are those of Unicode on that range.
    - The floating-point scores are rationals ([Q]): every operand is a small
      dyadic number (0..5, 0.5, 1.0, 1.5, 2.0, 2.5, 3.0), so each product is
      computed exactly by IEEE double arithmetic.
    - A compiled pattern is a term of [Re.regex]; [Re.search] decides
      whether it matches somewhere in a text, by listing the ends of the
      matches from each position, and agrees with the relation [Re.matches]
      ([search_spec]).
    - [uuid.uuid4()] and [datetime.now()] read an environment that the state
      carries: two streams and a read position for each.
    - The stateful operations run in the monad [M], over the state [World]
      of the process: the session, the audit log and that environment. *)

From Stdlib Require Import QArith Ascii String DecimalString.
From Stdlib Require Import List.
From stdpp Require Import gmap strings list sorting.

Local Open Scope string_scope.
Local Open Scope list_scope.

(** ** Python text primitives *)

Module Text.

Definition code (c : ascii) : N := N_of_ascii c.

Definition between (lo hi n : N) : bool := (lo <=? n)%N && (n <=? hi)%N.

(** [str.lower] on one character below 256: A-Z and the Latin-1 capitals
    (0xC0..0xDE without the multiplication sign 0xD7). On this range the
    lower-case form is again one character below 256; beyond it
    [str.lower] can give two code points (U+0130). *)
Definition chr_lower (c : ascii) : ascii :=
  let n := code c in
  if between 65 90 n || (between 192 222 n && negb (n =? 215)%N)
  then ascii_of_N (n + 32) else c.

(** [str.isspace], which is also the class [\s]. *)
Definition chr_isspace (c : ascii) : bool :=
  let n := code c in
  between 9 13 n || between 28 32 n || (n =? 133)%N || (n =? 160)%N.

(** The class [\d]. *)
Definition chr_isdigit (c : ascii) : bool := between 48 57 (code c).

(** The class [\w]: alphanumeric characters and the underscore. *)
Definition chr_isword (c : ascii) : bool :=
  let n := code c in
  between 48 57 n || between 65 90 n || between 97 122 n || (n =? 95)%N
  || (n =? 170)%N || between 178 179 n || (n =? 181)%N
  || between 185 186 n || between 188 190 n
  || between 192 214 n || between 216 246 n || between 248 255 n.

Definition chars (s : string) : list ascii := list_ascii_of_string s.
Definition text (l : list ascii) : string := string_of_list_ascii l.

(** [s.lower()] *)
Definition lower (s : string) : string := text (map chr_lower (chars s)).

Fixpoint is_prefix (p l : list ascii) : bool :=
  match p, l with
  | [], _ => true
  | _ :: _, [] => false
  | a :: p', b :: l' => Ascii.eqb a b && is_prefix p' l'
  end.

Fixpoint occurs (p l : list ascii) : bool :=
  is_prefix p l || match l with [] => false | _ :: l' => occurs p l' end.

(** [kw in s] *)
Definition contains (kw s : string) : bool := occurs (chars kw) (chars s).

(** [any(kw in s for kw in kws)] *)
Definition contains_any (kws : list string) (s : string) : bool :=
  existsb (fun kw => contains kw s) kws.

Fixpoint lstrip (l : list ascii) : list ascii :=
  match l with
  | c :: l' => if chr_isspace c then lstrip l' else l
  | [] => []
  end.

(** [s.strip()] *)
Definition strip (s : string) : string :=
  text (rev (lstrip (rev (lstrip (chars s))))).

(** [s.split()]: the maximal runs of non-space characters, in order.
    [cur] is the run being read, reversed. *)
Fixpoint split_go (cur : list ascii) (l : list ascii) : list string :=
  match l with
  | [] => match cur with [] => [] | _ => [text (rev cur)] end
  | c :: l' =>
      if chr_isspace c
      then match cur with
           | [] => split_go [] l'
           | _ => text (rev cur) :: split_go [] l'
           end
      else split_go (c :: cur) l'
  end.

Definition split (s : string) : list string := split_go [] (chars s).

(** [sep.join(ws)] *)
Fixpoint join (sep : string) (ws : list string) : string :=
  match ws with
  | [] => ""
  | [w] => w
  | w :: ws' => w ++ sep ++ join sep ws'
  end.

(** Truthiness of a [str]. *)
Definition nonempty (s : string) : bool :=
  match s with EmptyString => false | _ => true end.

End Text.

(** ** The fragment of [re] used by the pattern library

    All patterns are compiled with [re.IGNORECASE] and used with
    [Pattern.search]; none uses [re.MULTILINE] or [re.DOTALL]. *)

Module Re.
Import Text.

Inductive regex : Type :=
| Chr (c : ascii)            (* a literal character *)
| Dot                        (* .  : any character but a newline *)
| Space                      (* \s *)
| WordChar                   (* \w *)
| Digit                      (* \d *)
| OneOf (cs : list ascii)    (* [...] *)
| Eol                        (* $  : at the end, or before a final newline *)
| WordB                      (* \b *)
| Eps
| Cat (r1 r2 : regex)
| Alt (r1 r2 : regex)
| Star (r : regex)
| Plus (r : regex)
| Opt (r : regex).

Definition newline : ascii := ascii_of_N 10.

(** [re.IGNORECASE] on characters below 256: two characters match when
    their lower-case forms are equal. Beyond this range i also matches
    U+0130 and U+0131, s matches U+017F and k matches U+212A. *)
Definition same_letter (a b : ascii) : bool :=
  Ascii.eqb (chr_lower a) (chr_lower b).

(** One-character tests. *)
Definition accepts (r : regex) (d : ascii) : bool :=
  match r with
  | Chr c => same_letter c d
  | Dot => negb (Ascii.eqb d newline)
  | Space => chr_isspace d
  | WordChar => chr_isword d
  | Digit => chr_isdigit d
  | OneOf cs => existsb (fun c => same_letter c d) cs
  | _ => false
  end.

Definition word_at (t : list ascii) (i : nat) : bool :=
  match nth_error t i with Some c => chr_isword c | None => false end.

Definition at_boundary (t : list ascii) (i : nat) : bool :=
  xorb (match i with O => false | S j => word_at t j end) (word_at t i).

Definition at_eol (t : list ascii) (i : nat) : bool :=
  (i =? length t)%nat
  || ((S i =? length t)%nat
      && match nth_error t i with
         | Some c => Ascii.eqb c newline
         | None => false
         end).

(** Zero or more rounds of [step] from [i], every round consuming at least
    one character; [fuel] bounds the number of rounds. *)
Fixpoint rounds (step : nat -> list nat) (fuel : nat) (i : nat) : list nat :=
  match fuel with
  | O => [i]
  | S f =>
      i :: flat_map (fun j => if (i <? j)%nat then rounds step f j else [])
             (step i)
  end.

(** [ends r t i]: the positions where a match of [r] that starts at
    position [i] of [t] can end. *)
Fixpoint ends (r : regex) (t : list ascii) (i : nat) : list nat :=
  match r with
  | Chr _ | Dot | Space | WordChar | Digit | OneOf _ =>
      match nth_error t i with
      | Some d => if accepts r d then [S i] else []
      | None => []
      end
  | Eol => if at_eol t i then [i] else []
  | WordB => if at_boundary t i then [i] else []
  | Eps => [i]
  | Cat r1 r2 => flat_map (ends r2 t) (ends r1 t i)
  | Alt r1 r2 => ends r1 t i ++ ends r2 t i
  | Star r1 => rounds (ends r1 t) (length t) i
  | Plus r1 => flat_map (rounds (ends r1 t) (length t)) (ends r1 t i)
  | Opt r1 => i :: ends r1 t i
  end.

Definition matches_at (r : regex) (t : list ascii) (i : nat) : bool :=
  match ends r t i with [] => false | _ :: _ => true end.

(** [pattern.search(text)] as a truth value. *)
Definition search (r : regex) (s : string) : bool :=
  let t := chars s in
  existsb (matches_at r t) (seq 0 (S (length t))).

(** The matches of a pattern, as a relation: [matches t r i j] when [r]
    matches the characters of [t] from position [i] up to position [j]. *)
Definition is_test (r : regex) : bool :=
  match r with
  | Chr _ | Dot | Space | WordChar | Digit | OneOf _ => true
  | _ => false
  end.

Inductive matches (t : list ascii) : regex -> nat -> nat -> Prop :=
| matches_test r i d :
    is_test r = true -> nth_error t i = Some d -> accepts r d = true ->
    matches t r i (S i)
| matches_eol i : at_eol t i = true -> matches t Eol i i
| matches_wordb i : at_boundary t i = true -> matches t WordB i i
| matches_eps i : matches t Eps i i
| matches_cat r1 r2 i j k :
    matches t r1 i j -> matches t r2 j k -> matches t (Cat r1 r2) i k
| matches_alt_l r1 r2 i j : matches t r1 i j -> matches t (Alt r1 r2) i j
| matches_alt_r r1 r2 i j : matches t r2 i j -> matches t (Alt r1 r2) i j
| matches_star_nil r i : matches t (Star r) i i
| matches_star_more r i j k :
    matches t r i j -> matches t (Star r) j k -> matches t (Star r) i k
| matches_plus r i j k :
    matches t r i j -> matches t (Star r) j k -> matches t (Plus r) i k
| matches_opt_nil r i : matches t (Opt r) i i
| matches_opt r i j : matches t r i j -> matches t (Opt r) i j.

(** Pattern builders. *)
Definition seqs (rs : list regex) : regex := fold_right Cat Eps rs.

Definition lit (s : string) : regex := seqs (map Chr (chars s)).

Fixpoint alts (rs : list regex) : regex :=
  match rs with
  | [] => OneOf []
  | [r] => r
  | r :: rs' => Alt r (alts rs')
  end.

Definition any_text : regex := Star Dot.       (* .* *)
Definition spaces : regex := Plus Space.       (* \s+ *)
(** The class of the two quotation marks, code points 39 and 34. *)
Definition quote : regex := OneOf [ascii_of_N 39; ascii_of_N 34].

End Re.

(** ** classification/patterns.py *)

Module Patterns.
Import Text Re.

(** [(ya?ml|json|toml)] *)
Definition config_ext : regex :=
  alts [seqs [lit "y"; Opt (lit "a"); lit "ml"]; lit "json"; lit "toml"].

(** [(sql|py|rb|js|ts)] *)
Definition script_ext : regex :=
  alts [lit "sql"; lit "py"; lit "rb"; lit "js"; lit "ts"].

(** [(get|post|put|delete|patch)] *)
Definition http_verb : regex :=
  alts [lit "get"; lit "post"; lit "put"; lit "delete"; lit "patch"].

(** [.*<suffix>$] *)
Definition ends_with (suffix : regex) : regex :=
  seqs [any_text; suffix; Eol].

(** [\b<word>\b] *)
Definition whole_word (w : string) : regex := seqs [WordB; lit w; WordB].

(** [\b<word>\s+] *)
Definition verb_then_space (w : string) : regex :=
  seqs [WordB; lit w; spaces].

Definition SENSITIVE_FILE_PATTERNS : list regex :=
  [ (* \.env followed by the group ( $ | \..* ) *)
    seqs [lit ".env"; Alt Eol (seqs [lit "."; any_text])];
    (* \.env\.local *)
    lit ".env.local";
    (* \.env\.production *)
    lit ".env.production";
    (* secrets?\.(ya?ml|json|toml) *)
    seqs [lit "secret"; Opt (lit "s"); lit "."; config_ext];
    (* credentials?\.(ya?ml|json|toml) *)
    seqs [lit "credential"; Opt (lit "s"); lit "."; config_ext];
    (* config\.prod(uction)?\.(ya?ml|json|toml) *)
    seqs [lit "config.prod"; Opt (lit "uction"); lit "."; config_ext];
    (* .*\.pem$   .*\.key$   .*\.p12$   .*\.pfx$ *)
    ends_with (lit ".pem");
    ends_with (lit ".key");
    ends_with (lit ".p12");
    ends_with (lit ".pfx");
    (* id_rsa.* *)
    seqs [lit "id_rsa"; any_text];
    (* id_ed25519.* *)
    seqs [lit "id_ed25519"; any_text];
    (* .*_rsa$ *)
    ends_with (lit "_rsa");
    (* \.aws/credentials *)
    lit ".aws/credentials";
    (* \.aws/config *)
    lit ".aws/config";
    (* gcloud.*\.json *)
    seqs [lit "gcloud"; any_text; lit ".json"];
    (* service[-_]?account.*\.json *)
    seqs [lit "service"; Opt (OneOf (chars "-_")); lit "account"; any_text;
          lit ".json"];
    (* .*password.* *)
    seqs [any_text; lit "password"; any_text];
    (* .*token.*\.txt *)
    seqs [any_text; lit "token"; any_text; lit ".txt"];
    (* \.netrc   \.npmrc   \.pypirc *)
    lit ".netrc";
    lit ".npmrc";
    lit ".pypirc";
    (* database\.ya?ml *)
    seqs [lit "database.y"; Opt (lit "a"); lit "ml"];
    (* db\.config\.(js|ts|json) *)
    seqs [lit "db.config."; alts [lit "js"; lit "ts"; lit "json"]];
    (* .*secret.*\.ya?ml *)
    seqs [any_text; lit "secret"; any_text; lit ".y"; Opt (lit "a");
          lit "ml"] ].

Definition DATABASE_PATTERNS : list regex :=
  [ (* .*\.sql$   .*\.db$ *)
    ends_with (lit ".sql");
    ends_with (lit ".db");
    (* .*\.sqlite3?$ *)
    ends_with (seqs [lit ".sqlite"; Opt (lit "3")]);
    (* .*\.mdb$ *)
    ends_with (lit ".mdb");
    (* (postgres|postgresql|mysql|mongodb|redis|sqlite):// *)
    seqs [alts [lit "postgres"; lit "postgresql"; lit "mysql";
                lit "mongodb"; lit "redis"; lit "sqlite"];
          lit "://"];
    (* (DROP|TRUNCATE|ALTER)\s+(TABLE|DATABASE|SCHEMA) *)
    seqs [alts [lit "DROP"; lit "TRUNCATE"; lit "ALTER"]; spaces;
          alts [lit "TABLE"; lit "DATABASE"; lit "SCHEMA"]];
    (* DELETE\s+FROM\s+\w+ *)
    seqs [lit "DELETE"; spaces; lit "FROM"; spaces; Plus WordChar];
    (* (INSERT|UPDATE)\s+INTO *)
    seqs [alts [lit "INSERT"; lit "UPDATE"]; spaces; lit "INTO"];
    (* SELECT\s+.*\s+FROM\s+\w+ *)
    seqs [lit "SELECT"; spaces; any_text; spaces; lit "FROM"; spaces;
          Plus WordChar];
    (* migrations?/.*\.(sql|py|rb|js|ts) *)
    seqs [lit "migration"; Opt (lit "s"); lit "/"; any_text; lit ".";
          script_ext];
    (* .*migration.*\.(sql|py|rb|js|ts) *)
    seqs [any_text; lit "migration"; any_text; lit "."; script_ext] ].

Definition API_PATTERNS : list regex :=
  [ (* (GET|POST|PUT|DELETE|PATCH)\s+https?:// *)
    seqs [alts [lit "GET"; lit "POST"; lit "PUT"; lit "DELETE"; lit "PATCH"];
          spaces; lit "http"; Opt (lit "s"); lit "://"];
    (* fetch\s*\(\s*[<quotation mark>]https?:// *)
    seqs [lit "fetch"; Star Space; lit "("; Star Space; quote; lit "http";
          Opt (lit "s"); lit "://"];
    (* axios\.(get|post|put|delete|patch) *)
    seqs [lit "axios."; http_verb];
    (* requests?\.(get|post|put|delete|patch) *)
    seqs [lit "request"; Opt (lit "s"); lit "."; http_verb];
    (* http\.request *)
    lit "http.request";
    (* curl\s+ *)
    seqs [lit "curl"; spaces];
    (* /api/v\d+/ *)
    seqs [lit "/api/v"; Plus Digit; lit "/"];
    (* api\..*\.com *)
    seqs [lit "api."; any_text; lit ".com"];
    (* graphql   webhook *)
    lit "graphql";
    lit "webhook" ].

Definition SYSTEM_COMMAND_PATTERNS : list regex :=
  [ (* \brm\s+-rf?\b *)
    seqs [WordB; lit "rm"; spaces; lit "-r"; Opt (lit "f"); WordB];
    (* \brmdir\b *)
    whole_word "rmdir";
    (* \bdel\s+/[sfq] *)
    seqs [WordB; lit "del"; spaces; lit "/"; OneOf (chars "sfq")];
    (* \bchmod\b   \bchown\b   \bsudo\b *)
    whole_word "chmod";
    whole_word "chown";
    whole_word "sudo";
    (* \bsu\s+- *)
    seqs [WordB; lit "su"; spaces; lit "-"];
    (* \b(apt|yum|dnf|pacman|brew)\s+(install|remove|purge) *)
    seqs [WordB;
          alts [lit "apt"; lit "yum"; lit "dnf"; lit "pacman"; lit "brew"];
          spaces; alts [lit "install"; lit "remove"; lit "purge"]];
    (* \bpip\s+install\b *)
    seqs [WordB; lit "pip"; spaces; lit "install"; WordB];
    (* \bnpm\s+(install|uninstall)\s+-g *)
    seqs [WordB; lit "npm"; spaces; alts [lit "install"; lit "uninstall"];
          spaces; lit "-g"];
    (* \bkill\s+-9?\b *)
    seqs [WordB; lit "kill"; spaces; lit "-"; Opt (lit "9"); WordB];
    (* \bkillall\b *)
    whole_word "killall";
    (* \bsystemctl\s+(stop|restart|disable) *)
    seqs [WordB; lit "systemctl"; spaces;
          alts [lit "stop"; lit "restart"; lit "disable"]];
    (* \biptables\b   \bnetstat\b *)
    whole_word "iptables";
    whole_word "netstat";
    (* \bssh\b.*@ *)
    seqs [whole_word "ssh"; any_text; lit "@"] ].

Definition READ_ONLY_PATTERNS : list regex :=
  [ (* \bcat\s+  \bless\s+  \bhead\s+  \btail\s+  \bgrep\s+  \bfind\s+
       \bls\s+ *)
    verb_then_space "cat";
    verb_then_space "less";
    verb_then_space "head";
    verb_then_space "tail";
    verb_then_space "grep";
    verb_then_space "find";
    verb_then_space "ls";
    (* \bpwd\b   \bwhoami\b *)
    whole_word "pwd";
    whole_word "whoami";
    (* SELECT\s+.*\s+FROM *)
    seqs [lit "SELECT"; spaces; any_text; spaces; lit "FROM"];
    (* \.read\( *)
    lit ".read(";
    (* open\(.*,\s*[<quotation mark>]r[<quotation mark>] *)
    seqs [lit "open("; any_text; lit ","; Star Space; quote; lit "r";
          quote] ].

(** [any(pattern.search(text) for pattern in patterns)] *)
Definition matches_any_pattern (text : string) (patterns : list regex)
  : bool :=
  existsb (fun pattern => search pattern text) patterns.

(** [[pattern.pattern for pattern in patterns if pattern.search(text)]];
    the patterns themselves stand for their source strings. *)
Definition get_matching_patterns (text : string) (patterns : list regex)
  : list regex :=
  filter (fun pattern => search pattern text = true) patterns.

End Patterns.

(** ** classification/resource_classifier.py *)

Module ResourceClassifier.
Import Text Patterns.

Inductive ResourceType : Type :=
| MEMORY | LOCAL_FILE | EXTERNAL_API | SENSITIVE_FILE | DATABASE
| SYSTEM_COMMAND.

Definition RESOURCE_RISK_SCORES (r : ResourceType) : Q :=
  match r with
  | MEMORY => 0
  | LOCAL_FILE => 1
  | EXTERNAL_API => 2
  | SENSITIVE_FILE => 3
  | DATABASE => 4
  | SYSTEM_COMMAND => 5
  end.

Definition file_indicators : list string :=
  [ ".txt"; ".json"; ".yaml"; ".yml"; ".xml"; ".csv";
    ".py"; ".js"; ".ts"; ".java"; ".go"; ".rs"; ".rb";
    ".md"; ".html"; ".css"; ".sh"; ".bash";
    "/"; "\"; "path"; "file"; "directory"; "folder";
    "read"; "write"; "save"; "load"; "open"; "create";
    "delete"; "remove"; "copy"; "move"; "rename" ].

Definition _is_file_operation (text : string) : bool :=
  let text_lower := lower text in
  contains_any file_indicators text_lower.

(** [f"{operation} {context}"] *)
Definition combine (operation context : string) : string :=
  operation ++ " " ++ context.

Definition classify (operation context : string) : ResourceType * Q :=
  let combined := strip (combine operation context) in
  if matches_any_pattern combined SYSTEM_COMMAND_PATTERNS
  then (SYSTEM_COMMAND, RESOURCE_RISK_SCORES SYSTEM_COMMAND)
  else if matches_any_pattern combined DATABASE_PATTERNS
  then (DATABASE, RESOURCE_RISK_SCORES DATABASE)
  else if matches_any_pattern combined SENSITIVE_FILE_PATTERNS
  then (SENSITIVE_FILE, RESOURCE_RISK_SCORES SENSITIVE_FILE)
  else if matches_any_pattern combined API_PATTERNS
  then (EXTERNAL_API, RESOURCE_RISK_SCORES EXTERNAL_API)
  else if _is_file_operation combined
  then (LOCAL_FILE, RESOURCE_RISK_SCORES LOCAL_FILE)
  else (MEMORY, RESOURCE_RISK_SCORES MEMORY).

Definition get_resource_description (r : ResourceType) : string :=
  match r with
  | MEMORY => "In-memory operation with no persistent side effects"
  | LOCAL_FILE => "Local file system access"
  | EXTERNAL_API => "External API or network operation"
  | SENSITIVE_FILE => "Sensitive file containing credentials or secrets"
  | DATABASE => "Database operation"
  | SYSTEM_COMMAND => "System-level command execution"
  end.

(** [ResourceType.value] *)
Definition value (r : ResourceType) : string :=
  match r with
  | MEMORY => "memory"
  | LOCAL_FILE => "local_file"
  | EXTERNAL_API => "external_api"
  | SENSITIVE_FILE => "sensitive_file"
  | DATABASE => "database"
  | SYSTEM_COMMAND => "system_command"
  end.

End ResourceClassifier.

(** The test that [classify] runs for each category, on the combined text,
    and the order in which it runs them; MEMORY is the default and has no
    test. *)
Module ResourceSpec.
Import Patterns ResourceClassifier.

Definition category_test (r : ResourceType) (combined : string) : bool :=
  match r with
  | SYSTEM_COMMAND => matches_any_pattern combined SYSTEM_COMMAND_PATTERNS
  | DATABASE => matches_any_pattern combined DATABASE_PATTERNS
  | SENSITIVE_FILE => matches_any_pattern combined SENSITIVE_FILE_PATTERNS
  | EXTERNAL_API => matches_any_pattern combined API_PATTERNS
  | LOCAL_FILE => _is_file_operation combined
  | MEMORY => true
  end.

Definition risk_order : list ResourceType :=
  [SYSTEM_COMMAND; DATABASE; SENSITIVE_FILE; EXTERNAL_API; LOCAL_FILE;
   MEMORY].

End ResourceSpec.

(** ** classification/action_classifier.py *)

Module ActionClassifier.
Import Text Patterns.

Inductive ActionType : Type := READ | WRITE | DELETE | EXECUTE.

Inductive ScopeType : Type := SINGLE | MULTIPLE | COLLECTION | SYSTEM.

Definition ACTION_MULTIPLIERS (a : ActionType) : Q :=
  match a with
  | READ => 1 # 2
  | WRITE => 3 # 2
  | DELETE => 5 # 2
  | EXECUTE => 3
  end.

Definition SCOPE_MULTIPLIERS (s : ScopeType) : Q :=
  match s with
  | SINGLE => 1
  | MULTIPLE => 3 # 2
  | COLLECTION => 2
  | SYSTEM => 3
  end.

Definition READ_KEYWORDS : list string :=
  [ "read"; "get"; "fetch"; "retrieve"; "view"; "show"; "display";
    "list"; "find"; "search"; "query"; "select"; "look"; "check";
    "inspect"; "examine"; "browse"; "scan"; "cat"; "head"; "tail";
    "grep"; "ls"; "dir"; "print"; "echo"; "describe"; "status" ].

Definition WRITE_KEYWORDS : list string :=
  [ "write"; "create"; "add"; "insert"; "update"; "modify"; "change";
    "edit"; "set"; "put"; "post"; "patch"; "save"; "store"; "upload";
    "append"; "replace"; "overwrite"; "touch"; "mkdir"; "install";
    "configure"; "enable"; "init"; "generate"; "build"; "compile" ].

Definition DELETE_KEYWORDS : list string :=
  [ "delete"; "remove"; "drop"; "truncate"; "clear"; "purge"; "clean";
    "uninstall"; "destroy"; "erase"; "wipe"; "rm"; "rmdir"; "del";
    "unlink"; "reset"; "revoke"; "disable"; "expire"; "invalidate" ].

Definition EXECUTE_KEYWORDS : list string :=
  [ "execute"; "run"; "start"; "launch"; "invoke"; "call"; "trigger";
    "deploy"; "apply"; "migrate"; "push"; "publish"; "release"; "ship";
    "sudo"; "exec"; "spawn"; "fork"; "eval"; "script"; "command";
    "restart"; "reboot"; "shutdown"; "kill"; "stop"; "terminate" ].

Definition SINGLE_KEYWORDS : list string :=
  [ "a"; "an"; "one"; "single"; "this"; "that"; "the"; "specific" ].

Definition MULTIPLE_KEYWORDS : list string :=
  [ "multiple"; "several"; "some"; "few"; "many"; "these"; "those";
    "batch"; "group"; "set"; "list"; "array" ].

Definition COLLECTION_KEYWORDS : list string :=
  [ "all"; "every"; "each"; "entire"; "whole"; "complete"; "full";
    "collection"; "table"; "directory"; "folder"; "repository";
    "database"; "schema"; "namespace"; "bucket"; "queue" ].

Definition SYSTEM_KEYWORDS : list string :=
  [ "system"; "global"; "server"; "cluster"; "infrastructure";
    "environment"; "production"; "staging"; "network"; "service";
    "platform"; "organization"; "account"; "root"; "admin" ].

Definition classify_action (operation : string) : ActionType * Q :=
  let operation_lower := lower operation in
  if matches_any_pattern operation READ_ONLY_PATTERNS
  then (READ, ACTION_MULTIPLIERS READ)
  else if contains_any EXECUTE_KEYWORDS operation_lower
  then (EXECUTE, ACTION_MULTIPLIERS EXECUTE)
  else if contains_any DELETE_KEYWORDS operation_lower
  then (DELETE, ACTION_MULTIPLIERS DELETE)
  else if contains_any WRITE_KEYWORDS operation_lower
  then (WRITE, ACTION_MULTIPLIERS WRITE)
  else if contains_any READ_KEYWORDS operation_lower
  then (READ, ACTION_MULTIPLIERS READ)
  else (WRITE, ACTION_MULTIPLIERS WRITE).

Definition classify_scope (operation context : string) : ScopeType * Q :=
  let combined := lower (operation ++ " " ++ context) in
  if contains_any SYSTEM_KEYWORDS combined
  then (SYSTEM, SCOPE_MULTIPLIERS SYSTEM)
  else if contains_any COLLECTION_KEYWORDS combined
  then (COLLECTION, SCOPE_MULTIPLIERS COLLECTION)
  else if contains_any MULTIPLE_KEYWORDS combined
  then (MULTIPLE, SCOPE_MULTIPLIERS MULTIPLE)
  else (SINGLE, SCOPE_MULTIPLIERS SINGLE).

Definition get_action_description (a : ActionType) : string :=
  match a with
  | READ => "Read-only operation that does not modify data"
  | WRITE => "Write operation that creates or modifies data"
  | DELETE => "Destructive operation that removes data"
  | EXECUTE => "Execution of commands or processes"
  end.

Definition get_scope_description (s : ScopeType) : string :=
  match s with
  | SINGLE => "Affects a single item"
  | MULTIPLE => "Affects multiple items"
  | COLLECTION => "Affects an entire collection or batch"
  | SYSTEM => "System-wide impact"
  end.

Definition action_value (a : ActionType) : string :=
  match a with
  | READ => "read" | WRITE => "write" | DELETE => "delete"
  | EXECUTE => "execute"
  end.

Definition scope_value (s : ScopeType) : string :=
  match s with
  | SINGLE => "single" | MULTIPLE => "multiple"
  | COLLECTION => "collection" | SYSTEM => "system"
  end.

End ActionClassifier.

(** ** state/models.py *)

(** A [datetime] is a point on a totally ordered time line. *)
Definition datetime : Type := Z.

Inductive RiskLevel : Type := LOW | MEDIUM | HIGH.

Inductive StepStatus : Type :=
| PENDING | APPROVED | DENIED | EXECUTING | COMPLETED | FAILED | SKIPPED.

Inductive PlanStatus : Type :=
| DRAFT | AWAITING_APPROVAL | IN_PROGRESS | PLAN_COMPLETED | ABORTED
| PLAN_FAILED.

Global Instance RiskLevel_eq_dec : EqDecision RiskLevel.
Proof. solve_decision. Defined.

Global Instance StepStatus_eq_dec : EqDecision StepStatus.
Proof. solve_decision. Defined.

Global Instance PlanStatus_eq_dec : EqDecision PlanStatus.
Proof. solve_decision. Defined.

(** One entry of [Assessment.factors]: the category, its weight and its
    description. *)
Record Factor : Type := mkFactor {
  factor_type : string;
  factor_weight : Q;
  factor_description : string
}.

(** [Assessment.factors]. Its fourth entry, the calculation rendered as
    text, repeats [factor_weight] of the three and [risk_score]. *)
Record Factors : Type := mkFactors {
  factor_resource : Factor;
  factor_action : Factor;
  factor_scope : Factor
}.

Module Assessment.
Record t : Type := mk {
  id : string;
  operation : string;
  description : string;
  resource_type : string;
  action_type : string;
  scope : string;
  risk_score : Q;
  risk_level : RiskLevel;
  factors : Factors;
  recommendations : list string;
  timestamp : datetime
}.
End Assessment.

Module PlanStep.
Record t : Type := mk {
  id : string;
  order : Z;
  description : string;
  operation : string;
  expected_outcome : string;
  rollback_action : option string;
  status : StepStatus;
  result : option string;
  error : option string;
  executed_at : option datetime
}.

Definition set_status (v : StepStatus) (s : t) : t :=
  mk (id s) (order s) (description s) (operation s) (expected_outcome s)
     (rollback_action s) v (result s) (error s) (executed_at s).

Definition set_result (v : option string) (s : t) : t :=
  mk (id s) (order s) (description s) (operation s) (expected_outcome s)
     (rollback_action s) (status s) v (error s) (executed_at s).

Definition set_error (v : option string) (s : t) : t :=
  mk (id s) (order s) (description s) (operation s) (expected_outcome s)
     (rollback_action s) (status s) (result s) v (executed_at s).

Definition set_executed_at (v : option datetime) (s : t) : t :=
  mk (id s) (order s) (description s) (operation s) (expected_outcome s)
     (rollback_action s) (status s) (result s) (error s) v.
End PlanStep.

Module Plan.
Record t : Type := mk {
  id : string;
  name : string;
  description : string;
  assessment_id : string;
  steps : list PlanStep.t;
  status : PlanStatus;
  current_step_index : Z;
  created_at : datetime;
  updated_at : datetime;
  completed_at : option datetime
}.

Definition set_steps (v : list PlanStep.t) (p : t) : t :=
  mk (id p) (name p) (description p) (assessment_id p) v (status p)
     (current_step_index p) (created_at p) (updated_at p) (completed_at p).

Definition set_status (v : PlanStatus) (p : t) : t :=
  mk (id p) (name p) (description p) (assessment_id p) (steps p) v
     (current_step_index p) (created_at p) (updated_at p) (completed_at p).

Definition set_current_step_index (v : Z) (p : t) : t :=
  mk (id p) (name p) (description p) (assessment_id p) (steps p) (status p)
     v (created_at p) (updated_at p) (completed_at p).

Definition set_updated_at (v : datetime) (p : t) : t :=
  mk (id p) (name p) (description p) (assessment_id p) (steps p) (status p)
     (current_step_index p) (created_at p) v (completed_at p).

Definition set_completed_at (v : option datetime) (p : t) : t :=
  mk (id p) (name p) (description p) (assessment_id p) (steps p) (status p)
     (current_step_index p) (created_at p) (updated_at p) v.

Definition get_current_step (p : t) : option PlanStep.t :=
  if decide (0 <= current_step_index p
             ∧ current_step_index p < Z.of_nat (length (steps p)))%Z
  then steps p !! Z.to_nat (current_step_index p)
  else None.
End Plan.

Module Approval.
Record t : Type := mk {
  id : string;
  target_type : string;
  target_id : string;
  approved : bool;
  reason : option string;
  conditions : list string;
  approved_by : string;
  timestamp : datetime
}.
End Approval.

Module AuditEntry.
Record t : Type := mk {
  id : string;
  action : string;
  operation : string;
  risk_level : RiskLevel;
  details : gmap string string;
  assessment_id : option string;
  plan_id : option string;
  step_id : option string;
  success : bool;
  error : option string;
  timestamp : datetime
}.
End AuditEntry.

(** ** The process state

    The module-level singletons [_session] and [_audit_logger], and the
    environment read by [uuid.uuid4()] and [datetime.now()]. *)

Module SessionManager.
Record t : Type := mk {
  assessments : gmap string Assessment.t;
  plans : gmap string Plan.t;
  approvals : gmap string Approval.t;
  session_id : string
}.

Definition set_assessments (v : gmap string Assessment.t) (s : t) : t :=
  mk v (plans s) (approvals s) (session_id s).

Definition set_plans (v : gmap string Plan.t) (s : t) : t :=
  mk (assessments s) v (approvals s) (session_id s).

Definition set_approvals (v : gmap string Approval.t) (s : t) : t :=
  mk (assessments s) (plans s) v (session_id s).
End SessionManager.

Record World : Type := mkWorld {
  session : SessionManager.t;
  audit_entries : list AuditEntry.t;
  clock : nat -> datetime;       (* the successive readings of the clock *)
  clock_reads : nat;
  uuid_stream : nat -> string;   (* the successive draws of uuid4 *)
  uuid_draws : nat
}.

Definition set_session (v : SessionManager.t) (w : World) : World :=
  mkWorld v (audit_entries w) (clock w) (clock_reads w) (uuid_stream w)
          (uuid_draws w).

Definition set_audit_entries (v : list AuditEntry.t) (w : World) : World :=
  mkWorld (session w) v (clock w) (clock_reads w) (uuid_stream w)
          (uuid_draws w).

(** A state monad with exceptions; a raised exception keeps the state
    reached so far. *)
Inductive exn : Type :=
| ValueError_not_draft (current : PlanStatus).

Inductive outcome (A : Type) : Type :=
| Ok (a : A)
| Raise (e : exn).
Arguments Ok {A} a.
Arguments Raise {A} e.

Definition M (A : Type) : Type := World -> outcome A * World.

Definition ret {A} (a : A) : M A := fun w => (Ok a, w).

Definition bind {A B} (m : M A) (k : A -> M B) : M B :=
  fun w =>
    match m w with
    | (Ok a, w') => k a w'
    | (Raise e, w') => (Raise e, w')
    end.

Definition raise {A} (e : exn) : M A := fun w => (Raise e, w).

Definition gets {A} (f : World -> A) : M A := fun w => (Ok (f w), w).

Definition modify (f : World -> World) : M unit := fun w => (Ok tt, f w).

(** The monad operations through stdpp's classes, for the notations
    [x ← m; k] and [m ;; k]. *)
Global Instance M_ret : MRet M := @ret.
Global Instance M_bind : MBind M := fun A B k m => bind m k.

(** [datetime.now()] *)
Definition now : M datetime :=
  fun w =>
    (Ok (clock w (clock_reads w)),
     mkWorld (session w) (audit_entries w) (clock w) (S (clock_reads w))
             (uuid_stream w) (uuid_draws w)).

(** [str(uuid.uuid4())] *)
Definition uuid4 : M string :=
  fun w =>
    (Ok (uuid_stream w (uuid_draws w)),
     mkWorld (session w) (audit_entries w) (clock w) (clock_reads w)
             (uuid_stream w) (S (uuid_draws w))).

(** ** core/risk_assessment.py *)

Module RiskAssessor.
Import Text ResourceClassifier ActionClassifier.

Definition LOW_THRESHOLD : Q := 3.
Definition MEDIUM_THRESHOLD : Q := 8.

Definition _calculate_risk_level (score : Q) : RiskLevel :=
  if Qlt_le_dec score LOW_THRESHOLD then LOW
  else if Qle_bool score MEDIUM_THRESHOLD then MEDIUM
  else HIGH.

(** [operation[:100]] followed by an ellipsis when something was cut. *)
Definition _generate_description (operation : string) (a : ActionType)
  : string :=
  let verb := match a with
              | READ => "Reading"
              | WRITE => "Writing/modifying"
              | DELETE => "Deleting"
              | EXECUTE => "Executing"
              end in
  verb ++ ": " ++ String.substring 0 100 operation
       ++ (if (100 <? String.length operation)%nat then "..." else "").

Definition is_resource (r r' : ResourceType) : bool :=
  match r, r' with
  | MEMORY, MEMORY | LOCAL_FILE, LOCAL_FILE | EXTERNAL_API, EXTERNAL_API
  | SENSITIVE_FILE, SENSITIVE_FILE | DATABASE, DATABASE
  | SYSTEM_COMMAND, SYSTEM_COMMAND => true
  | _, _ => false
  end.

Definition is_action (a a' : ActionType) : bool :=
  match a, a' with
  | READ, READ | WRITE, WRITE | DELETE, DELETE | EXECUTE, EXECUTE => true
  | _, _ => false
  end.

Definition is_scope (s s' : ScopeType) : bool :=
  match s, s' with
  | SINGLE, SINGLE | MULTIPLE, MULTIPLE | COLLECTION, COLLECTION
  | SYSTEM, SYSTEM => true
  | _, _ => false
  end.

Definition when (b : bool) (l : list string) : list string :=
  if b then l else [].

Definition _generate_recommendations (level : RiskLevel)
    (r : ResourceType) (a : ActionType) (s : ScopeType) : list string :=
  match level with
  | LOW => ["Operation can proceed without additional approval"]
  | MEDIUM =>
      ["User confirmation required before proceeding"]
      ++ when (is_resource r EXTERNAL_API)
           ["Verify API endpoint and credentials are correct"]
      ++ when (is_action a WRITE)
           ["Consider creating a backup before modification"]
  | HIGH =>
      ["Create a structured execution plan with step-by-step approval";
       "Document rollback procedures for each step"]
      ++ when (is_resource r DATABASE)
           ["Ensure database backup exists before proceeding";
            "Consider running in a transaction with rollback capability"]
      ++ when (is_resource r SENSITIVE_FILE)
           ["Verify credential handling follows security best practices";
            "Ensure sensitive data is not logged or exposed"]
      ++ when (is_resource r SYSTEM_COMMAND)
           ["Review command for unintended side effects";
            "Consider running in isolated/sandboxed environment first"]
      ++ when (is_action a DELETE)
           ["Confirm deletion targets are correct";
            "Verify backup exists before deletion"]
      ++ when (is_scope s SYSTEM)
           ["Assess impact on dependent systems";
            "Consider staged rollout if possible"]
  end.

Definition assess (operation description context : string)
  : M Assessment.t :=
  let '(resource_type, resource_score) :=
    ResourceClassifier.classify operation context in
  let '(action_type, action_multiplier) := classify_action operation in
  let '(scope_type, scope_multiplier) :=
    classify_scope operation context in
  let risk_score :=
    (resource_score * action_multiplier * scope_multiplier)%Q in
  let risk_level := _calculate_risk_level risk_score in
  let factors :=
    mkFactors
      (mkFactor (ResourceClassifier.value resource_type) resource_score
                (get_resource_description resource_type))
      (mkFactor (action_value action_type) action_multiplier
                (get_action_description action_type))
      (mkFactor (scope_value scope_type) scope_multiplier
                (get_scope_description scope_type)) in
  let recommendations :=
    _generate_recommendations risk_level resource_type action_type
                              scope_type in
  id ← uuid4;
  timestamp ← now;
  mret (Assessment.mk id operation
         (if nonempty description then description
          else _generate_description operation action_type)
         (ResourceClassifier.value resource_type)
         (action_value action_type)
         (scope_value scope_type)
         risk_score risk_level factors recommendations timestamp).

Definition get_thresholds : Q * Q := (LOW_THRESHOLD, MEDIUM_THRESHOLD).

End RiskAssessor.

(** ** state/session.py

    A plan is a mutable object that the session's dictionary holds under its
    id, and every operation reaches it through [get_plan]; an assignment to
    a field of the plan, or of one of its steps, is a write to the stored
    plan ([write_plan]). *)

Module Session.
Import SessionManager.

Definition store_assessment (a : Assessment.t) : M string :=
  modify (fun w =>
    set_session
      (set_assessments (<[Assessment.id a := a]> (assessments (session w)))
                       (session w)) w);;
  mret (Assessment.id a).

Definition get_assessment (assessment_id : string)
  : M (option Assessment.t) :=
  gets (fun w => assessments (session w) !! assessment_id).

Definition write_plan (plan_id : string) (plan : Plan.t) : M unit :=
  modify (fun w =>
    set_session
      (set_plans (<[plan_id := plan]> (plans (session w))) (session w)) w).

Definition store_plan (plan : Plan.t) : M string :=
  write_plan (Plan.id plan) plan;;
  mret (Plan.id plan).

Definition get_plan (plan_id : string) : M (option Plan.t) :=
  gets (fun w => plans (session w) !! plan_id).

Definition store_approval (a : Approval.t) : M string :=
  modify (fun w =>
    set_session
      (set_approvals (<[Approval.id a := a]> (approvals (session w)))
                     (session w)) w);;
  mret (Approval.id a).

Definition get_approval (approval_id : string) : M (option Approval.t) :=
  gets (fun w => approvals (session w) !! approval_id).

Definition is_terminal (status : PlanStatus) : bool :=
  match status with
  | PLAN_COMPLETED | ABORTED | PLAN_FAILED => true
  | _ => false
  end.

Definition update_plan_status (plan_id : string) (status : PlanStatus)
  : M (option Plan.t) :=
  plan ← get_plan plan_id;
  match plan with
  | None => mret None
  | Some plan =>
      let plan := Plan.set_status status plan in
      t ← now;
      let plan := Plan.set_updated_at t plan in
      plan ← (if is_terminal status
              then t ← now; mret (Plan.set_completed_at (Some t) plan)
              else mret plan);
      write_plan plan_id plan;;
      mret (Some plan)
  end.

(** The first step with the given id, and its position:
    [for step in plan.steps: if step.id == step_id: ...]. *)
Fixpoint find_step (step_id : string) (steps : list PlanStep.t)
  : option (nat * PlanStep.t) :=
  match steps with
  | [] => None
  | step :: rest =>
      if String.eqb (PlanStep.id step) step_id then Some (O, step)
      else match find_step step_id rest with
           | Some (i, s) => Some (S i, s)
           | None => None
           end
  end.

Definition update_step_status (plan_id step_id : string)
    (status : StepStatus) (result error : option string)
  : M (option PlanStep.t) :=
  plan ← get_plan plan_id;
  match plan with
  | None => mret None
  | Some plan =>
      match find_step step_id (Plan.steps plan) with
      | None => mret None
      | Some (i, step) =>
          let step := PlanStep.set_status status step in
          let step := PlanStep.set_result result step in
          let step := PlanStep.set_error error step in
          step ← (match status with
                  | COMPLETED | FAILED =>
                      t ← now; mret (PlanStep.set_executed_at (Some t) step)
                  | _ => mret step
                  end);
          t ← now;
          write_plan plan_id
            (Plan.set_updated_at t
               (Plan.set_steps (<[i := step]> (Plan.steps plan)) plan));;
          mret (Some step)
      end
  end.

End Session.

(** ** core/plan_controller.py *)

Module PlanController.
Import Text Session.

(** A step definition passed to [create_plan]: a dictionary read with
    [get] at four keys. *)
Record StepDef : Type := mkStepDef {
  def_description : option string;
  def_operation : option string;
  def_expected_outcome : option string;
  def_rollback_action : option string
}.

Definition decimal (n : nat) : string :=
  NilEmpty.string_of_uint (Nat.to_uint n).

(** [for i, step_def in enumerate(steps)], from position [i]. *)
Fixpoint build_steps (i : nat) (defs : list StepDef)
  : M (list PlanStep.t) :=
  match defs with
  | [] => mret []
  | step_def :: rest =>
      id ← uuid4;
      let step :=
        PlanStep.mk id (Z.of_nat i + 1)
          (default ("Step " ++ decimal (i + 1))%string
                   (def_description step_def))
          (default "" (def_operation step_def))
          (default "" (def_expected_outcome step_def))
          (def_rollback_action step_def)
          PENDING None None None in
      plan_steps ← build_steps (S i) rest;
      mret (step :: plan_steps)
  end.

Definition create_plan (name description : string)
    (assessment : Assessment.t) (steps : list StepDef) : M Plan.t :=
  plan_steps ← build_steps 0 steps;
  id ← uuid4;
  created_at ← now;
  updated_at ← now;
  let plan :=
    Plan.mk id name description (Assessment.id assessment) plan_steps
            DRAFT 0 created_at updated_at None in
  store_plan plan;;
  mret plan.

Definition submit_for_approval (plan_id : string) : M (option Plan.t) :=
  plan ← get_plan plan_id;
  match plan with
  | None => mret None
  | Some plan =>
      match Plan.status plan with
      | DRAFT =>
          let plan := Plan.set_status AWAITING_APPROVAL plan in
          t ← now;
          let plan := Plan.set_updated_at t plan in
          write_plan plan_id plan;;
          mret (Some plan)
      | current => raise (ValueError_not_draft current)
      end
  end.

Definition new_approval (target_type target_id : string) (approved : bool)
    (reason : option string) : M Approval.t :=
  id ← uuid4;
  timestamp ← now;
  let approval :=
    Approval.mk id target_type target_id approved reason [] "user"
                timestamp in
  store_approval approval;;
  mret approval.

Definition approve_plan (plan_id : string) (reason : option string)
  : M (option Plan.t * option Approval.t) :=
  plan ← get_plan plan_id;
  match plan with
  | None => mret (None, None)
  | Some plan =>
      approval ← new_approval "plan" plan_id true reason;
      let plan := Plan.set_status IN_PROGRESS plan in
      t ← now;
      let plan := Plan.set_updated_at t plan in
      let plan :=
        Plan.set_steps (map (PlanStep.set_status APPROVED) (Plan.steps plan))
                       plan in
      write_plan plan_id plan;;
      mret (Some plan, Some approval)
  end.

Definition deny_plan (plan_id : string) (reason : option string)
  : M (option Plan.t * option Approval.t) :=
  plan ← get_plan plan_id;
  match plan with
  | None => mret (None, None)
  | Some plan =>
      approval ← new_approval "plan" plan_id false reason;
      let plan := Plan.set_status ABORTED plan in
      t ← now;
      let plan := Plan.set_updated_at t plan in
      t ← now;
      let plan := Plan.set_completed_at (Some t) plan in
      write_plan plan_id plan;;
      mret (Some plan, Some approval)
  end.

(** [approve_step] and [deny_step] differ in the flag of the approval and
    in the status given to the step. *)
Definition decide_step (approved : bool) (status : StepStatus)
    (plan_id step_id : string) (reason : option string)
  : M (option PlanStep.t * option Approval.t) :=
  plan ← get_plan plan_id;
  match plan with
  | None => mret (None, None)
  | Some plan =>
      match find_step step_id (Plan.steps plan) with
      | None => mret (None, None)
      | Some (i, step) =>
          approval ← new_approval "step" step_id approved reason;
          let step := PlanStep.set_status status step in
          t ← now;
          write_plan plan_id
            (Plan.set_updated_at t
               (Plan.set_steps (<[i := step]> (Plan.steps plan)) plan));;
          mret (Some step, Some approval)
      end
  end.

Definition approve_step : string -> string -> option string ->
    M (option PlanStep.t * option Approval.t) :=
  decide_step true APPROVED.

Definition deny_step : string -> string -> option string ->
    M (option PlanStep.t * option Approval.t) :=
  decide_step false DENIED.

Definition start_step_execution (plan_id step_id : string)
  : M (option PlanStep.t) :=
  update_step_status plan_id step_id EXECUTING None None.

Definition step_done (s : PlanStep.t) : bool :=
  match PlanStep.status s with
  | COMPLETED | SKIPPED => true
  | _ => false
  end.

Definition complete_step (plan_id step_id result : string)
  : M (option PlanStep.t) :=
  plan ← get_plan plan_id;
  match plan with
  | None => mret None
  | Some _ =>
      step ← update_step_status plan_id step_id COMPLETED (Some result) None;
      match step with
      | None => mret None
      | Some step =>
          (* [plan] is the stored object, as the update left it *)
          plan ← get_plan plan_id;
          match plan with
          | None => mret (Some step)
          | Some plan =>
              if forallb step_done (Plan.steps plan)
              then
                let plan := Plan.set_status PLAN_COMPLETED plan in
                t ← now;
                let plan := Plan.set_completed_at (Some t) plan in
                write_plan plan_id plan;;
                mret (Some step)
              else mret (Some step)
          end
      end
  end.

Definition fail_step (plan_id step_id error : string)
  : M (option PlanStep.t) :=
  plan ← get_plan plan_id;
  match plan with
  | None => mret None
  | Some _ =>
      step ← update_step_status plan_id step_id FAILED None (Some error);
      match step with
      | None => mret None
      | Some step =>
          plan ← get_plan plan_id;
          match plan with
          | None => mret (Some step)
          | Some plan =>
              let plan := Plan.set_status PLAN_FAILED plan in
              t ← now;
              let plan := Plan.set_updated_at t plan in
              write_plan plan_id plan;;
              mret (Some step)
          end
      end
  end.

(** One entry of [rollback_suggestions]. *)
Record Suggestion : Type := mkSuggestion {
  step_id : string;
  step_order : Z;
  step_description : string;
  rollback_action : string
}.

(** The dictionary returned by [abort_plan]. *)
Record AbortResult : Type := mkAbortResult {
  plan_id : string;
  reason : option string;
  rollback_suggestions : list Suggestion;
  completed_steps : nat;
  skipped_steps : nat
}.

(** The first loop of [abort_plan]: one [append] per completed step with
    a truthy rollback action. *)
Definition collect_suggestion (acc : list Suggestion) (step : PlanStep.t)
  : list Suggestion :=
  match PlanStep.status step, PlanStep.rollback_action step with
  | COMPLETED, Some action =>
      if nonempty action
      then acc ++ [mkSuggestion (PlanStep.id step) (PlanStep.order step)
                                (PlanStep.description step) action]
      else acc
  | _, _ => acc
  end.

(** The second loop: pending and approved steps become skipped. *)
Definition skip_remaining (step : PlanStep.t) : PlanStep.t :=
  match PlanStep.status step with
  | PENDING | APPROVED => PlanStep.set_status SKIPPED step
  | _ => step
  end.

(** [sum(1 for s in steps if s.status == status)] *)
Definition count_status (status : StepStatus) (steps : list PlanStep.t)
  : nat :=
  fold_left
    (fun n s => if decide (PlanStep.status s = status) then S n else n)
    steps O.

Definition abort_plan (plan_id : string) (reason : option string)
  : M (option AbortResult) :=
  plan ← get_plan plan_id;
  match plan with
  | None => mret None
  | Some plan =>
      let rollback_suggestions :=
        fold_left collect_suggestion (Plan.steps plan) [] in
      let plan :=
        Plan.set_steps (map skip_remaining (Plan.steps plan)) plan in
      let plan := Plan.set_status ABORTED plan in
      t ← now;
      let plan := Plan.set_updated_at t plan in
      t ← now;
      let plan := Plan.set_completed_at (Some t) plan in
      write_plan plan_id plan;;
      mret (Some (mkAbortResult plan_id reason
                    (rev rollback_suggestions)
                    (count_status COMPLETED (Plan.steps plan))
                    (count_status SKIPPED (Plan.steps plan))))
  end.

End PlanController.

(** ** core/deviation_detector.py *)

Module DeviationDetector.
Import Text.

(** The deviation types ["minor"], ["major"], ["critical"], in the order
    of [severity_order]. *)
Inductive DeviationType : Type := minor | major | critical.

(** A severity: ["none"], or a deviation type. *)
Inductive Severity : Type :=
| none
| sev (d : DeviationType).

Definition severity_value (s : Severity) : string :=
  match s with
  | none => "none"
  | sev minor => "minor"
  | sev major => "major"
  | sev critical => "critical"
  end.

Inductive DeviationKind : Type := operation_deviation | outcome_deviation.

(** Text with the similarity left unformatted: [Percent q] stands for
    [q] rendered by the format [.1%]. *)
Inductive piece : Type :=
| Str (s : string)
| Percent (q : Q).

(** A finding. [planned] holds the planned operation or the expected
    outcome; [similarity] is present in operation findings only. *)
Record Deviation : Type := mkDeviation {
  type : DeviationKind;
  deviation_type : DeviationType;
  planned : string;
  actual : string;
  similarity : option Q;
  message : list piece
}.

Record DeviationReport : Type := mkDeviationReport {
  step_id : string;
  has_deviation : bool;
  severity : Severity;
  deviations : list Deviation;
  recommendations : list (list piece)
}.

Definition _normalize (text : string) : string :=
  join " " (split (lower text)).

(** [len(intersection) / len(union)] of the two word sets. The quotient
    of two word counts is compared with 0.9 and 0.7 only, and the
    comparison of the rounded quotient agrees with the exact one. *)
Definition _calculate_similarity (text1 text2 : string) : Q :=
  let words1 : gset string := list_to_set (split text1) in
  let words2 : gset string := list_to_set (split text2) in
  if decide (words1 = ∅ ∧ words2 = ∅) then 1
  else if decide (words1 = ∅ ∨ words2 = ∅) then 0
  else Z.of_nat (size (words1 ∩ words2))
       # Pos.of_nat (size (words1 ∪ words2)).

Definition _check_operation_deviation (planned actual : string)
  : option Deviation :=
  if negb (nonempty planned) || negb (nonempty actual) then None
  else
    let planned_normalized := _normalize planned in
    let actual_normalized := _normalize actual in
    if String.eqb planned_normalized actual_normalized then None
    else
      let similarity :=
        _calculate_similarity planned_normalized actual_normalized in
      if Qle_bool (9 # 10) similarity then None
      else
        let deviation_type :=
          if Qle_bool (7 # 10) similarity then minor else major in
        Some (mkDeviation operation_deviation deviation_type planned actual
                (Some similarity)
                [Str "Operation differs from plan (similarity: ";
                 Percent similarity; Str ")"]).

Definition error_indicators : list string :=
  [ "error"; "failed"; "exception"; "traceback";
    "denied"; "forbidden"; "unauthorized"; "timeout";
    "not found"; "does not exist"; "cannot"; "unable" ].

Definition success_indicators : list string :=
  [ "success"; "completed"; "done"; "created";
    "updated"; "deleted"; "ok"; "passed" ].

Definition _check_outcome_deviation (expected actual : string)
  : option Deviation :=
  if negb (nonempty expected) || negb (nonempty actual) then None
  else
    let expected_lower := lower expected in
    let actual_lower := lower actual in
    let has_error := contains_any error_indicators actual_lower in
    if has_error
    then Some (mkDeviation outcome_deviation critical expected actual None
                 [Str "Execution resulted in error or failure"])
    else
      let expected_success :=
        contains_any success_indicators expected_lower in
      let actual_success := contains_any success_indicators actual_lower in
      if expected_success && negb actual_success
      then Some (mkDeviation outcome_deviation major expected actual None
                   [Str "Expected success but outcome is unclear"])
      else None.

(** [severity_order.index] *)
Definition severity_index (d : DeviationType) : nat :=
  match d with
  | minor => 0 | major => 1 | critical => 2
  end.

Definition _calculate_severity (deviations : list Deviation) : Severity :=
  match deviations with
  | [] => none
  | _ =>
      sev (fold_left
             (fun max_severity deviation =>
                let dev_type := deviation_type deviation in
                if (severity_index max_severity <? severity_index dev_type)%nat
                then dev_type else max_severity)
             deviations minor)
  end.

Definition similarity_lines (deviations : list Deviation)
  : list (list piece) :=
  flat_map
    (fun deviation =>
       match type deviation with
       | operation_deviation =>
           [[Str "Operation similarity: ";
             Percent (default 0%Q (similarity deviation))]]
       | outcome_deviation => []
       end)
    deviations.

Definition _generate_recommendations (deviations : list Deviation)
    (severity : Severity) : list (list piece) :=
  match severity with
  | none => [[Str "Execution proceeded as planned"]]
  | sev critical =>
      [[Str "STOP: Critical deviation detected"];
       [Str "Review error output and assess impact"];
       [Str "Consider rolling back completed steps"]]
      ++ similarity_lines deviations
  | sev major =>
      [[Str "CAUTION: Significant deviation from plan"];
       [Str "Verify actual outcome before proceeding"];
       [Str "Consider updating plan if deviation is acceptable"]]
      ++ similarity_lines deviations
  | sev minor =>
      [[Str "NOTE: Minor deviation detected"];
       [Str "Review changes and confirm acceptability"]]
      ++ similarity_lines deviations
  end.

Definition to_list {A} (o : option A) : list A :=
  match o with Some a => [a] | None => [] end.

Definition detect (step : PlanStep.t)
    (actual_operation actual_outcome : string) : DeviationReport :=
  let operation_deviation :=
    _check_operation_deviation (PlanStep.operation step) actual_operation in
  let outcome_deviation :=
    _check_outcome_deviation (PlanStep.expected_outcome step)
                             actual_outcome in
  let deviations :=
    to_list operation_deviation ++ to_list outcome_deviation in
  let severity := _calculate_severity deviations in
  let recommendations := _generate_recommendations deviations severity in
  mkDeviationReport (PlanStep.id step)
    (match deviations with [] => false | _ => true end)
    severity deviations recommendations.

End DeviationDetector.

(** ** state/audit.py *)

Module AuditLogger.

Definition log (action operation : string) (risk_level : RiskLevel)
    (details : option (gmap string string))
    (assessment_id plan_id step_id : option string) (success : bool)
    (error : option string) : M AuditEntry.t :=
  id ← uuid4;
  timestamp ← now;
  let entry :=
    AuditEntry.mk id action operation risk_level (default ∅ details)
                  assessment_id plan_id step_id success error timestamp in
  modify (fun w => set_audit_entries (audit_entries w ++ [entry]) w);;
  mret entry.

(** The keyword arguments of [get_entries]. *)
Record Query : Type := mkQuery {
  limit : option Z;
  offset : Z;
  risk_level : option RiskLevel;
  action : option string;
  since : option datetime;
  until : option datetime;
  assessment_id : option string;
  plan_id : option string;
  success_only : bool;
  failures_only : bool
}.

(** [if x is not None: entries = [e for e in entries if keep x e]] *)
Definition filter_on {A} (x : option A) (keep : A -> AuditEntry.t -> bool)
    (entries : list AuditEntry.t) : list AuditEntry.t :=
  match x with
  | Some v => List.filter (keep v) entries
  | None => entries
  end.

(** [if flag: entries = [e for e in entries if keep e]] *)
Definition filter_if (flag : bool) (keep : AuditEntry.t -> bool)
    (entries : list AuditEntry.t) : list AuditEntry.t :=
  if flag then List.filter keep entries else entries.

(** [list.sort(key=lambda e: e.timestamp, reverse=True)]: a stable sort,
    so entries of equal timestamp keep their order. *)
Fixpoint insert_desc (e : AuditEntry.t) (sorted : list AuditEntry.t)
  : list AuditEntry.t :=
  match sorted with
  | [] => [e]
  | x :: rest =>
      if (AuditEntry.timestamp e <? AuditEntry.timestamp x)%Z
      then x :: insert_desc e rest
      else e :: sorted
  end.

Definition sort_desc (entries : list AuditEntry.t) : list AuditEntry.t :=
  fold_right insert_desc [] entries.

(** [entries[:n]] for any integer [n]: a negative [n] counts from the
    end. *)
Definition slice_to (n : Z) (entries : list AuditEntry.t)
  : list AuditEntry.t :=
  if (0 <=? n)%Z then take (Z.to_nat n) entries
  else take (length entries - Z.to_nat (- n)) entries.

Definition option_is {A} (eqb : A -> A -> bool) (o : option A) (v : A)
  : bool :=
  match o with Some x => eqb x v | None => false end.

Definition get_entries (self : list AuditEntry.t) (q : Query)
  : list AuditEntry.t :=
  let entries := self in
  let entries :=
    filter_on (risk_level q)
      (fun v e => bool_decide (AuditEntry.risk_level e = v)) entries in
  let entries :=
    filter_on (action q)
      (fun v e => String.eqb (AuditEntry.action e) v) entries in
  let entries :=
    filter_on (since q)
      (fun v e => (v <=? AuditEntry.timestamp e)%Z) entries in
  let entries :=
    filter_on (until q)
      (fun v e => (AuditEntry.timestamp e <=? v)%Z) entries in
  let entries :=
    filter_on (assessment_id q)
      (fun v e => option_is String.eqb (AuditEntry.assessment_id e) v)
      entries in
  let entries :=
    filter_on (plan_id q)
      (fun v e => option_is String.eqb (AuditEntry.plan_id e) v)
      entries in
  let entries := filter_if (success_only q) AuditEntry.success entries in
  let entries :=
    filter_if (failures_only q) (fun e => negb (AuditEntry.success e))
              entries in
  let entries := sort_desc entries in
  let entries :=
    if (0 <? offset q)%Z then drop (Z.to_nat (offset q)) entries
    else entries in
  let entries :=
    match limit q with
    | Some n => slice_to n entries
    | None => entries
    end in
  entries.

End AuditLogger.

(** ** Runs of the plan controller *)

Module Lifecycle.
Import PlanController.

(** A call of one of the nine operations that act on a stored plan. *)
Inductive Op : Type :=
| Submit (plan_id : string)
| ApprovePlan (plan_id : string) (reason : option string)
| DenyPlan (plan_id : string) (reason : option string)
| ApproveStep (plan_id step_id : string) (reason : option string)
| DenyStep (plan_id step_id : string) (reason : option string)
| StartStep (plan_id step_id : string)
| CompleteStep (plan_id step_id result : string)
| FailStep (plan_id step_id error : string)
| AbortPlan (plan_id : string) (reason : option string).

(** The state after a call, whatever it returned or raised. *)
Definition run_op (o : Op) (w : World) : World :=
  match o with
  | Submit p => snd (submit_for_approval p w)
  | ApprovePlan p r => snd (approve_plan p r w)
  | DenyPlan p r => snd (deny_plan p r w)
  | ApproveStep p s r => snd (approve_step p s r w)
  | DenyStep p s r => snd (deny_step p s r w)
  | StartStep p s => snd (start_step_execution p s w)
  | CompleteStep p s r => snd (complete_step p s r w)
  | FailStep p s e => snd (fail_step p s e w)
  | AbortPlan p r => snd (abort_plan p r w)
  end.

Definition run_ops (ops : list Op) (w : World) : World :=
  fold_left (fun w o => run_op o w) ops w.

(** The stored plan with the given id. *)
Definition plan_of (w : World) (plan_id : string) : option Plan.t :=
  SessionManager.plans (session w) !! plan_id.

(** The two terminal statuses whose entry stamps the completion time. *)
Definition completed_or_aborted (status : PlanStatus) : Prop :=
  status = PLAN_COMPLETED ∨ status = ABORTED.

(** The completion timestamp is set. *)
Definition stamped (plan : Plan.t) : Prop :=
  is_Some (Plan.completed_at plan).

(** [t] is a reading of the clock taken between the states [w] and
    [w']. *)
Definition read_between (w w' : World) (t : datetime) : Prop :=
  ∃ k, (clock_reads w ≤ k < clock_reads w')%nat ∧ t = clock w k.

(** What one call does to a stored plan: either it leaves the completion
    timestamp alone and does not move the plan into completed or aborted,
    or it stamps the completion timestamp with a reading of the clock. *)
Definition touches (w w' : World) (plan plan' : Plan.t) : Prop :=
  (Plan.completed_at plan' = Plan.completed_at plan
   ∧ (Plan.status plan' = Plan.status plan
      ∨ ¬ completed_or_aborted (Plan.status plan')))
  ∨ (∃ t, read_between w w' t ∧ Plan.completed_at plan' = Some t).

(** The claim that the specification makes of every reachable state. *)
Definition stamped_iff_terminal (plan : Plan.t) : Prop :=
  stamped plan ↔ Session.is_terminal (Plan.status plan) = true.

(** A process that has just started: nothing stored, nothing logged; the
    clock reads 1000, 1001, ... and the ids are "id-0", "id-1", ... *)
Definition boot : World :=
  mkWorld (SessionManager.mk ∅ ∅ ∅ "session") []
          (fun n => 1000 + Z.of_nat n)%Z 0
          (fun n => ("id-" ++ decimal n)%string) 0.

End Lifecycle.

(** ** The query of the audit log, as the specification words it:
    filter by the criteria, sort by timestamp descending, drop the first
    [offset] entries, take the first [limit] entries. *)

Module AuditSpec.
Import AuditLogger.

Definition meets {A} (x : option A) (test : A -> bool) : bool :=
  match x with Some v => test v | None => true end.

Definition selected (q : Query) (e : AuditEntry.t) : bool :=
  meets (risk_level q) (fun v => bool_decide (AuditEntry.risk_level e = v))
  && meets (action q) (fun v => String.eqb (AuditEntry.action e) v)
  && meets (since q) (fun v => (v <=? AuditEntry.timestamp e)%Z)
  && meets (until q) (fun v => (AuditEntry.timestamp e <=? v)%Z)
  && meets (assessment_id q)
       (fun v => option_is String.eqb (AuditEntry.assessment_id e) v)
  && meets (plan_id q)
       (fun v => option_is String.eqb (AuditEntry.plan_id e) v)
  && (if success_only q then AuditEntry.success e else true)
  && (if failures_only q then negb (AuditEntry.success e) else true).

Definition take_first (limit : option Z) (l : list AuditEntry.t)
  : list AuditEntry.t :=
  match limit with
  | Some n => take (Z.to_nat n) l
  | None => l
  end.

Definition filter_sort_page (entries : list AuditEntry.t) (q : Query)
  : list AuditEntry.t :=
  take_first (limit q)
    (drop (Z.to_nat (offset q))
       (sort_desc (List.filter (selected q) entries))).

(** Most recent first. *)
Definition newest_first (l : list AuditEntry.t) : Prop :=
  Sorted (fun a b => (AuditEntry.timestamp b <= AuditEntry.timestamp a)%Z)
         l.

End AuditSpec.

(** ** The outcome of [abort_plan], as the specification words it *)

Module AbortSpec.
Import PlanController.

(** A step is suggested for rollback when it is completed and carries a
    non-empty rollback instruction. *)
Definition wants_rollback (s : PlanStep.t) : bool :=
  bool_decide (PlanStep.status s = COMPLETED)
  && match PlanStep.rollback_action s with
     | Some action => Text.nonempty action
     | None => false
     end.

Definition suggestion_of (s : PlanStep.t) : Suggestion :=
  mkSuggestion (PlanStep.id s) (PlanStep.order s) (PlanStep.description s)
               (default "" (PlanStep.rollback_action s)).

Definition has_status (status : StepStatus) (s : PlanStep.t) : bool :=
  bool_decide (PlanStep.status s = status).

End AbortSpec.

(** ** Sample data *)

Module Samples.
Import PlanController Lifecycle.

(** The operation of the specification's worked example. *)
Definition delete_all_records : string :=
  "delete all records from user_sessions table".

(** A step that records no expected outcome. *)
Definition step_without_expectation : PlanStep.t :=
  PlanStep.mk "step-1" 1 "Remove stale sessions"
    "DELETE FROM user_sessions" "" None EXECUTING None None None.

Definition sample_assessment : Assessment.t :=
  Assessment.mk "assessment-1" "purge stale sessions" "" "database"
    "delete" "collection" 20 HIGH
    (mkFactors (mkFactor "database" 4 "Database operation")
               (mkFactor "delete" (5 # 2)
                  "Destructive operation that removes data")
               (mkFactor "collection" 2
                  "Affects an entire collection or batch"))
    [] 999%Z.

Definition step_def (description operation : string)
    (rollback : option string) : StepDef :=
  mkStepDef (Some description) (Some operation)
            (Some "Step completed successfully") rollback.

Definition four_step_defs : list StepDef :=
  [ step_def "backup" "pg_dump -t user_sessions" (Some "drop backup");
    step_def "purge" "DELETE FROM user_sessions" (Some "restore");
    step_def "vacuum" "VACUUM user_sessions" None;
    step_def "report" "SELECT count(*) FROM user_sessions" None ].

(** A plan of four steps, just created: the steps are "id-0" .. "id-3",
    the plan is "id-4". *)
Definition four_steps : World :=
  snd (create_plan "cleanup" "purge stale sessions" sample_assessment
         four_step_defs boot).

Definition abort_after_work : list Op :=
  [ ApprovePlan "id-4" None;
    CompleteStep "id-4" "id-0" "done";
    DenyStep "id-4" "id-1" None;
    FailStep "id-4" "id-2" "disk full";
    AbortPlan "id-4" None ].

(** The plan approved, one step completed, one denied, one failed, then
    the plan aborted. *)
Definition aborted_plan : World := run_ops abort_after_work four_steps.

(** The first and the third step completed, without any approval; the
    second and the fourth are still pending. *)
Definition two_completed : World :=
  run_ops [ CompleteStep "id-4" "id-0" "done";
            CompleteStep "id-4" "id-2" "done" ]
          four_steps.

(** The plan denied, then approved. *)
Definition denied_then_approved : World :=
  run_ops [ DenyPlan "id-4" None; ApprovePlan "id-4" None ] four_steps.

(** Two logged entries, the second more recent than the first. *)
Definition entry_at (id : string) (t : datetime) : AuditEntry.t :=
  AuditEntry.mk id "assess" "ls -la" LOW ∅ None None None true None t.

Definition two_entries : list AuditEntry.t :=
  [entry_at "entry-1" 1000%Z; entry_at "entry-2" 1001%Z].

(** [get_entries(limit=n)], every other argument at its default. *)
Definition with_limit (n : Z) : AuditLogger.Query :=
  AuditLogger.mkQuery (Some n) 0 None None None None None None false false.

(** [get_entries(limit=1, offset=1, risk_level=LOW, success_only=True)] *)
Definition second_page : AuditLogger.Query :=
  AuditLogger.mkQuery (Some 1%Z) 1 (Some LOW) None None None None None true
                      false.

End Samples.

Import Samples.

(** Unfolding of the monad and of the primitive reads and writes. *)
Ltac run_monad :=
  cbv [mbind M_bind bind mret M_ret ret raise gets modify now uuid4
       Session.get_plan Session.write_plan Session.store_approval
       Session.store_plan];
  cbn.

(** ** state/models.py, state/session.py, core/plan_controller.py and
    state/audit.py: the remaining operations *)

Module TextSpec.
Import Text.

(** A word: at least one character, none of them white space. *)
Definition wordlike (w : string) : Prop :=
  chars w ≠ [] ∧ Forall (fun c => chr_isspace c = false) (chars w).

End TextSpec.

Module PlanQueries.
Import Session PlanController.

(** [StepStatus.value] *)
Definition step_status_value (s : StepStatus) : string :=
  match s with
  | PENDING => "pending"
  | APPROVED => "approved"
  | DENIED => "denied"
  | EXECUTING => "executing"
  | COMPLETED => "completed"
  | FAILED => "failed"
  | SKIPPED => "skipped"
  end.

(** [Plan.advance_to_next_step], on the plan it is called on: the plan as
    the call leaves it, and the step it returns. *)
Definition advance_to_next_step (plan : Plan.t)
  : M (Plan.t * option PlanStep.t) :=
  let plan :=
    Plan.set_current_step_index (Plan.current_step_index plan + 1) plan in
  t ← now;
  let plan := Plan.set_updated_at t plan in
  mret (plan, Plan.get_current_step plan).

(** A caller that calls [advance_to_next_step] [n] times in a row and
    then holds the plan and the step last returned; with no call, the step
    is the current one. *)
Fixpoint advance_times (n : nat) (plan : Plan.t)
  : M (Plan.t * option PlanStep.t) :=
  match n with
  | O => mret (plan, Plan.get_current_step plan)
  | S n =>
      r ← advance_to_next_step plan;
      match n with
      | O => mret r
      | S _ => advance_times n (fst r)
      end
  end.

(** The dictionary returned by [get_plan_status]; [plan] and [current_step]
    stand for their [to_dict()] renderings. *)
Record PlanStatusReport : Type := mkPlanStatusReport {
  plan : Plan.t;
  current_step : option PlanStep.t;
  step_summary : gmap string nat;
  progress : string;
  is_active : bool
}.

Definition empty_summary : gmap string nat :=
  list_to_map
    [ ("pending", 0); ("approved", 0); ("denied", 0); ("executing", 0);
      ("completed", 0); ("failed", 0); ("skipped", 0) ].

(** [step_summary[v] = step_summary.get(v, 0) + 1] for [v] the value of
    the status of the step. *)
Definition tally (summary : gmap string nat) (step : PlanStep.t)
  : gmap string nat :=
  let v := step_status_value (PlanStep.status step) in
  <[v := default 0 (summary !! v) + 1]> summary.

Definition get_plan_status (plan_id : string) : M (option PlanStatusReport) :=
  plan ← get_plan plan_id;
  match plan with
  | None => mret None
  | Some plan =>
      let step_summary := fold_left tally (Plan.steps plan) empty_summary in
      let current_step := Plan.get_current_step plan in
      mret (Some (mkPlanStatusReport plan current_step step_summary
                    (decimal (default 0 (step_summary !! "completed"))
                     ++ "/" ++ decimal (length (Plan.steps plan)))%string
                    (match Plan.status plan with
                     | AWAITING_APPROVAL | IN_PROGRESS => true
                     | _ => false
                     end)))
  end.

(** What a step is, apart from its progress: the fields set at creation. *)
Definition step_definition (s : PlanStep.t)
  : string * Z * string * string * string * option string :=
  (PlanStep.id s, PlanStep.order s, PlanStep.description s,
   PlanStep.operation s, PlanStep.expected_outcome s,
   PlanStep.rollback_action s).

(** Two states of a plan that differ in progress only: the same identity
    and the same step definitions, in the same order. *)
Definition same_frame (plan plan' : Plan.t) : Prop :=
  Plan.id plan' = Plan.id plan
  ∧ Plan.name plan' = Plan.name plan
  ∧ Plan.description plan' = Plan.description plan
  ∧ Plan.assessment_id plan' = Plan.assessment_id plan
  ∧ Plan.created_at plan' = Plan.created_at plan
  ∧ Plan.current_step_index plan' = Plan.current_step_index plan
  ∧ map step_definition (Plan.steps plan')
    = map step_definition (Plan.steps plan).

(** The number of steps of a plan that have the status. *)
Definition steps_in (status : StepStatus) (plan : Plan.t) : nat :=
  length (List.filter (AbortSpec.has_status status) (Plan.steps plan)).

(** [complete_step] called once for each of the step ids. *)
Definition complete_all (plan_id result : string) (step_ids : list string)
  : list Lifecycle.Op :=
  map (fun step_id => Lifecycle.CompleteStep plan_id step_id result)
      step_ids.

End PlanQueries.

Module SessionQueries.

(** [get_approvals_for_target]. The dictionary of approvals is read in
    insertion order, which decides between approvals of equal timestamp:
    [values] is [self._approvals.values()]. *)
Definition get_approvals_for_target (values : list Approval.t)
    (target_type target_id : string) : list Approval.t :=
  List.filter
    (fun a => String.eqb (Approval.target_type a) target_type
              && String.eqb (Approval.target_id a) target_id)
    values.

(** [max(approvals, key=lambda a: a.timestamp)] of a non-empty list: the
    first approval of greatest timestamp. *)
Definition latest (first : Approval.t) (rest : list Approval.t)
  : Approval.t :=
  fold_left
    (fun best a =>
       if (Approval.timestamp best <? Approval.timestamp a)%Z then a
       else best)
    rest first.

Definition is_approved (values : list Approval.t)
    (target_type target_id : string) : bool :=
  match get_approvals_for_target values target_type target_id with
  | [] => false
  | first :: rest => Approval.approved (latest first rest)
  end.

(** [get_active_plans], over [self._plans.values()]. *)
Definition get_active_plans (values : list Plan.t) : list Plan.t :=
  List.filter
    (fun p => match Plan.status p with
              | AWAITING_APPROVAL | IN_PROGRESS => true
              | _ => false
              end)
    values.

End SessionQueries.

Module AuditStats.

(** [RiskLevel.value] *)
Definition risk_level_value (l : RiskLevel) : string :=
  match l with LOW => "low" | MEDIUM => "medium" | HIGH => "high" end.

(** [get_entry]: the first entry with the id. *)
Fixpoint get_entry (self : list AuditEntry.t) (entry_id : string)
  : option AuditEntry.t :=
  match self with
  | [] => None
  | entry :: rest =>
      if String.eqb (AuditEntry.id entry) entry_id then Some entry
      else get_entry rest entry_id
  end.

(** The dictionary returned by [get_stats]. [success_rate] is the quotient
    of the two counts, which the code rounds to a double. *)
Record Stats : Type := mkStats {
  total_entries : nat;
  by_risk_level : gmap string nat;
  by_action : gmap string nat;
  success_rate : option Q
}.

(** [d[k] = d.get(k, 0) + 1] *)
Definition bump (k : string) (d : gmap string nat) : gmap string nat :=
  <[k := default 0 (d !! k) + 1]> d.

(** The loop of [get_stats], on the three accumulators. *)
Definition count_entry (acc : gmap string nat * gmap string nat * nat)
    (entry : AuditEntry.t) : gmap string nat * gmap string nat * nat :=
  let '(by_risk, by_action, success_count) := acc in
  (bump (risk_level_value (AuditEntry.risk_level entry)) by_risk,
   bump (AuditEntry.action entry) by_action,
   if AuditEntry.success entry then S success_count else success_count).

Definition get_stats (self : list AuditEntry.t) : Stats :=
  let total := length self in
  match total with
  | O => mkStats 0 ∅ ∅ None
  | _ =>
      let '(by_risk, by_action, success_count) :=
        fold_left count_entry self (∅, ∅, O) in
      mkStats total by_risk by_action
              (Some (Z.of_nat success_count # Pos.of_nat total))
  end.

(** [clear] *)
Definition clear : M unit := modify (set_audit_entries []).

End AuditStats.

(** ** Vocabulary of the further properties *)

Module QuerySpec.
Import AuditLogger.

(** The query [q] with [offset=k] and [limit=n]. *)
Definition page (q : Query) (k n : Z) : Query :=
  mkQuery (Some n) k (risk_level q) (action q) (since q) (until q)
          (assessment_id q) (plan_id q) (success_only q) (failures_only q).

(** The query [q] with no limit and no offset. *)
Definition unpaged (q : Query) : Query :=
  mkQuery None 0 (risk_level q) (action q) (since q) (until q)
          (assessment_id q) (plan_id q) (success_only q) (failures_only q).

(** The entry of a counting dictionary for a key counted [n] times: a key
    never counted is absent. *)
Definition counted (n : nat) : option nat :=
  match n with O => None | S _ => Some n end.

(** The stored plans. Their order here is not the order of insertion that
    Python keeps; only membership is stated of it. *)
Definition plan_values (w : World) : list Plan.t :=
  map snd (map_to_list (SessionManager.plans (session w))).

End QuerySpec.

(** ** Further sample data *)

Module MoreSamples.
Import PlanController Lifecycle.

(** Completing the four steps of the sample plan, last step first. *)
Definition complete_backwards : list Op :=
  [ CompleteStep "id-4" "id-3" "ok"; CompleteStep "id-4" "id-2" "ok";
    CompleteStep "id-4" "id-1" "ok"; CompleteStep "id-4" "id-0" "ok" ].

Definition approval_at (id : string) (target : string) (flag : bool)
    (t : datetime) : Approval.t :=
  Approval.mk id "plan" target flag None [] "user" t.

(** Three decisions on one plan and one on another, in the order they were
    stored; the denial is the most recent decision on "plan-1". *)
Definition decisions : list Approval.t :=
  [ approval_at "a1" "plan-1" true 10%Z;
    approval_at "a2" "plan-2" true 40%Z;
    approval_at "a3" "plan-1" false 30%Z;
    approval_at "a4" "plan-1" true 20%Z ].

End MoreSamples.

Import MoreSamples.

(** * Properties *)

(** ** Text *)

Section TextFacts.
Import Text.

Lemma chars_app (a b : string) : chars (a ++ b) = chars a ++ chars b.
Proof.
  unfold chars. induction a as [|c a IH]; [done |].
  change (String c a ++ b)%string with (String c (a ++ b)).
  cbn. by rewrite IH.
Qed.

Lemma text_chars (s : string) : text (chars s) = s.
Proof. apply string_of_list_ascii_of_string. Qed.

Lemma chars_text (l : list ascii) : chars (text l) = l.
Proof. apply list_ascii_of_string_of_list_ascii. Qed.

Lemma text_app (a b : list ascii) : text (a ++ b) = (text a ++ text b)%string.
Proof.
  rewrite <- (chars_text a), <- (chars_text b) at 1.
  by rewrite <- chars_app, text_chars.
Qed.

Lemma is_prefix_spec (p l : list ascii) :
  is_prefix p l = true ↔ ∃ post, l = p ++ post.
Proof.
  revert l; induction p as [|a p IH]; intros l; cbn.
  - split; [intros _; by exists l | done].
  - destruct l as [|b l]; [split; [done | intros [post H]; discriminate] |].
    rewrite andb_true_iff, IH. split.
    + intros [Hab [post ->]]. apply Ascii.eqb_eq in Hab as ->. by exists post.
    + intros [post [= -> ->]]. split; [apply Ascii.eqb_refl | by exists post].
Qed.

Lemma occurs_spec (p l : list ascii) :
  occurs p l = true ↔ ∃ pre post, l = pre ++ p ++ post.
Proof.
  induction l as [|b l IH].
  - cbn. rewrite orb_false_r, is_prefix_spec. split.
    + intros [post H]. by exists [], post.
    + intros [pre [post H]]. destruct pre; [by exists post | discriminate].
  - cbn [occurs]. rewrite orb_true_iff, IH, is_prefix_spec. split.
    + intros [[post H] | [pre [post ->]]].
      * by exists [], post.
      * by exists (b :: pre), post.
    + intros [[|c pre] [post H]].
      * left. by exists post.
      * right. injection H as -> ->. by exists pre, post.
Qed.

(** [kw in s] holds exactly when [s] is some text, then [kw], then some
    text. *)
Lemma contains_spec (kw s : string) :
  contains kw s = true ↔ ∃ pre post : string, s = (pre ++ kw ++ post)%string.
Proof.
  unfold contains. rewrite occurs_spec. split.
  - intros [pre [post H]]. exists (text pre), (text post).
    by rewrite <- (text_chars s), H, !text_app, text_chars.
  - intros [pre [post ->]]. exists (chars pre), (chars post).
    by rewrite !chars_app.
Qed.

Lemma contains_any_spec (kws : list string) (s : string) :
  contains_any kws s = true
  ↔ ∃ kw, In kw kws ∧ ∃ pre post : string, s = (pre ++ kw ++ post)%string.
Proof.
  unfold contains_any. rewrite existsb_exists.
  split; intros [kw [Hin H]]; exists kw; split; try done;
    by apply contains_spec.
Qed.

Lemma lower_empty (s : string) : lower s = "" → s = "".
Proof. destruct s; [done | discriminate]. Qed.

End TextFacts.

(** ** The pattern matcher *)

Section ReFacts.
Import Text Re.
Variable t : list ascii.

Lemma rounds_head (step : nat → list nat) (fuel i : nat) :
  In i (rounds step fuel i).
Proof. destruct fuel; cbn; auto. Qed.

Lemma rounds_sound (r : regex) (fuel : nat) :
  (∀ a b, In b (ends r t a) → matches t r a b) →
  ∀ i k, In k (rounds (ends r t) fuel i) → matches t (Star r) i k.
Proof.
  intros Hstep. induction fuel as [|fuel IH]; intros i k; cbn [rounds In].
  - intros [<- | []]. constructor.
  - intros [<- | Hin]; [constructor |].
    apply in_flat_map in Hin as (j & Hj & Hk).
    destruct (i <? j)%nat; [| done].
    eapply matches_star_more; [by apply Hstep | by apply IH].
Qed.

(** Every position that [ends] returns is the end of a match. *)
Lemma ends_sound (r : regex) (i j : nat) :
  In j (ends r t i) → matches t r i j.
Proof.
  revert i j.
  induction r as [c | | | | | cs | | | | r1 IH1 r2 IH2 | r1 IH1 r2 IH2
                 | r IH | r IH | r IH]; intros i j; cbn [ends].
  1-6: destruct (nth_error t i) as [d |] eqn:Hd; [| done];
       match goal with
       | |- In _ (if accepts ?r d then _ else _) → _ =>
           destruct (accepts r d) eqn:Hacc; [| done]
       end;
       intros [<- | []]; by econstructor.
  - destruct (at_eol t i) eqn:H; [| done]. intros [<- | []]. by constructor.
  - destruct (at_boundary t i) eqn:H; [| done]. intros [<- | []].
    by constructor.
  - intros [<- | []]. constructor.
  - intros Hin. apply in_flat_map in Hin as (m & Hm & Hj).
    econstructor; [by apply IH1 | by apply IH2].
  - intros Hin. apply in_app_or in Hin as [H | H].
    + apply matches_alt_l. by apply IH1.
    + apply matches_alt_r. by apply IH2.
  - by apply rounds_sound.
  - intros Hin. apply in_flat_map in Hin as (m & Hm & Hj).
    econstructor; [by apply IH | by eapply rounds_sound].
  - intros [<- | Hin]; [apply matches_opt_nil | apply matches_opt; by apply IH].
Qed.

(** A match ends where it starts or further on, and a match that consumes
    a character ends inside the text. *)
Lemma matches_bounds (r : regex) (i j : nat) :
  matches t r i j → (i ≤ j)%nat ∧ ((i < j)%nat → (j ≤ length t)%nat).
Proof.
  induction 1 as [r i d _ Hd _ | | | | r1 r2 i j k _ [? ?] _ [? ?] | | |
                  | r i j k _ [? ?] _ [? ?] | r i j k _ [? ?] _ [? ?] | |];
    try lia.
  split; [lia |]. intros _.
  assert (nth_error t i ≠ None) as H%nth_error_Some by congruence. lia.
Qed.

Lemma rounds_complete (r : regex) (i k : nat) :
  (∀ a b, matches t r a b → In b (ends r t a)) →
  matches t (Star r) i k →
  ∀ fuel, (length t - i ≤ fuel)%nat → In k (rounds (ends r t) fuel i).
Proof.
  intros Hstep H. remember (Star r) as s eqn:Hs.
  induction H as [r' i d Htest | | | | | | | r' i | r' i j k H1 _ H2 IH | | |];
    try discriminate; intros fuel Hfuel.
  - subst. discriminate.
  - apply rounds_head.
  - injection Hs as ->. specialize (IH eq_refl).
    destruct (matches_bounds _ _ _ H1) as [Hle Hin].
    destruct (decide (i = j)) as [<- | Hne]; [by apply IH |].
    assert (i < j)%nat as Hlt by lia. specialize (Hin Hlt).
    destruct fuel as [|fuel]; [lia |]. cbn [rounds In]. right.
    apply in_flat_map. exists j. split; [by apply Hstep |].
    apply Nat.ltb_lt in Hlt as ->. apply IH. lia.
Qed.

(** Every end of a match is returned by [ends]. *)
Lemma ends_complete (r : regex) (i j : nat) :
  matches t r i j → In j (ends r t i).
Proof.
  revert i j.
  induction r as [c | | | | | cs | | | | r1 IH1 r2 IH2 | r1 IH1 r2 IH2
                 | r IH | r IH | r IH]; intros i j H; cbn [ends].
  1-6: inversion H as [r' i' d _ Hd Hacc | | | | | | | | | | |]; subst;
       rewrite Hd, Hacc; by left.
  - inversion H as [? ? ? Ht | ? He | | | | | | | | | |]; subst;
      [discriminate | rewrite He; by left].
  - inversion H as [? ? ? Ht | | ? Hb | | | | | | | | |]; subst;
      [discriminate | rewrite Hb; by left].
  - inversion H as [? ? ? Ht | | | | | | | | | | |]; subst;
      [discriminate | by left].
  - inversion H as [? ? ? Ht | | | | ? ? ? m ? Ha Hb | | | | | | |]; subst;
      [discriminate |].
    apply in_flat_map. exists m. split; [by apply IH1 | by apply IH2].
  - apply in_or_app.
    inversion H as [? ? ? Ht | | | | | ? ? ? ? Ha | ? ? ? ? Hb | | | | |];
      subst; [discriminate | left; by apply IH1 | right; by apply IH2].
  - apply (rounds_complete r); [exact IH | exact H | lia].
  - inversion H as [? ? ? Ht | | | | | | | | | ? ? m ? Ha Hb | |]; subst;
      [discriminate |].
    apply in_flat_map. exists m. split; [by apply IH |].
    apply (rounds_complete r); [exact IH | exact Hb | lia].
  - inversion H as [? ? ? Ht | | | | | | | | | | | ? ? ? Ha]; subst;
      [discriminate | by left | right; by apply IH].
Qed.

End ReFacts.

(** [search] finds a match exactly when the pattern matches somewhere in
    the text. *)
Lemma search_spec (r : Re.regex) (s : string) :
  Re.search r s = true
  ↔ ∃ i j, (i ≤ length (Text.chars s))%nat ∧ Re.matches (Text.chars s) r i j.
Proof.
  unfold Re.search. cbn zeta. rewrite existsb_exists. split.
  - intros (i & Hi & Hm). apply in_seq in Hi. unfold Re.matches_at in Hm.
    destruct (Re.ends r (Text.chars s) i) as [|j l] eqn:He; [done |].
    exists i, j. split; [lia |]. apply ends_sound. rewrite He. by left.
  - intros (i & j & Hi & Hm). exists i. split; [apply in_seq; lia |].
    apply ends_complete in Hm. unfold Re.matches_at.
    by destruct (Re.ends r (Text.chars s) i).
Qed.

(** ** The risk assessor *)

Section RiskFacts.
Import ResourceClassifier ActionClassifier RiskAssessor.

Lemma risk_level_low (score : Q) :
  _calculate_risk_level score = LOW ↔ (score < 3)%Q.
Proof.
  unfold _calculate_risk_level, LOW_THRESHOLD, MEDIUM_THRESHOLD.
  destruct (Qlt_le_dec score 3) as [Hlt | Hge]; [done |].
  split.
  - destruct (Qle_bool score 8); discriminate.
  - intros Hlt. exfalso. by apply (Qle_not_lt _ _ Hge).
Qed.

Lemma risk_level_medium (score : Q) :
  _calculate_risk_level score = MEDIUM ↔ (3 <= score ∧ score <= 8)%Q.
Proof.
  unfold _calculate_risk_level, LOW_THRESHOLD, MEDIUM_THRESHOLD.
  destruct (Qlt_le_dec score 3) as [Hlt | Hge].
  - split; [discriminate |].
    intros [Hge _]. exfalso. by apply (Qle_not_lt _ _ Hge).
  - destruct (Qle_bool score 8) eqn:Hle.
    + apply Qle_bool_iff in Hle. done.
    + split; [discriminate |].
      intros [_ Hle']. apply Qle_bool_iff in Hle'. congruence.
Qed.

Lemma risk_level_high (score : Q) :
  _calculate_risk_level score = HIGH ↔ (8 < score)%Q.
Proof.
  unfold _calculate_risk_level, LOW_THRESHOLD, MEDIUM_THRESHOLD.
  destruct (Qlt_le_dec score 3) as [Hlt | Hge].
  - split; [discriminate |].
    intros H8. exfalso. apply (Qlt_irrefl score).
    apply Qlt_trans with 3%Q; [done |].
    apply Qlt_trans with 8%Q; [reflexivity | done].
  - destruct (Qle_bool score 8) eqn:Hle.
    + apply Qle_bool_iff in Hle. split; [discriminate |].
      intros H8. exfalso. by apply (Qle_not_lt _ _ Hle).
    + split; [| done]. intros _. apply Qnot_le_lt. intros Hle'.
      apply Qle_bool_iff in Hle'. congruence.
Qed.

(** What [assess] returns, field by field. *)
Lemma assess_returns (operation description context : string) (w : World) :
  ∃ a w',
    assess operation description context w = (Ok a, w')
    ∧ Assessment.operation a = operation
    ∧ Assessment.resource_type a
      = ResourceClassifier.value (fst (classify operation context))
    ∧ Assessment.action_type a
      = action_value (fst (classify_action operation))
    ∧ Assessment.scope a
      = scope_value (fst (classify_scope operation context))
    ∧ Assessment.risk_score a
      = (snd (classify operation context)
         * snd (classify_action operation)
         * snd (classify_scope operation context))%Q
    ∧ Assessment.risk_level a
      = _calculate_risk_level (Assessment.risk_score a).
Proof.
  unfold assess.
  destruct (classify operation context) as [r rs].
  destruct (classify_action operation) as [a am].
  destruct (classify_scope operation context) as [s sm].
  cbn. eexists _, _. split; [reflexivity |]. cbn. done.
Qed.

End RiskFacts.

(** C1. For every operation, description and context, [assess] returns an
    Assessment whose risk score is the resource base score times the action
    multiplier times the scope multiplier, as the three classifiers give
    them on that input, and whose risk level is LOW exactly when the score
    is below 3, MEDIUM exactly when it lies between 3 and 8 inclusive, and
    HIGH exactly when it exceeds 8. *)
Theorem assess_score_is_product_and_level_by_thresholds
    (operation description context : string) (w : World) :
  ∃ a w',
    RiskAssessor.assess operation description context w = (Ok a, w')
    ∧ Assessment.risk_score a
      = (snd (ResourceClassifier.classify operation context)
         * snd (ActionClassifier.classify_action operation)
         * snd (ActionClassifier.classify_scope operation context))%Q
    ∧ (Assessment.risk_level a = LOW ↔ (Assessment.risk_score a < 3)%Q)
    ∧ (Assessment.risk_level a = MEDIUM
       ↔ (3 <= Assessment.risk_score a ∧ Assessment.risk_score a <= 8)%Q)
    ∧ (Assessment.risk_level a = HIGH ↔ (8 < Assessment.risk_score a)%Q).
Proof.
  destruct (assess_returns operation description context w)
    as (a & w' & Hrun & _ & _ & _ & _ & Hscore & Hlevel).
  exists a, w'. rewrite Hlevel.
  split; [done |]. split; [done |].
  split; [apply risk_level_low |].
  split; [apply risk_level_medium | apply risk_level_high].
Qed.

(** ** The classifiers *)

Section ClassifierFacts.
Import Text Re Patterns ResourceClassifier ActionClassifier.

Lemma matches_any_pattern_spec (text : string) (patterns : list regex) :
  matches_any_pattern text patterns = true
  ↔ ∃ p, In p patterns ∧ search p text = true.
Proof. unfold matches_any_pattern. apply existsb_exists. Qed.

End ClassifierFacts.

(** C2, as the specification states it, fails: the operation
    "delete all records from user_sessions table" with empty context is not
    classified DATABASE with base score 4, and is not scored 20.0 / HIGH. *)
Lemma delete_all_records_not_database_high :
  ¬ (ResourceClassifier.classify delete_all_records ""
       = (ResourceClassifier.DATABASE, 4%Q)
     ∧ ActionClassifier.classify_action delete_all_records
       = (ActionClassifier.DELETE, 5 # 2)
     ∧ ActionClassifier.classify_scope delete_all_records ""
       = (ActionClassifier.COLLECTION, 2%Q)
     ∧ ∃ a w',
         RiskAssessor.assess delete_all_records "" "" Lifecycle.boot
           = (Ok a, w')
         ∧ (Assessment.risk_score a == 20)%Q
         ∧ Assessment.risk_level a = HIGH).
Proof.
  intros [Hres _]. vm_compute in Hres. discriminate.
Qed.

(** C2, amended. For the operation "delete all records from user_sessions
    table" with empty context, no database pattern matches (DELETE is not
    followed by FROM) and the word "delete" makes it a file operation:
    the resource is LOCAL_FILE with base score 1, the action is DELETE with
    multiplier 2.5, the scope is COLLECTION with multiplier 2.0, the risk
    score is 5.0 and the risk level is MEDIUM. *)
Theorem delete_all_records_is_local_file_medium
    (description : string) (w : World) :
  Patterns.matches_any_pattern delete_all_records Patterns.DATABASE_PATTERNS
    = false
  ∧ ResourceClassifier.classify delete_all_records ""
    = (ResourceClassifier.LOCAL_FILE, 1%Q)
  ∧ ActionClassifier.classify_action delete_all_records
    = (ActionClassifier.DELETE, 5 # 2)
  ∧ ActionClassifier.classify_scope delete_all_records ""
    = (ActionClassifier.COLLECTION, 2%Q)
  ∧ ∃ a w',
      RiskAssessor.assess delete_all_records description "" w = (Ok a, w')
      ∧ Assessment.resource_type a = "local_file"
      ∧ Assessment.action_type a = "delete"
      ∧ Assessment.scope a = "collection"
      ∧ (Assessment.risk_score a == 5)%Q
      ∧ Assessment.risk_level a = MEDIUM.
Proof.
  assert (Hr : ResourceClassifier.classify delete_all_records ""
               = (ResourceClassifier.LOCAL_FILE, 1%Q))
    by (vm_compute; reflexivity).
  assert (Ha : ActionClassifier.classify_action delete_all_records
               = (ActionClassifier.DELETE, 5 # 2))
    by (vm_compute; reflexivity).
  assert (Hs : ActionClassifier.classify_scope delete_all_records ""
               = (ActionClassifier.COLLECTION, 2%Q))
    by (vm_compute; reflexivity).
  split; [vm_compute; reflexivity |].
  do 3 (split; [done |]).
  destruct (assess_returns delete_all_records description "" w)
    as (a & w' & Hrun & _ & Hrt & Hat & Hsc & Hscore & Hlevel).
  exists a, w'. rewrite Hr in Hrt, Hscore. rewrite Ha in Hat, Hscore.
  rewrite Hs in Hsc, Hscore. cbn in Hrt, Hat, Hsc, Hscore.
  rewrite Hlevel, Hscore.
  split; [exact Hrun |]. do 3 (split; [assumption |]).
  split; vm_compute; reflexivity.
Qed.

(** C7. Whenever the combined text of operation and context matches at
    least one system-command pattern, [classify] returns SYSTEM_COMMAND with
    base score 5, whatever else the text matches. In general the first
    match in strictly descending order of risk wins: the categories are
    tried in the order system command, database, sensitive file, external
    API, local file, memory, whose base scores strictly decrease;
    [classify] returns the one category, with its base score, whose test
    succeeds on the combined text while the test of every category before
    it fails. *)
Theorem system_command_match_wins (operation context : string) :
  let combined :=
    Text.strip (ResourceClassifier.combine operation context) in
  ((∃ p, In p Patterns.SYSTEM_COMMAND_PATTERNS
         ∧ Re.search p combined = true) →
   ResourceClassifier.classify operation context
   = (ResourceClassifier.SYSTEM_COMMAND, 5%Q))
  ∧ (∃ before r after,
       ResourceSpec.risk_order = before ++ r :: after
       ∧ ResourceClassifier.classify operation context
         = (r, ResourceClassifier.RESOURCE_RISK_SCORES r)
       ∧ ResourceSpec.category_test r combined = true
       ∧ ∀ r', In r' before →
               ResourceSpec.category_test r' combined = false)
  ∧ StronglySorted
      (fun r r' =>
         (ResourceClassifier.RESOURCE_RISK_SCORES r'
          < ResourceClassifier.RESOURCE_RISK_SCORES r)%Q)
      ResourceSpec.risk_order
  ∧ (∀ r, In r ResourceSpec.risk_order).
Proof.
  cbn zeta. split; [| split; [| split]].
  - intros H. apply matches_any_pattern_spec in H.
    unfold ResourceClassifier.classify. by rewrite H.
  - unfold ResourceClassifier.classify, ResourceSpec.risk_order.
    generalize (Text.strip (ResourceClassifier.combine operation context)).
    intros combined.
    destruct (Patterns.matches_any_pattern combined
                Patterns.SYSTEM_COMMAND_PATTERNS) eqn:Hsys.
    { exists [], ResourceClassifier.SYSTEM_COMMAND. eexists.
      split; [reflexivity |]. split; [reflexivity |].
      split; [exact Hsys | intros r' []]. }
    destruct (Patterns.matches_any_pattern combined
                Patterns.DATABASE_PATTERNS) eqn:Hdb.
    { exists [ResourceClassifier.SYSTEM_COMMAND],
             ResourceClassifier.DATABASE. eexists.
      split; [reflexivity |]. split; [reflexivity |].
      split; [exact Hdb |].
      intros r' [<- | []]. exact Hsys. }
    destruct (Patterns.matches_any_pattern combined
                Patterns.SENSITIVE_FILE_PATTERNS) eqn:Hsens.
    { exists [ResourceClassifier.SYSTEM_COMMAND; ResourceClassifier.DATABASE],
             ResourceClassifier.SENSITIVE_FILE. eexists.
      split; [reflexivity |]. split; [reflexivity |].
      split; [exact Hsens |].
      intros r' [<- | [<- | []]]; [exact Hsys | exact Hdb]. }
    destruct (Patterns.matches_any_pattern combined Patterns.API_PATTERNS)
      eqn:Hapi.
    { exists [ResourceClassifier.SYSTEM_COMMAND; ResourceClassifier.DATABASE;
              ResourceClassifier.SENSITIVE_FILE],
             ResourceClassifier.EXTERNAL_API. eexists.
      split; [reflexivity |]. split; [reflexivity |].
      split; [exact Hapi |].
      intros r' [<- | [<- | [<- | []]]];
        [exact Hsys | exact Hdb | exact Hsens]. }
    destruct (ResourceClassifier._is_file_operation combined) eqn:Hfile.
    { exists [ResourceClassifier.SYSTEM_COMMAND; ResourceClassifier.DATABASE;
              ResourceClassifier.SENSITIVE_FILE;
              ResourceClassifier.EXTERNAL_API],
             ResourceClassifier.LOCAL_FILE. eexists.
      split; [reflexivity |]. split; [reflexivity |].
      split; [exact Hfile |].
      intros r' [<- | [<- | [<- | [<- | []]]]];
        [exact Hsys | exact Hdb | exact Hsens | exact Hapi]. }
    exists [ResourceClassifier.SYSTEM_COMMAND; ResourceClassifier.DATABASE;
            ResourceClassifier.SENSITIVE_FILE;
            ResourceClassifier.EXTERNAL_API; ResourceClassifier.LOCAL_FILE],
           ResourceClassifier.MEMORY, [].
    split; [reflexivity |]. split; [reflexivity |].
    split; [reflexivity |].
    intros r' [<- | [<- | [<- | [<- | [<- | []]]]]];
      [exact Hsys | exact Hdb | exact Hsens | exact Hapi | exact Hfile].
  - unfold ResourceSpec.risk_order.
    repeat (apply SSorted_cons;
            [| repeat (apply List.Forall_cons; [reflexivity |]);
               apply List.Forall_nil]).
    apply SSorted_nil.
  - intros r. unfold ResourceSpec.risk_order. destruct r; cbn; tauto.
Qed.

(** A text that matches a system-command pattern, a database pattern and
    the file heuristic at once is a system command; a text that looks like
    both a file path and a database statement, and like no system command,
    is a database operation. *)
Lemma system_command_match_wins_witness :
  let operation := "sudo rm -rf /var/lib/app/data.db" in
  let statement := "SELECT name FROM users INTO OUTFILE /tmp/users.csv" in
  (Patterns.matches_any_pattern operation Patterns.DATABASE_PATTERNS = true
   ∧ ResourceClassifier._is_file_operation operation = true
   ∧ ResourceClassifier.classify operation ""
     = (ResourceClassifier.SYSTEM_COMMAND, 5%Q))
  ∧ (ResourceClassifier._is_file_operation statement = true
     ∧ ∃ before after,
         ResourceSpec.risk_order
         = before ++ ResourceClassifier.DATABASE :: after
         ∧ ResourceClassifier.classify statement ""
           = (ResourceClassifier.DATABASE, 4%Q)).
Proof.
  cbn zeta. split.
  - split; [vm_compute; reflexivity |].
    split; [vm_compute; reflexivity |].
    refine (proj1 (system_command_match_wins
                     "sudo rm -rf /var/lib/app/data.db" "") _).
    exists (Patterns.whole_word "sudo").
    split; [do 5 right; left; reflexivity | vm_compute; reflexivity].
  - split; [vm_compute; reflexivity |].
    destruct (proj1 (proj2 (system_command_match_wins
                "SELECT name FROM users INTO OUTFILE /tmp/users.csv" "")))
      as (before & r & after & Horder & Hrun & _ & _).
    pose proof (f_equal fst Hrun) as Hfst. cbn [fst] in Hfst.
    assert (Hr : r = ResourceClassifier.DATABASE).
    { rewrite <- Hfst. vm_compute. reflexivity. }
    clear Hfst. subst r. exists before, after.
    split; [exact Horder | exact Hrun].
Defined.

(** C8. Every operation text that matches a read-only pattern is classified
    READ with multiplier 0.5, whatever keywords it contains; in particular
    "cat config.yaml" is classified READ. *)
Theorem read_only_pattern_short_circuits :
  (∀ operation : string,
     (∃ p, In p Patterns.READ_ONLY_PATTERNS ∧ Re.search p operation = true) →
     ActionClassifier.classify_action operation
     = (ActionClassifier.READ, 1 # 2))
  ∧ ActionClassifier.classify_action "cat config.yaml"
    = (ActionClassifier.READ, 1 # 2).
Proof.
  assert (H : ∀ operation : string,
     (∃ p, In p Patterns.READ_ONLY_PATTERNS ∧ Re.search p operation = true) →
     ActionClassifier.classify_action operation
     = (ActionClassifier.READ, 1 # 2)).
  { intros operation Hm. apply matches_any_pattern_spec in Hm.
    unfold ActionClassifier.classify_action. by rewrite Hm. }
  split; [exact H |].
  apply H. exists (Patterns.verb_then_space "cat").
  split; [left; reflexivity | vm_compute; reflexivity].
Qed.

(** "cat deploy_script.sh" contains the execute keywords "deploy" and
    "script", and is READ all the same. *)
Lemma read_only_pattern_short_circuits_witness :
  let operation := "cat deploy_script.sh" in
  Text.contains_any ActionClassifier.EXECUTE_KEYWORDS (Text.lower operation)
    = true
  ∧ ActionClassifier.classify_action operation
    = (ActionClassifier.READ, 1 # 2).
Proof.
  split; [vm_compute; reflexivity |].
  apply (proj1 read_only_pattern_short_circuits).
  exists (Patterns.verb_then_space "cat").
  split; [left; reflexivity | vm_compute; reflexivity].
Defined.

(** ** The deviation detector *)

Section DeviationFacts.
Import Text DeviationDetector.

Lemma error_indicators_nonempty (kw : string) :
  In kw error_indicators → kw ≠ "".
Proof.
  unfold error_indicators. cbn.
  intros H. repeat (destruct H as [<- | H]; [discriminate |]). done.
Qed.

Lemma contains_nonempty (kw pre post s : string) :
  kw ≠ "" → lower s = (pre ++ kw ++ post)%string → nonempty s = true.
Proof.
  intros Hkw H. destruct s; [| done].
  cbn in H. destruct pre; [| discriminate].
  destruct kw; [done | discriminate].
Qed.

(** A critical finding decides the severity, wherever it stands in the
    list. *)
Lemma severity_fold_critical (deviations : list Deviation)
    (start : DeviationType) :
  (start = critical ∨ ∃ d, In d deviations ∧ deviation_type d = critical) →
  fold_left
    (fun max_severity deviation =>
       let dev_type := deviation_type deviation in
       if (severity_index max_severity <? severity_index dev_type)%nat
       then dev_type else max_severity)
    deviations start = critical.
Proof.
  revert start. induction deviations as [|d ds IH]; intros start H.
  - destruct H as [-> | [d [[] _]]]. done.
  - cbn [fold_left]. apply IH.
    destruct H as [-> | [d' [[<- | Hin] Hd']]].
    + left. by destruct (deviation_type d).
    + left. rewrite Hd'. by destruct start.
    + right. by exists d'.
Qed.

Lemma calculate_severity_critical (deviations : list Deviation) :
  (∃ d, In d deviations ∧ deviation_type d = critical) →
  _calculate_severity deviations = sev critical.
Proof.
  intros H. unfold _calculate_severity.
  destruct deviations as [|d ds]; [by destruct H as [? [[] _]] |].
  f_equal. apply severity_fold_critical. by right.
Qed.

Lemma operation_deviation_not_critical (planned actual : string)
    (d : Deviation) :
  _check_operation_deviation planned actual = Some d →
  type d = operation_deviation ∧ deviation_type d ≠ critical.
Proof.
  unfold _check_operation_deviation. repeat case_match; try done;
    intros [= <-]; done.
Qed.

Lemma outcome_deviation_kind (expected actual : string) (d : Deviation) :
  _check_outcome_deviation expected actual = Some d →
  type d = outcome_deviation.
Proof.
  unfold _check_outcome_deviation. repeat case_match; try done;
    intros [= <-]; done.
Qed.

End DeviationFacts.

(** C3, as the specification states it, fails: when the step has an empty
    expected outcome, an actual outcome that contains "error" yields
    severity "none". *)
Lemma error_outcome_without_expectation_not_critical :
  ¬ ((∃ kw, In kw DeviationDetector.error_indicators
            ∧ Text.contains kw (Text.lower "error: disk full") = true) →
     DeviationDetector.severity
       (DeviationDetector.detect step_without_expectation
          "DELETE FROM user_sessions" "error: disk full")
     = DeviationDetector.sev DeviationDetector.critical).
Proof.
  intros H.
  assert (Hkw : ∃ kw, In kw DeviationDetector.error_indicators
                      ∧ Text.contains kw (Text.lower "error: disk full")
                        = true).
  { exists "error". split; [left; reflexivity | vm_compute; reflexivity]. }
  specialize (H Hkw). vm_compute in H. discriminate.
Qed.

(** C3, amended. For every step whose expected outcome is not empty and
    every actual operation: if the actual outcome, in lower case, contains
    one of the error-indicator keywords, [detect] reports a deviation of
    severity "critical", whatever the similarity of the operations and
    whatever the (non-empty) expected outcome says. For every step whose
    expected outcome is empty, the outcome check is skipped and produces no
    finding, whatever the actual outcome: the report holds the finding of
    the operation check and nothing else, no finding in it is an outcome
    finding, and its severity is not "critical". *)
Theorem error_outcome_is_critical (step : PlanStep.t)
    (actual_operation actual_outcome : string) :
  (PlanStep.expected_outcome step ≠ "" →
   (∃ kw, In kw DeviationDetector.error_indicators
          ∧ ∃ pre post : string,
              Text.lower actual_outcome = (pre ++ kw ++ post)%string) →
   DeviationDetector.severity
     (DeviationDetector.detect step actual_operation actual_outcome)
   = DeviationDetector.sev DeviationDetector.critical
   ∧ DeviationDetector.has_deviation
       (DeviationDetector.detect step actual_operation actual_outcome)
     = true)
  ∧ (PlanStep.expected_outcome step = "" →
     DeviationDetector._check_outcome_deviation
       (PlanStep.expected_outcome step) actual_outcome = None
     ∧ DeviationDetector.deviations
         (DeviationDetector.detect step actual_operation actual_outcome)
       = DeviationDetector.to_list
           (DeviationDetector._check_operation_deviation
              (PlanStep.operation step) actual_operation)
     ∧ (∀ d,
          In d (DeviationDetector.deviations
                  (DeviationDetector.detect step actual_operation
                     actual_outcome)) →
          DeviationDetector.type d = DeviationDetector.operation_deviation)
     ∧ DeviationDetector.severity
         (DeviationDetector.detect step actual_operation actual_outcome)
       ≠ DeviationDetector.sev DeviationDetector.critical).
Proof.
  split.
  - intros Hexp Herr.
    assert (Hact : Text.nonempty actual_outcome = true).
    { destruct Herr as (kw & Hin & pre & post & Heq).
      eapply contains_nonempty; [| exact Heq].
      by apply error_indicators_nonempty. }
    apply contains_any_spec in Herr.
    assert (Hout : ∃ d,
      DeviationDetector._check_outcome_deviation
        (PlanStep.expected_outcome step) actual_outcome = Some d
      ∧ DeviationDetector.deviation_type d = DeviationDetector.critical).
    { unfold DeviationDetector._check_outcome_deviation.
      destruct (PlanStep.expected_outcome step) as [|c e]; [done |].
      cbn [Text.nonempty negb orb]. rewrite Hact. cbn [negb].
      rewrite Herr. eexists. split; reflexivity. }
    destruct Hout as (d & Hd & Hcrit).
    unfold DeviationDetector.detect. cbn [DeviationDetector.severity
      DeviationDetector.has_deviation]. rewrite Hd.
    split.
    + apply calculate_severity_critical. exists d. split; [| done].
      apply in_or_app. right. by left.
    + destruct (DeviationDetector._check_operation_deviation _ _); done.
  - intros Hexp.
    assert (Hout : DeviationDetector._check_outcome_deviation
                     (PlanStep.expected_outcome step) actual_outcome = None).
    { rewrite Hexp. reflexivity. }
    split; [exact Hout |].
    unfold DeviationDetector.detect.
    cbn [DeviationDetector.deviations DeviationDetector.severity].
    rewrite Hout. cbn [DeviationDetector.to_list]. rewrite app_nil_r.
    split; [reflexivity |].
    destruct (DeviationDetector._check_operation_deviation
                (PlanStep.operation step) actual_operation) as [d0 |] eqn:Hop.
    + destruct (operation_deviation_not_critical _ _ _ Hop)
        as [Hkind Hnot].
      cbn [DeviationDetector.to_list]. split.
      * intros d [<- | []]. exact Hkind.
      * unfold DeviationDetector._calculate_severity. cbn [fold_left].
        destruct (DeviationDetector.deviation_type d0);
          [discriminate | discriminate | by destruct Hnot].
    + cbn [DeviationDetector.to_list]. split; [intros d [] | discriminate].
Qed.

(** A step that expects "Rows deleted" and gets a permission error is a
    critical deviation; the same error on the step that expects nothing
    leaves no finding at all. *)
Lemma error_outcome_is_critical_witness :
  let step :=
    PlanStep.mk "step-1" 1 "Remove stale sessions"
      "DELETE FROM user_sessions" "Rows deleted" None EXECUTING None None
      None in
  (DeviationDetector.severity
     (DeviationDetector.detect step "DELETE FROM user_sessions"
        "Permission DENIED for table user_sessions")
   = DeviationDetector.sev DeviationDetector.critical
   ∧ DeviationDetector.has_deviation
       (DeviationDetector.detect step "DELETE FROM user_sessions"
          "Permission DENIED for table user_sessions")
     = true)
  ∧ (DeviationDetector.deviations
       (DeviationDetector.detect step_without_expectation
          "DELETE FROM user_sessions"
          "Permission DENIED for table user_sessions")
     = []
     ∧ DeviationDetector.severity
         (DeviationDetector.detect step_without_expectation
            "DELETE FROM user_sessions"
            "Permission DENIED for table user_sessions")
       ≠ DeviationDetector.sev DeviationDetector.critical).
Proof.
  cbn zeta. split.
  - refine (proj1 (error_outcome_is_critical _ _ _) _ _); [discriminate |].
    exists "denied". split; [do 4 right; left; reflexivity |].
    exists "permission ", " for table user_sessions". vm_compute.
    reflexivity.
  - destruct (proj2 (error_outcome_is_critical step_without_expectation
                       "DELETE FROM user_sessions"
                       "Permission DENIED for table user_sessions")
                eq_refl)
      as (_ & Hdevs & _ & Hsev).
    split; [| exact Hsev].
    rewrite Hdevs. vm_compute. reflexivity.
Defined.

(** ** The plan controller *)

Section PlanFacts.
Import SessionManager Session PlanController Lifecycle AbortSpec.

(** [find_step] returns the first step that carries the id. *)
Lemma find_step_first (sid : string) (steps : list PlanStep.t) (i : nat)
    (step : PlanStep.t) :
  steps !! i = Some step →
  PlanStep.id step = sid →
  (∀ j s, j < i → steps !! j = Some s → PlanStep.id s ≠ sid) →
  find_step sid steps = Some (i, step).
Proof.
  revert i. induction steps as [|x steps IH]; intros i Hi Hid Hfirst.
  - done.
  - cbn [find_step]. destruct i as [|i].
    + cbn in Hi. injection Hi as ->. rewrite <- Hid.
      by rewrite String.eqb_refl.
    + destruct (String.eqb_spec (PlanStep.id x) sid) as [Heq | Hne].
      * exfalso. apply (Hfirst 0 x); [lia | done | done].
      * rewrite (IH i); [done | done | done |].
        intros j s Hj Hs. apply (Hfirst (S j) s); [lia | done].
Qed.

Lemma find_step_lookup (sid : string) (steps : list PlanStep.t) (i : nat)
    (step : PlanStep.t) :
  find_step sid steps = Some (i, step) →
  steps !! i = Some step ∧ PlanStep.id step = sid.
Proof.
  revert i. induction steps as [|x steps IH]; intros i; [done |].
  cbn [find_step].
  destruct (String.eqb_spec (PlanStep.id x) sid) as [Heq | Hne].
  - intros [= <- <-]. done.
  - destruct (find_step sid steps) as [[j s] |]; [| done].
    intros [= <- <-]. by apply IH.
Qed.

(** The append loop of [abort_plan] keeps the wanted steps in order. *)
Lemma collect_suggestions (steps : list PlanStep.t)
    (acc : list Suggestion) :
  fold_left collect_suggestion steps acc
  = acc ++ map suggestion_of (List.filter wants_rollback steps).
Proof.
  revert acc. induction steps as [|s steps IH]; intros acc.
  - cbn. by rewrite app_nil_r.
  - cbn [fold_left List.filter]. rewrite IH.
    unfold collect_suggestion at 1. unfold wants_rollback at 2.
    destruct (PlanStep.status s) eqn:Hst;
      try (rewrite bool_decide_eq_false_2 by done; done).
    rewrite bool_decide_eq_true_2 by done. cbn [andb].
    destruct (PlanStep.rollback_action s) as [action |] eqn:Hrb; [| done].
    destruct (Text.nonempty action); [| done].
    cbn [map]. unfold suggestion_of at 2. rewrite Hrb. cbn [default].
    by rewrite <- app_assoc.
Qed.

Lemma count_status_from (status : StepStatus) (steps : list PlanStep.t)
    (n : nat) :
  fold_left
    (fun n s => if decide (PlanStep.status s = status) then S n else n)
    steps n
  = n + length (List.filter (has_status status) steps).
Proof.
  revert n. induction steps as [|s steps IH]; intros n; cbn; [lia |].
  rewrite IH. unfold has_status at 2.
  destruct (decide (PlanStep.status s = status)) as [H | H].
  - rewrite bool_decide_eq_true_2 by done. cbn. lia.
  - rewrite bool_decide_eq_false_2 by done. done.
Qed.

Lemma count_status_length (status : StepStatus) (steps : list PlanStep.t) :
  count_status status steps
  = length (List.filter (has_status status) steps).
Proof. unfold count_status. by rewrite count_status_from. Qed.

Lemma skip_remaining_lookup (steps : list PlanStep.t) (i : nat)
    (s : PlanStep.t) :
  steps !! i = Some s →
  (PlanStep.status s = PENDING ∨ PlanStep.status s = APPROVED →
     map skip_remaining steps !! i = Some (PlanStep.set_status SKIPPED s))
  ∧ (PlanStep.status s ≠ PENDING → PlanStep.status s ≠ APPROVED →
     map skip_remaining steps !! i = Some s).
Proof.
  intros Hi. rewrite list_lookup_fmap, Hi. cbn. unfold skip_remaining.
  split.
  - intros [-> | ->]; done.
  - intros H1 H2. destruct (PlanStep.status s); done.
Qed.

End PlanFacts.

(** C6. For every stored plan and every step of it (the first one that
    carries its id), whatever the state of the plan: [fail_step] sets the
    status of that step to failed and records the error text, leaves the
    other steps as they are, and sets the status of the plan to failed. *)
Theorem fail_step_fails_the_plan (w : World) (pid sid err : string)
    (plan : Plan.t) (i : nat) (step : PlanStep.t) :
  Lifecycle.plan_of w pid = Some plan →
  Plan.steps plan !! i = Some step →
  PlanStep.id step = sid →
  (∀ j s, j < i → Plan.steps plan !! j = Some s → PlanStep.id s ≠ sid) →
  ∃ step' plan' w',
    PlanController.fail_step pid sid err w = (Ok (Some step'), w')
    ∧ PlanStep.id step' = sid
    ∧ PlanStep.status step' = FAILED
    ∧ PlanStep.error step' = Some err
    ∧ Lifecycle.plan_of w' pid = Some plan'
    ∧ Plan.status plan' = PLAN_FAILED
    ∧ Plan.steps plan' = <[i := step']> (Plan.steps plan).
Proof.
  intros Hplan Hi Hid Hfirst. unfold Lifecycle.plan_of in *.
  pose proof (find_step_first _ _ _ _ Hi Hid Hfirst) as Hfind.
  unfold PlanController.fail_step, Session.update_step_status.
  run_monad.
  repeat (first [rewrite Hplan | rewrite Hfind | rewrite lookup_insert_eq];
          cbn).
  eexists _, _, _. split; [reflexivity |]. cbn.
  rewrite lookup_insert_eq. done.
Qed.

(** A fresh plan of four pending steps fails as a whole when its second
    step fails; the other three steps are still pending. *)
Lemma fail_step_fails_the_plan_witness :
  ∃ plan step,
    Lifecycle.plan_of four_steps "id-4" = Some plan
    ∧ Plan.steps plan !! 1 = Some step
    ∧ map PlanStep.status (Plan.steps plan)
      = [PENDING; PENDING; PENDING; PENDING]
    ∧ ∃ step' plan' w',
        PlanController.fail_step "id-4" "id-1" "disk full" four_steps
          = (Ok (Some step'), w')
        ∧ PlanStep.id step' = "id-1"
        ∧ PlanStep.status step' = FAILED
        ∧ PlanStep.error step' = Some "disk full"
        ∧ Lifecycle.plan_of w' "id-4" = Some plan'
        ∧ Plan.status plan' = PLAN_FAILED
        ∧ Plan.steps plan' = <[1 := step']> (Plan.steps plan).
Proof.
  eexists _, _.
  split; [vm_compute; reflexivity |].
  split; [vm_compute; reflexivity |].
  split; [vm_compute; reflexivity |].
  eapply (fail_step_fails_the_plan _ _ _ _ _ 1).
  - vm_compute; reflexivity.
  - vm_compute; reflexivity.
  - vm_compute; reflexivity.
  - intros j s Hj Hs. assert (j = 0) as -> by lia.
    vm_compute in Hs. injection Hs as <-. discriminate.
Defined.

(** C10. [approve_plan] checks no plan status: for every stored plan,
    whatever its status, it records a positive Approval for the plan, sets
    the status of the plan to in_progress and the status of every step to
    approved; nothing else of the steps changes and the completion
    timestamp stays as it was. *)
Theorem approve_plan_has_no_status_precondition (w : World) (pid : string)
    (plan : Plan.t) (reason : option string) :
  Lifecycle.plan_of w pid = Some plan →
  ∃ plan' approval w',
    PlanController.approve_plan pid reason w
      = (Ok (Some plan', Some approval), w')
    ∧ Approval.approved approval = true
    ∧ Approval.target_type approval = "plan"
    ∧ Approval.target_id approval = pid
    ∧ SessionManager.approvals (session w') !! Approval.id approval
      = Some approval
    ∧ Lifecycle.plan_of w' pid = Some plan'
    ∧ Plan.status plan' = IN_PROGRESS
    ∧ Plan.completed_at plan' = Plan.completed_at plan
    ∧ Plan.steps plan' = map (PlanStep.set_status APPROVED) (Plan.steps plan)
    ∧ Forall (fun s => PlanStep.status s = APPROVED) (Plan.steps plan').
Proof.
  intros Hplan. unfold Lifecycle.plan_of in *.
  unfold PlanController.approve_plan, PlanController.new_approval.
  run_monad. rewrite Hplan. cbn.
  eexists _, _, _. split; [reflexivity |]. cbn.
  rewrite !lookup_insert_eq.
  repeat (split; [done |]).
  induction (Plan.steps plan) as [|s steps IH]; cbn; by constructor.
Qed.

(** An aborted plan whose steps are completed, denied, failed and skipped
    is put back in progress, all four steps approved. *)
Lemma approve_plan_has_no_status_precondition_witness :
  ∃ plan,
    Lifecycle.plan_of aborted_plan "id-4" = Some plan
    ∧ Plan.status plan = ABORTED
    ∧ map PlanStep.status (Plan.steps plan)
      = [COMPLETED; DENIED; FAILED; SKIPPED]
    ∧ ∃ plan' approval w',
        PlanController.approve_plan "id-4" None aborted_plan
          = (Ok (Some plan', Some approval), w')
        ∧ Approval.approved approval = true
        ∧ Approval.target_type approval = "plan"
        ∧ Approval.target_id approval = "id-4"
        ∧ SessionManager.approvals (session w') !! Approval.id approval
          = Some approval
        ∧ Lifecycle.plan_of w' "id-4" = Some plan'
        ∧ Plan.status plan' = IN_PROGRESS
        ∧ Plan.completed_at plan' = Plan.completed_at plan
        ∧ Plan.steps plan'
          = map (PlanStep.set_status APPROVED) (Plan.steps plan)
        ∧ Forall (fun s => PlanStep.status s = APPROVED) (Plan.steps plan').
Proof.
  eexists.
  split; [vm_compute; reflexivity |].
  split; [vm_compute; reflexivity |].
  split; [vm_compute; reflexivity |].
  apply approve_plan_has_no_status_precondition.
  vm_compute; reflexivity.
Defined.

(** C5. For every stored plan, [abort_plan] returns the rollback
    suggestions of exactly the steps that are completed and carry a
    non-empty rollback action, in the reverse of the step order; it sets the
    steps that were pending or approved to skipped and leaves the other
    steps as they were; it sets the plan to aborted with a completion
    timestamp; and it returns the numbers of completed and of skipped
    steps. *)
Theorem abort_plan_rolls_back_and_skips (w : World) (pid : string)
    (plan : Plan.t) (reason : option string) :
  Lifecycle.plan_of w pid = Some plan →
  ∃ res plan' w',
    PlanController.abort_plan pid reason w = (Ok (Some res), w')
    ∧ PlanController.rollback_suggestions res
      = rev (map AbortSpec.suggestion_of
               (List.filter AbortSpec.wants_rollback (Plan.steps plan)))
    ∧ Lifecycle.plan_of w' pid = Some plan'
    ∧ length (Plan.steps plan') = length (Plan.steps plan)
    ∧ (∀ i s, Plan.steps plan !! i = Some s →
         (PlanStep.status s = PENDING ∨ PlanStep.status s = APPROVED →
            Plan.steps plan' !! i = Some (PlanStep.set_status SKIPPED s))
         ∧ (PlanStep.status s ≠ PENDING → PlanStep.status s ≠ APPROVED →
            Plan.steps plan' !! i = Some s))
    ∧ Plan.status plan' = ABORTED
    ∧ Plan.completed_at plan' = Some (clock w (S (clock_reads w)))
    ∧ PlanController.completed_steps res
      = length (List.filter (AbortSpec.has_status COMPLETED)
                            (Plan.steps plan'))
    ∧ PlanController.skipped_steps res
      = length (List.filter (AbortSpec.has_status SKIPPED)
                            (Plan.steps plan')).
Proof.
  intros Hplan. unfold Lifecycle.plan_of in *.
  unfold PlanController.abort_plan. run_monad. rewrite Hplan. cbn.
  eexists _, _, _. split; [reflexivity |]. cbn.
  rewrite lookup_insert_eq, collect_suggestions, !count_status_from. cbn.
  split; [done |]. split; [done |].
  split; [apply List.length_map |].
  split; [intros i s Hi; by apply skip_remaining_lookup |].
  done.
Qed.

(** The plan of the specification's example: a completed step with a
    rollback action, a completed step without one, and pending steps. The
    only suggestion is the one of the first step. *)
Lemma abort_plan_rolls_back_and_skips_witness :
  ∃ plan,
    Lifecycle.plan_of two_completed "id-4" = Some plan
    ∧ map PlanStep.status (Plan.steps plan)
      = [COMPLETED; PENDING; COMPLETED; PENDING]
    ∧ map PlanStep.rollback_action (Plan.steps plan)
      = [Some "drop backup"; Some "restore"; None; None]
    ∧ ∃ res plan' w',
        PlanController.abort_plan "id-4" None two_completed
          = (Ok (Some res), w')
        ∧ PlanController.rollback_suggestions res
          = rev (map AbortSpec.suggestion_of
                   (List.filter AbortSpec.wants_rollback (Plan.steps plan)))
        ∧ Lifecycle.plan_of w' "id-4" = Some plan'
        ∧ length (Plan.steps plan') = length (Plan.steps plan)
        ∧ (∀ i s, Plan.steps plan !! i = Some s →
             (PlanStep.status s = PENDING ∨ PlanStep.status s = APPROVED →
                Plan.steps plan' !! i
                = Some (PlanStep.set_status SKIPPED s))
             ∧ (PlanStep.status s ≠ PENDING →
                PlanStep.status s ≠ APPROVED →
                Plan.steps plan' !! i = Some s))
        ∧ Plan.status plan' = ABORTED
        ∧ Plan.completed_at plan'
          = Some (clock two_completed (S (clock_reads two_completed)))
        ∧ PlanController.completed_steps res
          = length (List.filter (AbortSpec.has_status COMPLETED)
                                (Plan.steps plan'))
        ∧ PlanController.skipped_steps res
          = length (List.filter (AbortSpec.has_status SKIPPED)
                                (Plan.steps plan')).
Proof.
  eexists.
  split; [vm_compute; reflexivity |].
  split; [vm_compute; reflexivity |].
  split; [vm_compute; reflexivity |].
  apply abort_plan_rolls_back_and_skips.
  vm_compute; reflexivity.
Defined.

(** The run of that example: one suggestion, two completed steps, two
    skipped ones. *)
Example abort_plan_example :
  match PlanController.abort_plan "id-4" None two_completed with
  | (Ok (Some res), w') =>
      map PlanController.step_id (PlanController.rollback_suggestions res)
        = ["id-0"]
      ∧ PlanController.completed_steps res = 2
      ∧ PlanController.skipped_steps res = 2
      ∧ (map PlanStep.status <$> (Plan.steps <$> Lifecycle.plan_of w' "id-4"))
        = Some [COMPLETED; SKIPPED; COMPLETED; SKIPPED]
  | _ => False
  end.
Proof. vm_compute. repeat split. Qed.

(** ** Runs of the plan controller *)

Section LifecycleFacts.
Import SessionManager Session PlanController Lifecycle.

(** Building the steps draws ids and touches nothing else. *)
Lemma build_steps_runs (defs : list StepDef) (i : nat) (w : World) :
  ∃ steps w',
    build_steps i defs w = (Ok steps, w')
    ∧ session w' = session w
    ∧ clock w' = clock w
    ∧ clock_reads w' = clock_reads w
    ∧ Forall (fun s => PlanStep.status s = PENDING) steps.
Proof.
  revert i w. induction defs as [|d defs IH]; intros i w.
  - exists [], w. cbn. done.
  - cbn [build_steps]. run_monad.
    destruct (IH (S i)
                (mkWorld (session w) (audit_entries w) (clock w)
                   (clock_reads w) (uuid_stream w) (S (uuid_draws w))))
      as (steps & w' & Hrun & Hs & Hc & Hr & Hall).
    rewrite Hrun. cbn. eexists _, _. split; [reflexivity |].
    repeat (split; [done |]). by constructor.
Qed.

(** A plan that was just created is stored as a draft, its completion
    timestamp unset and all its steps pending. *)
Lemma create_plan_fresh (name description : string)
    (assessment : Assessment.t) (defs : list StepDef) (w : World) :
  ∃ plan w',
    create_plan name description assessment defs w = (Ok plan, w')
    ∧ plan_of w' (Plan.id plan) = Some plan
    ∧ Plan.status plan = DRAFT
    ∧ Plan.completed_at plan = None
    ∧ Forall (fun s => PlanStep.status s = PENDING) (Plan.steps plan).
Proof.
  unfold create_plan.
  destruct (build_steps_runs defs 0 w) as (steps & w1 & Hrun & _ & _ & _ & H).
  run_monad. rewrite Hrun. cbn. eexists _, _. split; [reflexivity |].
  unfold plan_of. cbn. by rewrite lookup_insert_eq.
Qed.

(** Every call reads the clock forward and rewrites at most one stored
    plan. *)
Lemma run_op_plans (o : Op) (w : World) :
  clock (run_op o w) = clock w
  ∧ (clock_reads w ≤ clock_reads (run_op o w))%nat
  ∧ (plans (session (run_op o w)) = plans (session w)
     ∨ ∃ p plan plan',
         plans (session w) !! p = Some plan
         ∧ plans (session (run_op o w)) = <[p := plan']> (plans (session w))
         ∧ touches w (run_op o w) plan plan').
Proof.
  destruct o as [pid | pid r | pid r | pid sid r | pid sid r | pid sid
                | pid sid r | pid sid e | pid r]; cbn [run_op].
  - unfold submit_for_approval. run_monad.
    destruct (plans (session w) !! pid) as [plan|] eqn:Hp; cbn; [| auto].
    destruct (Plan.status plan) eqn:Hst; cbn; auto.
    split; [done |]. split; [lia |]. right. exists pid, plan. eexists.
    split; [done |]. split; [reflexivity |]. left. cbn. split; [done |].
    right. intros [H | H]; discriminate.
  - unfold approve_plan, new_approval. run_monad.
    destruct (plans (session w) !! pid) as [plan|] eqn:Hp; cbn; [| auto].
    split; [done |]. split; [lia |]. right. exists pid, plan. eexists.
    split; [done |]. split; [reflexivity |]. left. cbn. split; [done |].
    right. intros [H | H]; discriminate.
  - unfold deny_plan, new_approval. run_monad.
    destruct (plans (session w) !! pid) as [plan|] eqn:Hp; cbn; [| auto].
    split; [done |]. split; [lia |]. right. exists pid, plan. eexists.
    split; [done |]. split; [reflexivity |]. right. cbn.
    eexists. split; [| reflexivity].
    exists (S (S (clock_reads w))). cbn. split; [lia | done].
  - unfold approve_step, decide_step, new_approval. run_monad.
    destruct (plans (session w) !! pid) as [plan|] eqn:Hp; cbn; [| auto].
    destruct (find_step sid (Plan.steps plan)) as [[i st]|]; cbn; [| auto].
    split; [done |]. split; [lia |]. right. exists pid, plan. eexists.
    split; [done |]. split; [reflexivity |]. left. cbn. auto.
  - unfold deny_step, decide_step, new_approval. run_monad.
    destruct (plans (session w) !! pid) as [plan|] eqn:Hp; cbn; [| auto].
    destruct (find_step sid (Plan.steps plan)) as [[i st]|]; cbn; [| auto].
    split; [done |]. split; [lia |]. right. exists pid, plan. eexists.
    split; [done |]. split; [reflexivity |]. left. cbn. auto.
  - unfold start_step_execution, update_step_status. run_monad.
    destruct (plans (session w) !! pid) as [plan|] eqn:Hp; cbn; [| auto].
    destruct (find_step sid (Plan.steps plan)) as [[i st]|]; cbn; [| auto].
    split; [done |]. split; [lia |]. right. exists pid, plan. eexists.
    split; [done |]. split; [reflexivity |]. left. cbn. auto.
  - unfold complete_step, update_step_status. run_monad.
    destruct (plans (session w) !! pid) as [plan|] eqn:Hp; cbn; [| auto].
    rewrite Hp. cbn.
    destruct (find_step sid (Plan.steps plan)) as [[i st]|]; cbn; [| auto].
    rewrite lookup_insert_eq. cbn.
    destruct (forallb step_done _); cbn.
    + rewrite insert_insert_eq.
      split; [done |]. split; [lia |]. right. exists pid, plan. eexists.
      split; [done |]. split; [reflexivity |]. right. cbn.
      eexists. split; [| reflexivity].
      exists (S (S (clock_reads w))). cbn. split; [lia | done].
    + split; [done |]. split; [lia |]. right. exists pid, plan. eexists.
      split; [done |]. split; [reflexivity |]. left. cbn. auto.
  - unfold fail_step, update_step_status. run_monad.
    destruct (plans (session w) !! pid) as [plan|] eqn:Hp; cbn; [| auto].
    rewrite Hp. cbn.
    destruct (find_step sid (Plan.steps plan)) as [[i st]|]; cbn; [| auto].
    rewrite lookup_insert_eq. cbn. rewrite insert_insert_eq.
    split; [done |]. split; [lia |]. right. exists pid, plan. eexists.
    split; [done |]. split; [reflexivity |]. left. cbn. split; [done |].
    right. intros [H | H]; discriminate.
  - unfold abort_plan. run_monad.
    destruct (plans (session w) !! pid) as [plan|] eqn:Hp; cbn; [| auto].
    split; [done |]. split; [lia |]. right. exists pid, plan. eexists.
    split; [done |]. split; [reflexivity |]. right. cbn.
    eexists. split; [| reflexivity].
    exists (S (clock_reads w)). cbn. split; [lia | done].
Qed.

(** The effect of one call on the plan stored under a given id. *)
Lemma run_op_plan (o : Op) (w : World) (pid : string) (plan' : Plan.t) :
  plan_of (run_op o w) pid = Some plan' →
  ∃ plan,
    plan_of w pid = Some plan
    ∧ (plan' = plan ∨ touches w (run_op o w) plan plan').
Proof.
  unfold plan_of. intros H'.
  destruct (run_op_plans o w) as (_ & _ & [Hsame | Hone]).
  - rewrite Hsame in H'. exists plan'. auto.
  - destruct Hone as (p & plan & plan1 & Hp & Hmap & Hrel).
    rewrite Hmap in H'. destruct (decide (p = pid)) as [-> | Hne].
    + rewrite lookup_insert_eq in H'. injection H' as <-.
      exists plan. auto.
    + rewrite lookup_insert_ne in H' by done. exists plan'. auto.
Qed.

Lemma run_ops_app (ops1 ops2 : list Op) (w : World) :
  run_ops (ops1 ++ ops2) w = run_ops ops2 (run_ops ops1 w).
Proof. unfold run_ops. apply fold_left_app. Qed.

(** In every state of a run, a plan that is completed or aborted has its
    completion timestamp set, provided this was so at the start. *)
Lemma stamped_invariant (ops : list Op) (w : World) (pid : string) :
  (∀ plan, plan_of w pid = Some plan →
     completed_or_aborted (Plan.status plan) → stamped plan) →
  ∀ plan, plan_of (run_ops ops w) pid = Some plan →
    completed_or_aborted (Plan.status plan) → stamped plan.
Proof.
  revert w. induction ops as [|o ops IH]; intros w Hw; [exact Hw |].
  cbn [run_ops fold_left]. apply IH.
  intros plan' H' Hclosed.
  destruct (run_op_plan o w pid plan' H') as (plan & Hp & [-> | Hrel]).
  - by apply Hw.
  - destruct Hrel as [[Hsame [Hst | Hnot]] | (t & _ & Ht)].
    + unfold stamped. rewrite Hsame. apply Hw; [done |]. by rewrite <- Hst.
    + done.
    + unfold stamped. by rewrite Ht.
Qed.

End LifecycleFacts.

(** C4, as the specification states it, fails: a plan that was denied and
    then approved is in progress, and its completion timestamp is still
    set. *)
Lemma reopened_plan_keeps_completion_time :
  ¬ (∀ plan,
       Lifecycle.plan_of denied_then_approved "id-4" = Some plan →
       Lifecycle.stamped_iff_terminal plan).
Proof.
  intros H.
  destruct (Lifecycle.plan_of denied_then_approved "id-4") as [plan|] eqn:Hp;
    [| vm_compute in Hp; discriminate].
  specialize (H plan eq_refl). vm_compute in Hp. injection Hp as <-.
  destruct H as [H _]. specialize (H (ex_intro _ _ eq_refl)).
  vm_compute in H. discriminate.
Qed.

(** C4, amended. In every state reached from a freshly created plan by
    calls of the nine operations, a plan whose status is completed or
    aborted has a non-null completion timestamp. Every call that moves a
    stored plan into completed or aborted from another status stamps the
    completion timestamp with a reading of the clock taken during the call,
    and no call resets a set completion timestamp to null. The timestamp is
    not written once only: the operations other than submit_for_approval
    check no plan status, so a plan can leave a terminal status with its
    timestamp set and be stamped again. *)
Theorem completed_at_set_on_completion_and_abort :
  (∀ (w0 : World) (name description : string) (assessment : Assessment.t)
     (defs : list PlanController.StepDef) (plan0 : Plan.t) (w1 : World)
     (ops : list Lifecycle.Op) (plan : Plan.t),
     PlanController.create_plan name description assessment defs w0
       = (Ok plan0, w1) →
     Lifecycle.plan_of (Lifecycle.run_ops ops w1) (Plan.id plan0)
       = Some plan →
     Lifecycle.completed_or_aborted (Plan.status plan) →
     Lifecycle.stamped plan)
  ∧ (∀ (w : World) (o : Lifecycle.Op) (pid : string) (plan plan' : Plan.t),
       Lifecycle.plan_of w pid = Some plan →
       Lifecycle.plan_of (Lifecycle.run_op o w) pid = Some plan' →
       (Lifecycle.stamped plan → Lifecycle.stamped plan')
       ∧ (Lifecycle.completed_or_aborted (Plan.status plan') →
          Plan.status plan' ≠ Plan.status plan →
          ∃ t, Lifecycle.read_between w (Lifecycle.run_op o w) t
               ∧ Plan.completed_at plan' = Some t)).
Proof.
  split.
  - intros w0 name description assessment defs plan0 w1 ops plan Hcreate.
    apply stamped_invariant.
    destruct (create_plan_fresh name description assessment defs w0)
      as (p & w' & Hrun & Hstored & Hdraft & _).
    rewrite Hcreate in Hrun. injection Hrun as <- <-.
    intros plan1 H1. rewrite Hstored in H1. injection H1 as <-.
    rewrite Hdraft. intros [H | H]; discriminate.
  - intros w o pid plan plan' Hp H'.
    destruct (run_op_plan o w pid plan' H') as (plan1 & Hp1 & Hrel).
    rewrite Hp in Hp1. injection Hp1 as <-.
    destruct Hrel as [-> | [[Hsame Hst] | (t & Hread & Ht)]].
    + done.
    + split.
      * unfold Lifecycle.stamped. by rewrite Hsame.
      * intros Hclosed Hne. by destruct Hst.
    + split.
      * intros _. unfold Lifecycle.stamped. by rewrite Ht.
      * intros _ _. by exists t.
Qed.

(** The plan that was approved, worked on and aborted carries its
    completion timestamp. *)
Lemma completed_at_set_on_completion_and_abort_witness :
  ∃ plan0 w1 plan,
    PlanController.create_plan "cleanup" "purge stale sessions"
      sample_assessment four_step_defs Lifecycle.boot
    = (Ok plan0, w1)
    ∧ Lifecycle.plan_of (Lifecycle.run_ops abort_after_work w1)
        (Plan.id plan0)
      = Some plan
    ∧ Plan.status plan = ABORTED
    ∧ Lifecycle.stamped plan.
Proof.
  eexists _, _, _.
  split; [vm_compute; reflexivity |].
  split; [vm_compute; reflexivity |].
  split; [reflexivity |].
  refine (proj1 completed_at_set_on_completion_and_abort
            Lifecycle.boot "cleanup" "purge stale sessions" sample_assessment
            four_step_defs _ _ abort_after_work _ _ _ _).
  - vm_compute. reflexivity.
  - vm_compute. reflexivity.
  - right. reflexivity.
Defined.

(** A failed step fails the plan and leaves the completion timestamp
    unset, where [update_plan_status] stamps it for the same status. *)
Example fail_step_leaves_completion_time_unset :
  (Plan.status
     <$> Lifecycle.plan_of
           (Lifecycle.run_op (Lifecycle.FailStep "id-4" "id-1" "disk full")
                             four_steps) "id-4")
    = Some PLAN_FAILED
  ∧ (Plan.completed_at
       <$> Lifecycle.plan_of
             (Lifecycle.run_op (Lifecycle.FailStep "id-4" "id-1" "disk full")
                               four_steps) "id-4")
    = Some None
  ∧ (Plan.completed_at
       <$> Lifecycle.plan_of
             (snd (Session.update_plan_status "id-4" PLAN_FAILED four_steps))
             "id-4")
    = Some (Some 1003%Z).
Proof. vm_compute. done. Qed.

(** A plan that is denied and then aborted is stamped twice. *)
Example abort_after_deny_stamps_again :
  (Plan.completed_at
     <$> Lifecycle.plan_of
           (Lifecycle.run_ops [Lifecycle.DenyPlan "id-4" None] four_steps)
           "id-4")
    = Some (Some 1004%Z)
  ∧ (Plan.completed_at
       <$> Lifecycle.plan_of
             (Lifecycle.run_ops
                [Lifecycle.DenyPlan "id-4" None;
                 Lifecycle.AbortPlan "id-4" None]
                four_steps)
             "id-4")
    = Some (Some 1006%Z).
Proof. vm_compute. done. Qed.

(** ** The audit log *)

Section AuditFacts.
Import AuditLogger AuditSpec.

Lemma filter_twice {A} (p q : A → bool) (l : list A) :
  List.filter q (List.filter p l) = List.filter (fun x => p x && q x) l.
Proof.
  induction l as [|x l IH]; cbn; [done |].
  destruct (p x); cbn; [| done]. destruct (q x); by rewrite IH.
Qed.

Lemma filter_on_meets {A} (x : option A) (keep : A → AuditEntry.t → bool)
    (l : list AuditEntry.t) :
  filter_on x keep l
  = List.filter (fun e => meets x (fun v => keep v e)) l.
Proof.
  destruct x as [v |]; cbn; [done |].
  induction l as [|e l IH]; cbn; [done | by rewrite <- IH].
Qed.

Lemma filter_if_test (flag : bool) (keep : AuditEntry.t → bool)
    (l : list AuditEntry.t) :
  filter_if flag keep l
  = List.filter (fun e => if flag then keep e else true) l.
Proof.
  destruct flag; cbn; [done |].
  induction l as [|e l IH]; cbn; [done | by rewrite <- IH].
Qed.

Lemma insert_desc_head (x e : AuditEntry.t) (l : list AuditEntry.t) :
  (AuditEntry.timestamp e <= AuditEntry.timestamp x)%Z →
  HdRel (fun a b => (AuditEntry.timestamp b <= AuditEntry.timestamp a)%Z)
        x l →
  HdRel (fun a b => (AuditEntry.timestamp b <= AuditEntry.timestamp a)%Z)
        x (insert_desc e l).
Proof.
  intros He Hl. destruct l as [|y l]; cbn; [by constructor |].
  destruct (AuditEntry.timestamp e <? AuditEntry.timestamp y)%Z;
    constructor; [by inversion Hl | done].
Qed.

Lemma insert_desc_sorted (e : AuditEntry.t) (l : list AuditEntry.t) :
  newest_first l → newest_first (insert_desc e l).
Proof.
  unfold newest_first. induction l as [|x l IH]; intros Hl; cbn.
  - by repeat constructor.
  - destruct (Z.ltb_spec (AuditEntry.timestamp e) (AuditEntry.timestamp x))
      as [Hlt | Hge].
    + inversion Hl as [| ? ? Hs Hh]; subst. constructor; [by apply IH |].
      apply insert_desc_head; [lia | done].
    + constructor; [done |]. by constructor.
Qed.

Lemma sort_desc_sorted (l : list AuditEntry.t) : newest_first (sort_desc l).
Proof.
  induction l as [|e l IH]; cbn; [constructor |].
  by apply insert_desc_sorted.
Qed.

Lemma insert_desc_perm (e : AuditEntry.t) (l : list AuditEntry.t) :
  insert_desc e l ≡ₚ e :: l.
Proof.
  induction l as [|x l IH]; cbn; [done |].
  destruct (AuditEntry.timestamp e <? AuditEntry.timestamp x)%Z; [| done].
  rewrite IH. apply Permutation_swap.
Qed.

Lemma sort_desc_perm (l : list AuditEntry.t) : sort_desc l ≡ₚ l.
Proof.
  induction l as [|e l IH]; cbn; [done |].
  by rewrite insert_desc_perm, IH.
Qed.

(** The sort is stable: the entries of any one timestamp keep their
    order. *)
Lemma insert_desc_stable (t : datetime) (e : AuditEntry.t)
    (l : list AuditEntry.t) :
  List.filter (fun x => (AuditEntry.timestamp x =? t)%Z) (insert_desc e l)
  = List.filter (fun x => (AuditEntry.timestamp x =? t)%Z) (e :: l).
Proof.
  induction l as [|x l IH]; [done |].
  cbn [insert_desc].
  destruct (Z.ltb_spec (AuditEntry.timestamp e) (AuditEntry.timestamp x))
    as [Hlt | Hge]; [| done].
  cbn [List.filter] in *. rewrite IH.
  destruct (Z.eqb_spec (AuditEntry.timestamp x) t) as [Hx | Hx];
    destruct (Z.eqb_spec (AuditEntry.timestamp e) t) as [He | He];
    try done.
  lia.
Qed.

Lemma sort_desc_stable (t : datetime) (l : list AuditEntry.t) :
  List.filter (fun x => (AuditEntry.timestamp x =? t)%Z) (sort_desc l)
  = List.filter (fun x => (AuditEntry.timestamp x =? t)%Z) l.
Proof.
  induction l as [|e l IH]; [done |].
  cbn [sort_desc fold_right]. rewrite insert_desc_stable.
  cbn [List.filter]. fold (sort_desc l). by rewrite IH.
Qed.

Lemma newest_first_drop (n : nat) (l : list AuditEntry.t) :
  newest_first l → newest_first (drop n l).
Proof.
  unfold newest_first. revert l. induction n as [|n IH]; intros l Hl.
  - by rewrite drop_0.
  - destruct l as [|x l]; [done |]. cbn. apply IH. by inversion Hl.
Qed.

Lemma newest_first_take (n : nat) (l : list AuditEntry.t) :
  newest_first l → newest_first (take n l).
Proof.
  unfold newest_first. revert l. induction n as [|n IH]; intros l Hl.
  - constructor.
  - destruct l as [|x l]; [done |]. cbn.
    inversion Hl as [| ? ? Hs Hh]; subst. constructor; [by apply IH |].
    destruct l as [|y l]; [rewrite take_nil; constructor |].
    destruct n; cbn; constructor. by inversion Hh.
Qed.

(** The eight filters of [get_entries], one after the other, select the
    entries that meet all the criteria. *)
Lemma get_entries_unfold (self : list AuditEntry.t) (q : Query) :
  get_entries self q
  = let sorted := sort_desc (List.filter (selected q) self) in
    let paged :=
      if (0 <? offset q)%Z then drop (Z.to_nat (offset q)) sorted
      else sorted in
    match limit q with
    | Some n => slice_to n paged
    | None => paged
    end.
Proof.
  unfold get_entries. cbn zeta.
  rewrite !filter_on_meets, !filter_if_test, !filter_twice.
  rewrite (List.filter_ext _ (selected q)); [reflexivity |].
  intros e. unfold selected. by rewrite !andb_assoc.
Qed.

Lemma paged_is_drop (z : Z) (l : list AuditEntry.t) :
  (if (0 <? z)%Z then drop (Z.to_nat z) l else l) = drop (Z.to_nat z) l.
Proof.
  destruct (Z.ltb_spec 0 z) as [H | H]; [done |].
  replace (Z.to_nat z) with 0%nat by lia. by rewrite drop_0.
Qed.

End AuditFacts.

(** C9, as the specification states it, fails for a negative limit: of two
    entries, [limit=-1] returns the most recent one, where taking the first
    [limit] entries returns none. *)
Lemma get_entries_negative_limit_drops_from_end :
  AuditLogger.get_entries two_entries (with_limit (-1))
  ≠ AuditSpec.filter_sort_page two_entries (with_limit (-1)).
Proof. vm_compute. discriminate. Qed.

(** C9, amended. For every sequence of logged entries, every combination of
    filters, every offset, and every limit that is absent or not negative,
    [get_entries] is: filter the entries by the criteria, sort by timestamp
    descending, drop the first [offset] entries (none when the offset is
    not positive), take the first [limit] entries. For every limit, the
    result is a run of consecutive entries of the filtered and sorted list,
    so it is ordered most recent first and pagination reorders nothing. *)
Theorem get_entries_filters_sorts_then_pages :
  (∀ (entries : list AuditEntry.t) (q : AuditLogger.Query),
     (∀ n, AuditLogger.limit q = Some n → (0 <= n)%Z) →
     AuditLogger.get_entries entries q
     = AuditSpec.filter_sort_page entries q)
  ∧ (∀ (entries : list AuditEntry.t) (q : AuditLogger.Query),
       AuditSpec.newest_first (AuditLogger.get_entries entries q)
       ∧ ∃ before after,
           AuditLogger.sort_desc
             (List.filter (AuditSpec.selected q) entries)
           = before ++ AuditLogger.get_entries entries q ++ after).
Proof.
  split.
  - intros entries q Hlimit. rewrite get_entries_unfold. cbn zeta.
    unfold AuditSpec.filter_sort_page. rewrite paged_is_drop.
    destruct (AuditLogger.limit q) as [n |]; cbn; [| done].
    unfold AuditLogger.slice_to.
    destruct (Z.leb_spec 0 n) as [H | H]; [done |].
    specialize (Hlimit n eq_refl). lia.
  - intros entries q. rewrite get_entries_unfold. cbn zeta.
    rewrite paged_is_drop.
    set (sorted := AuditLogger.sort_desc
                     (List.filter (AuditSpec.selected q) entries)).
    assert (Hs : AuditSpec.newest_first sorted) by apply sort_desc_sorted.
    assert (Htake : ∀ k,
      AuditSpec.newest_first (take k (drop (Z.to_nat (AuditLogger.offset q))
                                           sorted))
      ∧ ∃ before after,
          sorted
          = before ++ take k (drop (Z.to_nat (AuditLogger.offset q)) sorted)
              ++ after).
    { intros k. split.
      - by apply newest_first_take, newest_first_drop.
      - exists (take (Z.to_nat (AuditLogger.offset q)) sorted),
               (drop k (drop (Z.to_nat (AuditLogger.offset q)) sorted)).
        by rewrite !take_drop. }
    destruct (AuditLogger.limit q) as [n |].
    + unfold AuditLogger.slice_to. destruct (0 <=? n)%Z; apply Htake.
    + split; [by apply newest_first_drop |].
      exists (take (Z.to_nat (AuditLogger.offset q)) sorted), [].
      by rewrite app_nil_r, take_drop.
Qed.

(** The second page of one entry, among the successful low-risk entries. *)
Lemma get_entries_filters_sorts_then_pages_witness :
  AuditLogger.get_entries two_entries second_page
  = AuditSpec.filter_sort_page two_entries second_page
  ∧ AuditLogger.get_entries two_entries second_page
    = [entry_at "entry-1" 1000%Z].
Proof.
  split.
  - apply (proj1 get_entries_filters_sorts_then_pages).
    intros n Hn. vm_compute in Hn. injection Hn as <-. lia.
  - vm_compute. reflexivity.
Defined.

(** * Further properties *)

(** ** Matching and classification do not depend on the case of letters *)

Section CaseFacts.
Import Text Re Patterns.

Lemma chr_lower_idem (c : ascii) : chr_lower (chr_lower c) = chr_lower c.
Proof.
  destruct c as [[] [] [] [] [] [] [] []]; vm_compute; reflexivity.
Qed.

Lemma chr_isspace_lower (c : ascii) :
  chr_isspace (chr_lower c) = chr_isspace c.
Proof.
  destruct c as [[] [] [] [] [] [] [] []]; vm_compute; reflexivity.
Qed.

Lemma chr_isword_lower (c : ascii) : chr_isword (chr_lower c) = chr_isword c.
Proof.
  destruct c as [[] [] [] [] [] [] [] []]; vm_compute; reflexivity.
Qed.

Lemma chr_isdigit_lower (c : ascii) :
  chr_isdigit (chr_lower c) = chr_isdigit c.
Proof.
  destruct c as [[] [] [] [] [] [] [] []]; vm_compute; reflexivity.
Qed.

Lemma chr_newline_lower (c : ascii) :
  Ascii.eqb (chr_lower c) newline = Ascii.eqb c newline.
Proof.
  destruct c as [[] [] [] [] [] [] [] []]; vm_compute; reflexivity.
Qed.

Lemma accepts_lower (r : regex) (d : ascii) :
  accepts r (chr_lower d) = accepts r d.
Proof.
  destruct r; cbn; try done.
  - unfold same_letter. by rewrite chr_lower_idem.
  - by rewrite chr_newline_lower.
  - apply chr_isspace_lower.
  - apply chr_isword_lower.
  - apply chr_isdigit_lower.
  - induction cs as [|c cs IH]; cbn; [done |].
    unfold same_letter at 1 3. by rewrite chr_lower_idem, IH.
Qed.

Lemma word_at_lower (t : list ascii) (i : nat) :
  word_at (map chr_lower t) i = word_at t i.
Proof.
  unfold word_at. rewrite nth_error_map.
  destruct (nth_error t i); cbn; [apply chr_isword_lower | done].
Qed.

Lemma at_boundary_lower (t : list ascii) (i : nat) :
  at_boundary (map chr_lower t) i = at_boundary t i.
Proof.
  unfold at_boundary. rewrite word_at_lower.
  destruct i; [done |]. by rewrite word_at_lower.
Qed.

Lemma at_eol_lower (t : list ascii) (i : nat) :
  at_eol (map chr_lower t) i = at_eol t i.
Proof.
  unfold at_eol. rewrite List.length_map, nth_error_map.
  destruct (nth_error t i); cbn; [by rewrite chr_newline_lower | done].
Qed.

Lemma existsb_same {A} (f g : A → bool) (l : list A) :
  (∀ a, f a = g a) → existsb f l = existsb g l.
Proof.
  intros Hfg. induction l as [|a l IH]; cbn; [done | by rewrite Hfg, IH].
Qed.

Lemma rounds_ext (f g : nat → list nat) (fuel i : nat) :
  (∀ a, f a = g a) → rounds f fuel i = rounds g fuel i.
Proof.
  intros Hfg. revert i. induction fuel as [|fuel IH]; intros i; [done |].
  cbn [rounds]. rewrite Hfg. f_equal. apply flat_map_ext. intros j.
  by rewrite IH.
Qed.

Lemma ends_lower (r : regex) (t : list ascii) (i : nat) :
  ends r (map chr_lower t) i = ends r t i.
Proof.
  revert i.
  induction r as [c | | | | | cs | | | | r1 IH1 r2 IH2 | r1 IH1 r2 IH2
                 | r IH | r IH | r IH]; intros i; cbn [ends].
  1-6: rewrite nth_error_map; destruct (nth_error t i) as [d |];
       cbn [option_map]; [by rewrite accepts_lower | done].
  - by rewrite at_eol_lower.
  - by rewrite at_boundary_lower.
  - done.
  - rewrite IH1. apply flat_map_ext. intros j. apply IH2.
  - by rewrite IH1, IH2.
  - rewrite List.length_map. by apply rounds_ext.
  - rewrite IH, List.length_map. apply flat_map_ext. intros j.
    by apply rounds_ext.
  - by rewrite IH.
Qed.

Lemma chars_lower (s : string) : chars (lower s) = map chr_lower (chars s).
Proof. unfold lower. apply chars_text. Qed.

Lemma search_lower (r : regex) (s : string) :
  search r (lower s) = search r s.
Proof.
  unfold search. cbn zeta. rewrite chars_lower, List.length_map.
  apply existsb_same. intros i. unfold matches_at. by rewrite ends_lower.
Qed.

Lemma matches_any_pattern_lower (s : string) (patterns : list regex) :
  matches_any_pattern (lower s) patterns = matches_any_pattern s patterns.
Proof.
  unfold matches_any_pattern. apply existsb_same. intros p.
  apply search_lower.
Qed.

Lemma lower_idem (s : string) : lower (lower s) = lower s.
Proof.
  unfold lower at 1. rewrite chars_lower, map_map. unfold lower.
  f_equal. apply map_ext. intros c. apply chr_lower_idem.
Qed.

Lemma lower_app (a b : string) :
  lower (a ++ b) = (lower a ++ lower b)%string.
Proof. unfold lower. by rewrite chars_app, map_app, text_app. Qed.

Lemma lstrip_lower (l : list ascii) :
  lstrip (map chr_lower l) = map chr_lower (lstrip l).
Proof.
  induction l as [|c l IH]; [done |]. cbn. rewrite chr_isspace_lower.
  by destruct (chr_isspace c).
Qed.

Lemma strip_lower (s : string) : strip (lower s) = lower (strip s).
Proof.
  unfold strip. rewrite chars_lower, lstrip_lower, <- map_rev, lstrip_lower,
    <- map_rev.
  unfold lower. by rewrite chars_text.
Qed.

End CaseFacts.

(** X1. On texts whose characters are all code points below 256, which
    are the texts of this development, the three classifiers give the same
    answer for a text and for the same text in lower case: neither the
    patterns (compiled with IGNORECASE) nor the keyword scans (run on the
    lowered text) see the case of a letter. The restriction matters:
    beyond these code points IGNORECASE lets the letter i match U+0130,
    whose lower-case form is i followed by U+0307, so a text with U+0130
    and its lower-case form can be classified differently. *)
Theorem classification_ignores_case (operation context : string) :
  ResourceClassifier.classify (Text.lower operation) (Text.lower context)
    = ResourceClassifier.classify operation context
  ∧ ActionClassifier.classify_action (Text.lower operation)
    = ActionClassifier.classify_action operation
  ∧ ActionClassifier.classify_scope (Text.lower operation)
                                    (Text.lower context)
    = ActionClassifier.classify_scope operation context.
Proof.
  assert (Hcomb : (Text.lower operation ++ " " ++ Text.lower context)%string
                  = Text.lower (operation ++ " " ++ context)).
  { by rewrite !lower_app. }
  split; [| split].
  - unfold ResourceClassifier.classify, ResourceClassifier.combine.
    rewrite Hcomb, strip_lower, !matches_any_pattern_lower.
    unfold ResourceClassifier._is_file_operation. by rewrite lower_idem.
  - unfold ActionClassifier.classify_action.
    by rewrite matches_any_pattern_lower, lower_idem.
  - unfold ActionClassifier.classify_scope. by rewrite Hcomb, lower_idem.
Qed.

(** ** The range of the risk score *)

Section ScoreFacts.
Import ResourceClassifier ActionClassifier RiskAssessor.

(** Each classifier returns a category together with its weight in the
    table. *)
Lemma classify_weight (operation context : string) :
  snd (classify operation context)
  = RESOURCE_RISK_SCORES (fst (classify operation context)).
Proof.
  unfold classify. repeat (case_match; [done |]). done.
Qed.

Lemma classify_action_weight (operation : string) :
  snd (classify_action operation)
  = ACTION_MULTIPLIERS (fst (classify_action operation)).
Proof.
  unfold classify_action. repeat (case_match; [done |]). done.
Qed.

Lemma classify_scope_weight (operation context : string) :
  snd (classify_scope operation context)
  = SCOPE_MULTIPLIERS (fst (classify_scope operation context)).
Proof.
  unfold classify_scope. repeat (case_match; [done |]). done.
Qed.

(** The assessment in terms of the three categories. *)
Lemma assess_by_categories (operation description context : string)
    (w : World) :
  ∃ a w',
    assess operation description context w = (Ok a, w')
    ∧ Assessment.action_type a
      = action_value (fst (classify_action operation))
    ∧ Assessment.risk_score a
      = (RESOURCE_RISK_SCORES (fst (classify operation context))
         * ACTION_MULTIPLIERS (fst (classify_action operation))
         * SCOPE_MULTIPLIERS (fst (classify_scope operation context)))%Q
    ∧ Assessment.risk_level a
      = _calculate_risk_level (Assessment.risk_score a)
    ∧ Assessment.recommendations a
      = _generate_recommendations (Assessment.risk_level a)
          (fst (classify operation context))
          (fst (classify_action operation))
          (fst (classify_scope operation context)).
Proof.
  unfold assess.
  rewrite (surjective_pairing (classify operation context)),
    (surjective_pairing (classify_action operation)),
    (surjective_pairing (classify_scope operation context)).
  rewrite classify_weight, classify_action_weight, classify_scope_weight.
  eexists _, _. split; [reflexivity |]. cbn. done.
Qed.

End ScoreFacts.

(** X2. An operation that matches a read-only pattern is never rated HIGH:
    with the READ multiplier 0.5 the score is at most 5 * 0.5 * 3 = 7.5,
    whatever resource and scope the text also shows. *)
Theorem read_only_operation_is_never_high
    (operation description context : string) (w : World) :
  (∃ p, In p Patterns.READ_ONLY_PATTERNS ∧ Re.search p operation = true) →
  ∃ a w',
    RiskAssessor.assess operation description context w = (Ok a, w')
    ∧ Assessment.action_type a = "read"
    ∧ (Assessment.risk_score a <= 15 # 2)%Q
    ∧ Assessment.risk_level a ≠ HIGH.
Proof.
  intros Hm. apply matches_any_pattern_spec in Hm.
  destruct (assess_by_categories operation description context w)
    as (a & w' & Hrun & Hact & Hscore & Hlevel & _).
  exists a, w'. split; [exact Hrun |].
  assert (Hread : ActionClassifier.classify_action operation
                  = (ActionClassifier.READ, 1 # 2)).
  { unfold ActionClassifier.classify_action. by rewrite Hm. }
  rewrite Hread in Hact, Hscore. cbn [fst] in Hact, Hscore.
  split; [exact Hact |].
  rewrite Hlevel, Hscore.
  destruct (fst (ResourceClassifier.classify operation context));
    destruct (fst (ActionClassifier.classify_scope operation context));
    (split; [vm_compute; discriminate | vm_compute; discriminate]).
Qed.

(** A privileged read of a sensitive file on a production server scores
    7.5 and is MEDIUM. *)
Lemma read_only_operation_is_never_high_witness :
  ∃ a w',
    RiskAssessor.assess "sudo cat /etc/shadow on the production server" ""
      "" Lifecycle.boot
    = (Ok a, w')
    ∧ Assessment.action_type a = "read"
    ∧ (Assessment.risk_score a <= 15 # 2)%Q
    ∧ Assessment.risk_level a ≠ HIGH.
Proof.
  apply read_only_operation_is_never_high.
  exists (Patterns.verb_then_space "cat").
  split; [left; reflexivity | vm_compute; reflexivity].
Defined.

(** X3. An operation whose resource is classified MEMORY has risk score 0
    and is LOW with the single recommendation to proceed, whatever its
    action and scope. *)
Theorem in_memory_operation_is_low
    (operation description context : string) (w : World) :
  fst (ResourceClassifier.classify operation context)
    = ResourceClassifier.MEMORY →
  ∃ a w',
    RiskAssessor.assess operation description context w = (Ok a, w')
    ∧ (Assessment.risk_score a == 0)%Q
    ∧ Assessment.risk_level a = LOW
    ∧ Assessment.recommendations a
      = ["Operation can proceed without additional approval"].
Proof.
  intros Hmem.
  destruct (assess_by_categories operation description context w)
    as (a & w' & Hrun & _ & Hscore & Hlevel & Hrec).
  exists a, w'. split; [exact Hrun |].
  rewrite Hmem in Hscore. cbn [ResourceClassifier.RESOURCE_RISK_SCORES]
    in Hscore.
  assert (H0 : (Assessment.risk_score a == 0)%Q).
  { rewrite Hscore.
    destruct (fst (ActionClassifier.classify_action operation));
      destruct (fst (ActionClassifier.classify_scope operation context));
      vm_compute; reflexivity. }
  assert (Hlow : Assessment.risk_level a = LOW).
  { rewrite Hlevel. apply risk_level_low. rewrite H0. reflexivity. }
  split; [exact H0 |]. split; [exact Hlow |].
  rewrite Hrec, Hlow. reflexivity.
Qed.

(** "shutdown the production cluster" names no file, database, API or
    system command: it is an EXECUTE on SYSTEM scope, rated LOW. *)
Lemma in_memory_operation_is_low_witness :
  ActionClassifier.classify_action "shutdown the production cluster"
    = (ActionClassifier.EXECUTE, 3%Q)
  ∧ ActionClassifier.classify_scope "shutdown the production cluster" ""
    = (ActionClassifier.SYSTEM, 3%Q)
  ∧ ∃ a w',
      RiskAssessor.assess "shutdown the production cluster" "" ""
        Lifecycle.boot
      = (Ok a, w')
      ∧ (Assessment.risk_score a == 0)%Q
      ∧ Assessment.risk_level a = LOW
      ∧ Assessment.recommendations a
        = ["Operation can proceed without additional approval"].
Proof.
  split; [vm_compute; reflexivity |].
  split; [vm_compute; reflexivity |].
  apply in_memory_operation_is_low. vm_compute. reflexivity.
Defined.

(** X4. The risk score of every assessment lies between 0 and 45, and it
    is 0 exactly when the resource is MEMORY; every other resource scores
    at least 0.5. *)
Theorem risk_score_range (operation description context : string)
    (w : World) :
  ∃ a w',
    RiskAssessor.assess operation description context w = (Ok a, w')
    ∧ (0 <= Assessment.risk_score a)%Q
    ∧ (Assessment.risk_score a <= 45)%Q
    ∧ ((Assessment.risk_score a == 0)%Q
       ↔ fst (ResourceClassifier.classify operation context)
         = ResourceClassifier.MEMORY)
    ∧ (fst (ResourceClassifier.classify operation context)
         ≠ ResourceClassifier.MEMORY →
       (1 # 2 <= Assessment.risk_score a)%Q).
Proof.
  destruct (assess_by_categories operation description context w)
    as (a & w' & Hrun & _ & Hscore & _).
  exists a, w'. split; [exact Hrun |]. rewrite Hscore.
  destruct (fst (ResourceClassifier.classify operation context));
    destruct (fst (ActionClassifier.classify_action operation));
    destruct (fst (ActionClassifier.classify_scope operation context));
    (split; [vm_compute; discriminate |]);
    (split; [vm_compute; discriminate |]);
    (split; [split; [vm_compute; try discriminate; reflexivity
                    | intros; try discriminate; vm_compute; reflexivity] |]);
    intros H; try done; vm_compute; discriminate.
Qed.

(** ** More on the deviation detector *)

Section MoreDeviationFacts.
Import Text DeviationDetector.

(** The severity of a list of findings is the type of one of them, or the
    starting value. *)
Lemma severity_fold_from (deviations : list Deviation)
    (start : DeviationType) :
  let result :=
    fold_left
      (fun max_severity deviation =>
         let dev_type := deviation_type deviation in
         if (severity_index max_severity <? severity_index dev_type)%nat
         then dev_type else max_severity)
      deviations start in
  result = start ∨ ∃ d, In d deviations ∧ deviation_type d = result.
Proof.
  cbn zeta.
  match goal with |- context [fold_left ?g _ _] => set (f := g) end.
  revert start. induction deviations as [|d ds IH]; intros start.
  - by left.
  - cbn [fold_left].
    destruct (IH (f start d)) as [Heq | (d' & Hin & Hd')].
    + rewrite Heq. unfold f.
      case_match; [right; exists d; split; [by left | done] | by left].
    + right. exists d'. split; [by right | done].
Qed.

Lemma outcome_deviation_critical (expected actual : string) (d : Deviation) :
  _check_outcome_deviation expected actual = Some d →
  deviation_type d = critical →
  expected ≠ ""
  ∧ contains_any error_indicators (lower actual) = true.
Proof.
  unfold _check_outcome_deviation.
  destruct expected as [|c e]; [done |]. cbn [nonempty negb orb].
  destruct (negb (nonempty actual)); [done |].
  destruct (contains_any error_indicators (lower actual)); [done |].
  case_match; [| done]. intros [= <-]. done.
Qed.

End MoreDeviationFacts.

(** X5. [detect] reports severity "critical" only for an error outcome:
    if the severity is critical, the step has a non-empty expected outcome
    and the actual outcome, in lower case, contains one of the
    error-indicator keywords. No difference between the planned and the
    actual operation is ever critical. *)
Theorem critical_severity_means_error_outcome (step : PlanStep.t)
    (actual_operation actual_outcome : string) :
  DeviationDetector.severity
    (DeviationDetector.detect step actual_operation actual_outcome)
  = DeviationDetector.sev DeviationDetector.critical →
  PlanStep.expected_outcome step ≠ ""
  ∧ ∃ kw, In kw DeviationDetector.error_indicators
          ∧ ∃ pre post : string,
              Text.lower actual_outcome = (pre ++ kw ++ post)%string.
Proof.
  unfold DeviationDetector.detect. cbn [DeviationDetector.severity].
  unfold DeviationDetector._calculate_severity.
  set (ds := DeviationDetector.to_list _ ++ DeviationDetector.to_list _).
  destruct ds as [|d0 ds0] eqn:Hds; [done |]. intros [= Hfold].
  destruct (severity_fold_from (d0 :: ds0) DeviationDetector.minor)
    as [Hstart | (d & Hin & Hd)].
  { assert (DeviationDetector.critical = DeviationDetector.minor)
      by (rewrite <- Hfold; exact Hstart).
    discriminate. }
  assert (Hcrit : DeviationDetector.deviation_type d
                  = DeviationDetector.critical)
    by (rewrite <- Hfold; exact Hd).
  clear Hd. rename Hcrit into Hd. rewrite <- Hds in Hin. subst ds.
  apply in_app_or in Hin as [Hin | Hin].
  - destruct (DeviationDetector._check_operation_deviation _ _) as [d' |]
      eqn:Hop; [| done].
    destruct Hin as [<- | []].
    by destruct (operation_deviation_not_critical _ _ _ Hop).
  - destruct (DeviationDetector._check_outcome_deviation _ _) as [d' |]
      eqn:Hout; [| done].
    destruct Hin as [<- | []].
    destruct (outcome_deviation_critical _ _ _ Hout Hd) as [Hexp Herr].
    split; [exact Hexp |]. by apply contains_any_spec.
Qed.

Lemma critical_severity_means_error_outcome_witness :
  let step :=
    PlanStep.mk "step-1" 1 "Remove stale sessions"
      "DELETE FROM user_sessions" "Rows deleted" None EXECUTING None None
      None in
  PlanStep.expected_outcome step ≠ ""
  ∧ ∃ kw, In kw DeviationDetector.error_indicators
          ∧ ∃ pre post : string,
              Text.lower "Traceback (most recent call last)"
              = (pre ++ kw ++ post)%string.
Proof.
  apply (critical_severity_means_error_outcome _ "drop everything").
  vm_compute. reflexivity.
Defined.

(** X6. The report of [detect] is coherent: [has_deviation] is true exactly
    when the severity is not "none", which is exactly when there is a
    finding; the findings are none, one operation finding, one outcome
    finding, or an operation finding followed by an outcome finding, so
    there are at most two and an operation finding comes first; and with
    severity "none" the only recommendation is "Execution proceeded as
    planned". *)
Theorem deviation_report_is_coherent (step : PlanStep.t)
    (actual_operation actual_outcome : string) :
  let report :=
    DeviationDetector.detect step actual_operation actual_outcome in
  (DeviationDetector.has_deviation report = true
   ↔ DeviationDetector.severity report ≠ DeviationDetector.none)
  ∧ (DeviationDetector.has_deviation report = true
     ↔ DeviationDetector.deviations report ≠ [])
  ∧ (length (DeviationDetector.deviations report) ≤ 2)%nat
  ∧ (map DeviationDetector.type (DeviationDetector.deviations report) = []
     ∨ map DeviationDetector.type (DeviationDetector.deviations report)
       = [DeviationDetector.operation_deviation]
     ∨ map DeviationDetector.type (DeviationDetector.deviations report)
       = [DeviationDetector.outcome_deviation]
     ∨ map DeviationDetector.type (DeviationDetector.deviations report)
       = [DeviationDetector.operation_deviation;
          DeviationDetector.outcome_deviation])
  ∧ (DeviationDetector.severity report = DeviationDetector.none →
     DeviationDetector.recommendations report
     = [[DeviationDetector.Str "Execution proceeded as planned"]])
  ∧ DeviationDetector.step_id report = PlanStep.id step.
Proof.
  unfold DeviationDetector.detect. cbn zeta.
  cbn [DeviationDetector.has_deviation DeviationDetector.severity
       DeviationDetector.deviations DeviationDetector.recommendations
       DeviationDetector.step_id].
  destruct (DeviationDetector._check_operation_deviation _ _) as [d1 |]
    eqn:Hop;
    destruct (DeviationDetector._check_outcome_deviation _ _) as [d2 |]
      eqn:Hout;
    cbn [DeviationDetector.to_list app length map
         DeviationDetector._calculate_severity];
    try (destruct (operation_deviation_not_critical _ _ _ Hop) as [-> _]);
    try rewrite (outcome_deviation_kind _ _ _ Hout);
    (split; [split; [discriminate || (intros _; discriminate) | reflexivity ||
                     (intros H; by destruct H)] |]);
    (split; [split; [discriminate || (intros _; discriminate) | reflexivity ||
                     (intros H; by destruct H)] |]);
    (split; [lia |]);
    (split; [first [ by left | by right; left | by right; right; left
                   | by right; right; right ] |]);
    (split; [first [ discriminate | reflexivity ] | reflexivity]).
Qed.

Section SimilarityFacts.
Import Text TextSpec DeviationDetector.

Lemma pos_of_nat_Z (n : nat) : n ≠ 0%nat → Z.pos (Pos.of_nat n) = Z.of_nat n.
Proof. intros Hn. destruct n; [done |]. lia. Qed.

Lemma word_sets_size (words1 words2 : gset string) :
  words1 ≠ ∅ →
  (size (words1 ∩ words2) ≤ size (words1 ∪ words2))%nat
  ∧ size (words1 ∪ words2) ≠ 0%nat.
Proof.
  intros Hne. split.
  - apply subseteq_size. set_solver.
  - intros H0. apply size_empty_iff in H0. apply Hne.
    apply leibniz_equiv. set_solver.
Qed.

(** Splitting the characters of a word, read after [cur], continues the
    run. *)
Lemma split_go_word (w cur l : list ascii) :
  Forall (fun c => chr_isspace c = false) w →
  split_go cur (w ++ l) = split_go (rev w ++ cur) l.
Proof.
  intros Hw. revert cur. induction Hw as [|c w Hc _ IH]; intros cur; [done |].
  cbn [app split_go rev]. rewrite Hc, IH, <- app_assoc. done.
Qed.

Lemma split_go_wordlike (cur l : list ascii) :
  Forall (fun c => chr_isspace c = false) cur →
  Forall wordlike (split_go cur l).
Proof.
  revert cur. induction l as [|c l IH]; intros cur Hcur; cbn [split_go].
  - destruct cur as [|x cur]; [constructor |]. constructor; [| constructor].
    unfold wordlike. rewrite chars_text. split.
    + intros H. apply (f_equal (@length ascii)) in H.
      rewrite length_rev in H. done.
    + by apply Forall_rev.
  - destruct (chr_isspace c) eqn:Hc.
    + destruct cur as [|x cur]; [by apply IH |].
      constructor; [| by apply IH]. unfold wordlike. rewrite chars_text.
      split.
      * intros H. apply (f_equal (@length ascii)) in H.
        rewrite length_rev in H. done.
      * by apply Forall_rev.
    + apply IH. by constructor.
Qed.

Lemma split_wordlike (s : string) : Forall wordlike (split s).
Proof. apply split_go_wordlike. constructor. Qed.

(** Joining words with single spaces and splitting again gives the words
    back. *)
Lemma split_join (ws : list string) :
  Forall wordlike ws → split (join " " ws) = ws.
Proof.
  unfold split. induction 1 as [|w ws [Hne Hns] Hws IH]; [done |].
  destruct ws as [|w2 ws].
  - cbn [join]. rewrite <- (app_nil_r (chars w)), split_go_word by done.
    cbn [split_go]. rewrite app_nil_r.
    destruct (rev (chars w)) as [|x r] eqn:Hr.
    + apply (f_equal (@length ascii)) in Hr. rewrite length_rev in Hr.
      destruct (chars w); done.
    + by rewrite <- Hr, rev_involutive, text_chars.
  - change (join " " (w :: w2 :: ws))
      with (w ++ " " ++ join " " (w2 :: ws))%string.
    rewrite !chars_app, split_go_word by done. rewrite app_nil_r.
    change (chars " ") with [" "%char]. cbn [app split_go].
    change (chr_isspace " ") with true. cbn match.
    destruct (rev (chars w)) as [|x r] eqn:Hr.
    + apply (f_equal (@length ascii)) in Hr. rewrite length_rev in Hr.
      destruct (chars w); done.
    + rewrite <- Hr, rev_involutive, text_chars. f_equal. exact IH.
Qed.

Lemma text_lower (l : list ascii) : lower (text l) = text (map chr_lower l).
Proof. unfold lower. by rewrite chars_text. Qed.

Lemma split_go_lower (cur l : list ascii) :
  split_go (map chr_lower cur) (map chr_lower l)
  = map lower (split_go cur l).
Proof.
  revert cur. induction l as [|c l IH]; intros cur; cbn [map split_go].
  - destruct cur as [|x cur]; [done |]. cbn [map].
    by rewrite text_lower, map_rev.
  - rewrite chr_isspace_lower. destruct (chr_isspace c).
    + destruct cur as [|x cur]; cbn [map].
      * apply (IH []).
      * rewrite text_lower, map_rev. f_equal. apply (IH []).
    + apply (IH (c :: cur)).
Qed.

Lemma split_lower (s : string) : split (lower s) = map lower (split s).
Proof. unfold split. rewrite chars_lower. apply (split_go_lower []). Qed.

Lemma join_lower (ws : list string) :
  lower (join " " ws) = join " " (map lower ws).
Proof.
  induction ws as [|w ws IH]; [done |].
  destruct ws as [|w2 ws]; [done |].
  change (join " " (w :: w2 :: ws))
    with (w ++ " " ++ join " " (w2 :: ws))%string.
  rewrite !lower_app, IH. done.
Qed.

Lemma normalize_words (s : string) :
  split (_normalize s) = split (lower s).
Proof. unfold _normalize. apply split_join, split_wordlike. Qed.

End SimilarityFacts.

(** X7. The word similarity of two texts is symmetric and lies between 0
    and 1; it is 1 exactly when the two texts have the same set of
    words. *)
Theorem similarity_is_symmetric_and_bounded (text1 text2 : string) :
  DeviationDetector._calculate_similarity text1 text2
    = DeviationDetector._calculate_similarity text2 text1
  ∧ (0 <= DeviationDetector._calculate_similarity text1 text2)%Q
  ∧ (DeviationDetector._calculate_similarity text1 text2 <= 1)%Q
  ∧ ((DeviationDetector._calculate_similarity text1 text2 == 1)%Q
     ↔ (list_to_set (Text.split text1) : gset string)
       = list_to_set (Text.split text2)).
Proof.
  unfold DeviationDetector._calculate_similarity. cbn zeta.
  set (words1 := list_to_set (Text.split text1) : gset string).
  set (words2 := list_to_set (Text.split text2) : gset string).
  split; [| split; [| split]].
  - rewrite (comm_L (∩) words2 words1), (comm_L (∪) words2 words1).
    repeat case_decide; try reflexivity; exfalso; tauto.
  - repeat case_decide; unfold Qle; cbn; lia.
  - case_decide; [unfold Qle; cbn; lia |].
    case_decide; [unfold Qle; cbn; lia |].
    assert (Hne : words1 ≠ ∅) by tauto.
    destruct (word_sets_size words1 words2 Hne) as [Hle Hpos].
    unfold Qle. cbn. rewrite pos_of_nat_Z by exact Hpos. lia.
  - case_decide as Hboth; [| case_decide as Hone].
    + destruct Hboth as [-> ->]. split; [reflexivity | intros _; reflexivity].
    + split.
      * intros H01. exfalso. revert H01. unfold Qeq. cbn. lia.
      * intros Heq. exfalso. rewrite Heq in Hboth, Hone. tauto.
    + assert (Hne : words1 ≠ ∅) by tauto.
      destruct (word_sets_size words1 words2 Hne) as [Hle Hpos].
      unfold Qeq. cbn. rewrite pos_of_nat_Z by exact Hpos. split.
      * intros Hsize.
        assert (Hsub : words1 ∩ words2 = words1 ∪ words2).
        { apply set_subseteq_size_eq; [set_solver | lia]. }
        set_solver.
      * intros ->. replace (words2 ∩ words2) with words2 by set_solver.
        replace (words2 ∪ words2) with words2 by set_solver. lia.
Qed.

(** X8. Normalising an operation text is idempotent, and two texts have
    the same normal form exactly when they have the same sequence of words
    once in lower case: the comparison of planned and actual operation
    ignores case and the layout of white space, and nothing else. Two such
    texts give no operation finding. *)
Theorem normalize_compares_words (planned actual : string) :
  DeviationDetector._normalize (DeviationDetector._normalize planned)
    = DeviationDetector._normalize planned
  ∧ (DeviationDetector._normalize planned
       = DeviationDetector._normalize actual
     ↔ Text.split (Text.lower planned) = Text.split (Text.lower actual))
  ∧ (Text.split (Text.lower planned) = Text.split (Text.lower actual) →
     DeviationDetector._check_operation_deviation planned actual = None).
Proof.
  split; [| split].
  - unfold DeviationDetector._normalize at 1.
    unfold DeviationDetector._normalize at 1.
    rewrite join_lower, <- split_lower, lower_idem.
    change (Text.join " " (Text.split (Text.lower planned)))
      with (DeviationDetector._normalize planned).
    by rewrite normalize_words.
  - split.
    + intros H. by rewrite <- !normalize_words, H.
    + intros H. unfold DeviationDetector._normalize. by rewrite H.
  - intros H. unfold DeviationDetector._check_operation_deviation.
    case_match; [done |].
    unfold DeviationDetector._normalize. rewrite H.
    by rewrite String.eqb_refl.
Qed.

(** The planned command in capitals, spread over two lines with extra
    blanks, is the planned command. *)
Lemma normalize_compares_words_witness :
  DeviationDetector._check_operation_deviation
    "delete from user_sessions where age > 30"
    ("  DELETE FROM   user_sessions" ++ String (ascii_of_N 10) ""
     ++ "WHERE age > 30 ")%string
  = None.
Proof.
  apply (proj2 (proj2 (normalize_compares_words _ _))).
  vm_compute. reflexivity.
Defined.

(** ** More on the plan controller *)

Section MorePlanFacts.
Import SessionManager Session PlanController Lifecycle.

Lemma find_step_none (sid : string) (steps : list PlanStep.t) :
  (∀ s, In s steps → PlanStep.id s ≠ sid) → find_step sid steps = None.
Proof.
  induction steps as [|x steps IH]; intros Hno; [done |].
  cbn [find_step].
  destruct (String.eqb_spec (PlanStep.id x) sid) as [Heq | Hne].
  - exfalso. apply (Hno x); [by left | done].
  - rewrite IH; [done |]. intros s Hs. apply Hno. by right.
Qed.

Lemma find_step_some (sid : string) (steps : list PlanStep.t) :
  In sid (map PlanStep.id steps) →
  ∃ i st, find_step sid steps = Some (i, st).
Proof.
  induction steps as [|x steps IH]; [done |]. intros Hin.
  cbn [find_step].
  destruct (String.eqb_spec (PlanStep.id x) sid) as [Heq | Hne].
  - by eexists _, _.
  - destruct Hin as [Hx | Hin]; [done |].
    destruct (IH Hin) as (i & st & ->). by eexists _, _.
Qed.

Lemma map_insert_same {A B} (f : A → B) (l : list A) (i : nat) (x y : A) :
  l !! i = Some x → f y = f x → map f (<[i := y]> l) = map f l.
Proof.
  revert i. induction l as [|a l IH]; intros i Hi Hf; [done |].
  destruct i as [|i]; cbn in *.
  - injection Hi as ->. by rewrite Hf.
  - f_equal. by apply IH.
Qed.

Lemma map_map_same {A B} (f : A → B) (g : A → A) (l : list A) :
  (∀ a, f (g a) = f a) → map f (map g l) = map f l.
Proof.
  intros Hfg. rewrite map_map. apply map_ext. exact Hfg.
Qed.

Lemma skip_remaining_definition (s : PlanStep.t) :
  PlanQueries.step_definition (skip_remaining s)
  = PlanQueries.step_definition s.
Proof. unfold skip_remaining. by destruct (PlanStep.status s). Qed.

(** Every call rewrites at most one stored plan, and keeps its frame. *)
Lemma run_op_frame (o : Op) (w : World) :
  plans (session (run_op o w)) = plans (session w)
  ∨ ∃ p plan plan',
      plans (session w) !! p = Some plan
      ∧ plans (session (run_op o w)) = <[p := plan']> (plans (session w))
      ∧ PlanQueries.same_frame plan plan'.
Proof.
  destruct o as [pid | pid r | pid r | pid sid r | pid sid r | pid sid
                | pid sid r | pid sid e | pid r]; cbn [run_op].
  - unfold submit_for_approval. run_monad.
    destruct (plans (session w) !! pid) as [plan|] eqn:Hp; cbn; [| auto].
    destruct (Plan.status plan) eqn:Hst; cbn; auto.
    right. exists pid, plan. eexists.
    split; [done |]. split; [reflexivity |]. by repeat split.
  - unfold approve_plan, new_approval. run_monad.
    destruct (plans (session w) !! pid) as [plan|] eqn:Hp; cbn; [| auto].
    right. exists pid, plan. eexists.
    split; [done |]. split; [reflexivity |].
    repeat split; cbn; try done. by apply map_map_same.
  - unfold deny_plan, new_approval. run_monad.
    destruct (plans (session w) !! pid) as [plan|] eqn:Hp; cbn; [| auto].
    right. exists pid, plan. eexists.
    split; [done |]. split; [reflexivity |]. by repeat split.
  - unfold approve_step, decide_step, new_approval. run_monad.
    destruct (plans (session w) !! pid) as [plan|] eqn:Hp; cbn; [| auto].
    destruct (find_step sid (Plan.steps plan)) as [[i st]|] eqn:Hf; cbn;
      [| auto].
    apply find_step_lookup in Hf as [Hi _].
    right. exists pid, plan. eexists.
    split; [done |]. split; [reflexivity |].
    repeat split; cbn; try done. by eapply map_insert_same.
  - unfold deny_step, decide_step, new_approval. run_monad.
    destruct (plans (session w) !! pid) as [plan|] eqn:Hp; cbn; [| auto].
    destruct (find_step sid (Plan.steps plan)) as [[i st]|] eqn:Hf; cbn;
      [| auto].
    apply find_step_lookup in Hf as [Hi _].
    right. exists pid, plan. eexists.
    split; [done |]. split; [reflexivity |].
    repeat split; cbn; try done. by eapply map_insert_same.
  - unfold start_step_execution, update_step_status. run_monad.
    destruct (plans (session w) !! pid) as [plan|] eqn:Hp; cbn; [| auto].
    destruct (find_step sid (Plan.steps plan)) as [[i st]|] eqn:Hf; cbn;
      [| auto].
    apply find_step_lookup in Hf as [Hi _].
    right. exists pid, plan. eexists.
    split; [done |]. split; [reflexivity |].
    repeat split; cbn; try done. by eapply map_insert_same.
  - unfold complete_step, update_step_status. run_monad.
    destruct (plans (session w) !! pid) as [plan|] eqn:Hp; cbn; [| auto].
    rewrite Hp. cbn.
    destruct (find_step sid (Plan.steps plan)) as [[i st]|] eqn:Hf; cbn;
      [| auto].
    apply find_step_lookup in Hf as [Hi _].
    rewrite lookup_insert_eq. cbn.
    destruct (forallb step_done _); cbn.
    + rewrite insert_insert_eq. right. exists pid, plan. eexists.
      split; [done |]. split; [reflexivity |].
      repeat split; cbn; try done. by eapply map_insert_same.
    + right. exists pid, plan. eexists.
      split; [done |]. split; [reflexivity |].
      repeat split; cbn; try done. by eapply map_insert_same.
  - unfold fail_step, update_step_status. run_monad.
    destruct (plans (session w) !! pid) as [plan|] eqn:Hp; cbn; [| auto].
    rewrite Hp. cbn.
    destruct (find_step sid (Plan.steps plan)) as [[i st]|] eqn:Hf; cbn;
      [| auto].
    apply find_step_lookup in Hf as [Hi _].
    rewrite lookup_insert_eq. cbn. rewrite insert_insert_eq.
    right. exists pid, plan. eexists.
    split; [done |]. split; [reflexivity |].
    repeat split; cbn; try done. by eapply map_insert_same.
  - unfold abort_plan. run_monad.
    destruct (plans (session w) !! pid) as [plan|] eqn:Hp; cbn; [| auto].
    right. exists pid, plan. eexists.
    split; [done |]. split; [reflexivity |].
    repeat split; cbn; try done.
    apply map_map_same, skip_remaining_definition.
Qed.

Lemma same_frame_refl (plan : Plan.t) : PlanQueries.same_frame plan plan.
Proof. by repeat split. Qed.

Lemma same_frame_trans (p1 p2 p3 : Plan.t) :
  PlanQueries.same_frame p1 p2 → PlanQueries.same_frame p2 p3 →
  PlanQueries.same_frame p1 p3.
Proof.
  unfold PlanQueries.same_frame.
  intros (? & ? & ? & ? & ? & ? & ?) (? & ? & ? & ? & ? & ? & ?).
  repeat split; congruence.
Qed.

Lemma run_op_keeps_frame (o : Op) (w : World) (pid : string) :
  match plan_of w pid with
  | Some plan =>
      ∃ plan', plan_of (run_op o w) pid = Some plan'
               ∧ PlanQueries.same_frame plan plan'
  | None => plan_of (run_op o w) pid = None
  end.
Proof.
  unfold plan_of.
  destruct (run_op_frame o w) as [-> | (p & plan0 & plan1 & Hp & -> & Hfr)].
  - destruct (plans (session w) !! pid) as [plan|]; [| done].
    exists plan. split; [done | apply same_frame_refl].
  - destruct (decide (p = pid)) as [-> | Hne].
    + rewrite Hp, lookup_insert_eq. by exists plan1.
    + rewrite lookup_insert_ne by done.
      destruct (plans (session w) !! pid) as [plan|]; [| done].
      exists plan. split; [done | apply same_frame_refl].
Qed.

End MorePlanFacts.

(** The frame of a stored plan, over a run. *)
Lemma run_ops_keep_frame (ops : list Lifecycle.Op) (w : World)
    (pid : string) :
  match Lifecycle.plan_of w pid with
  | Some plan =>
      ∃ plan', Lifecycle.plan_of (Lifecycle.run_ops ops w) pid = Some plan'
               ∧ PlanQueries.same_frame plan plan'
  | None => Lifecycle.plan_of (Lifecycle.run_ops ops w) pid = None
  end.
Proof.
  revert w. induction ops as [|o ops IH]; intros w.
  - cbn. destruct (Lifecycle.plan_of w pid) as [plan|]; [| done].
    exists plan. split; [done | apply same_frame_refl].
  - cbn [Lifecycle.run_ops fold_left].
    pose proof (run_op_keeps_frame o w pid) as Hop.
    pose proof (IH (Lifecycle.run_op o w)) as Hrest.
    fold (Lifecycle.run_ops ops (Lifecycle.run_op o w)) in *.
    destruct (Lifecycle.plan_of w pid) as [plan|].
    + destruct Hop as (plan1 & H1 & Hf1). rewrite H1 in Hrest.
      destruct Hrest as (plan2 & H2 & Hf2). exists plan2.
      split; [done | by eapply same_frame_trans].
    + by rewrite Hop in Hrest.
Qed.

(** X9. The nine operations neither create nor delete a plan, and they
    never change what a plan is made of: after any sequence of calls a
    stored plan has the same id, name, description, assessment id, creation
    time and current-step index, and its steps have the same ids, orders,
    descriptions, operations, expected outcomes and rollback actions, in
    the same order. Only statuses, results, errors and timestamps move. *)
Theorem plan_frame_is_fixed (ops : list Lifecycle.Op) (w : World)
    (pid : string) :
  match Lifecycle.plan_of w pid with
  | Some plan =>
      ∃ plan', Lifecycle.plan_of (Lifecycle.run_ops ops w) pid = Some plan'
               ∧ PlanQueries.same_frame plan plan'
  | None => Lifecycle.plan_of (Lifecycle.run_ops ops w) pid = None
  end.
Proof. apply run_ops_keep_frame. Qed.

(** X10. Called with the id of no stored plan, each of the nine operations
    returns its not-found value and leaves the whole state as it was: no
    approval is recorded, no id is drawn and the clock is not read. *)
Theorem unknown_plan_changes_nothing (w : World) (pid : string) :
  Lifecycle.plan_of w pid = None →
  PlanController.submit_for_approval pid w = (Ok None, w)
  ∧ (∀ reason,
       PlanController.approve_plan pid reason w = (Ok (None, None), w)
       ∧ PlanController.deny_plan pid reason w = (Ok (None, None), w)
       ∧ PlanController.abort_plan pid reason w = (Ok None, w))
  ∧ (∀ sid reason,
       PlanController.approve_step pid sid reason w = (Ok (None, None), w)
       ∧ PlanController.deny_step pid sid reason w = (Ok (None, None), w))
  ∧ (∀ sid text,
       PlanController.start_step_execution pid sid w = (Ok None, w)
       ∧ PlanController.complete_step pid sid text w = (Ok None, w)
       ∧ PlanController.fail_step pid sid text w = (Ok None, w))
  ∧ PlanQueries.get_plan_status pid w = (Ok None, w).
Proof.
  unfold Lifecycle.plan_of. intros Hp.
  unfold PlanController.submit_for_approval, PlanController.approve_plan,
    PlanController.deny_plan, PlanController.abort_plan,
    PlanController.approve_step, PlanController.deny_step,
    PlanController.decide_step, PlanController.start_step_execution,
    PlanController.complete_step, PlanController.fail_step,
    PlanQueries.get_plan_status, Session.update_step_status.
  run_monad. rewrite Hp. done.
Qed.

Lemma unknown_plan_changes_nothing_witness :
  PlanController.complete_step "id-9" "id-0" "done" four_steps
    = (Ok None, four_steps)
  ∧ PlanController.approve_plan "id-9" None four_steps
    = (Ok (None, None), four_steps).
Proof.
  assert (H : Lifecycle.plan_of four_steps "id-9" = None)
    by (vm_compute; reflexivity).
  destruct (unknown_plan_changes_nothing four_steps "id-9" H)
    as (_ & Hplan & _ & Hstep & _).
  split; [apply Hstep | apply Hplan].
Defined.

(** X11. Called with a step id that no step of the stored plan carries,
    [approve_step], [deny_step], [start_step_execution], [complete_step]
    and [fail_step] return their not-found value and leave the whole state
    as it was; in particular [fail_step] does not fail the plan. *)
Theorem unknown_step_changes_nothing (w : World) (pid sid : string)
    (plan : Plan.t) :
  Lifecycle.plan_of w pid = Some plan →
  (∀ s, In s (Plan.steps plan) → PlanStep.id s ≠ sid) →
  (∀ reason,
     PlanController.approve_step pid sid reason w = (Ok (None, None), w)
     ∧ PlanController.deny_step pid sid reason w = (Ok (None, None), w))
  ∧ (∀ text,
       PlanController.start_step_execution pid sid w = (Ok None, w)
       ∧ PlanController.complete_step pid sid text w = (Ok None, w)
       ∧ PlanController.fail_step pid sid text w = (Ok None, w)).
Proof.
  unfold Lifecycle.plan_of. intros Hp Hno.
  apply find_step_none in Hno.
  unfold PlanController.approve_step, PlanController.deny_step,
    PlanController.decide_step, PlanController.start_step_execution,
    PlanController.complete_step, PlanController.fail_step,
    Session.update_step_status.
  run_monad. rewrite Hp. cbn. rewrite Hp. cbn. rewrite Hno. done.
Qed.

Lemma unknown_step_changes_nothing_witness :
  PlanController.fail_step "id-4" "id-7" "disk full" four_steps
  = (Ok None, four_steps).
Proof.
  destruct (Lifecycle.plan_of four_steps "id-4") as [plan|] eqn:Hp;
    [| vm_compute in Hp; discriminate].
  refine (proj2 (proj2 (proj2 (unknown_step_changes_nothing four_steps "id-4"
                                 "id-7" plan Hp _) "disk full"))).
  vm_compute in Hp. injection Hp as <-.
  intros s Hs. cbn in Hs.
  repeat (destruct Hs as [<- | Hs]; [discriminate |]). done.
Defined.

(** X12. [submit_for_approval] moves a draft plan to awaiting_approval
    and changes nothing else of it but the update time; for a plan in any
    other status it raises and leaves the state as it was. A plan can
    therefore be submitted once: a second call raises. *)
Theorem submit_for_approval_only_from_draft (w : World) (pid : string)
    (plan : Plan.t) :
  Lifecycle.plan_of w pid = Some plan →
  (Plan.status plan = DRAFT →
   ∃ plan' w',
     PlanController.submit_for_approval pid w = (Ok (Some plan'), w')
     ∧ Lifecycle.plan_of w' pid = Some plan'
     ∧ plan' = Plan.set_updated_at (clock w (clock_reads w))
                 (Plan.set_status AWAITING_APPROVAL plan)
     ∧ PlanController.submit_for_approval pid w'
       = (Raise (ValueError_not_draft AWAITING_APPROVAL), w'))
  ∧ (Plan.status plan ≠ DRAFT →
     PlanController.submit_for_approval pid w
     = (Raise (ValueError_not_draft (Plan.status plan)), w)).
Proof.
  unfold Lifecycle.plan_of. intros Hp. split; intros Hst.
  - unfold PlanController.submit_for_approval. run_monad.
    rewrite Hp. cbn. rewrite Hst. cbn.
    eexists _, _. split; [reflexivity |]. cbn.
    rewrite lookup_insert_eq. cbn. done.
  - unfold PlanController.submit_for_approval. run_monad.
    rewrite Hp. cbn. by destruct (Plan.status plan).
Qed.

Lemma submit_for_approval_only_from_draft_witness :
  (∃ plan' w',
     PlanController.submit_for_approval "id-4" four_steps
       = (Ok (Some plan'), w')
     ∧ Plan.status plan' = AWAITING_APPROVAL
     ∧ PlanController.submit_for_approval "id-4" w'
       = (Raise (ValueError_not_draft AWAITING_APPROVAL), w'))
  ∧ PlanController.submit_for_approval "id-4" aborted_plan
    = (Raise (ValueError_not_draft ABORTED), aborted_plan).
Proof.
  split.
  - destruct (Lifecycle.plan_of four_steps "id-4") as [plan|] eqn:Hp;
      [| vm_compute in Hp; discriminate].
    assert (Hst : Plan.status plan = DRAFT).
    { vm_compute in Hp. injection Hp as <-. reflexivity. }
    destruct (proj1 (submit_for_approval_only_from_draft four_steps "id-4"
                       plan Hp) Hst)
      as (plan' & w' & Hrun & _ & -> & Hagain).
    eexists _, w'. split; [exact Hrun |]. split; [reflexivity | exact Hagain].
  - destruct (Lifecycle.plan_of aborted_plan "id-4") as [plan|] eqn:Hp;
      [| vm_compute in Hp; discriminate].
    assert (Hst : Plan.status plan = ABORTED).
    { vm_compute in Hp. injection Hp as <-. reflexivity. }
    rewrite <- Hst.
    apply (submit_for_approval_only_from_draft aborted_plan "id-4" plan Hp).
    rewrite Hst. discriminate.
Defined.

Section CreateFacts.
Import SessionManager Session PlanController Lifecycle.

(** The steps that [create_plan] builds, one by one. *)
Lemma build_steps_lookup (defs : list StepDef) (i : nat) (w : World) :
  ∃ steps,
    build_steps i defs w
    = (Ok steps,
       mkWorld (session w) (audit_entries w) (clock w) (clock_reads w)
               (uuid_stream w) (uuid_draws w + length defs))
    ∧ length steps = length defs
    ∧ ∀ k d, defs !! k = Some d →
        steps !! k
        = Some (PlanStep.mk (uuid_stream w (uuid_draws w + k))
                  (Z.of_nat (i + k) + 1)
                  (default ("Step " ++ decimal (i + k + 1))%string
                           (def_description d))
                  (default "" (def_operation d))
                  (default "" (def_expected_outcome d))
                  (def_rollback_action d) PENDING None None None).
Proof.
  revert i w. induction defs as [|d defs IH]; intros i w.
  - exists []. cbn. rewrite Nat.add_0_r. destruct w. done.
  - cbn [build_steps]. run_monad.
    destruct (IH (S i)
                (mkWorld (session w) (audit_entries w) (clock w)
                   (clock_reads w) (uuid_stream w) (S (uuid_draws w))))
      as (steps & Hrun & Hlen & Hk).
    rewrite Hrun. cbn. eexists. split; [| split].
    + do 2 f_equal. lia.
    + cbn. by rewrite Hlen.
    + intros [|k] d' Hd'.
      * cbn in Hd'. injection Hd' as <-. cbn -[decimal].
        by rewrite !Nat.add_0_r.
      * refine (eq_trans (Hk k d' Hd') _). cbn -[decimal Nat.add Z.of_nat].
        replace (S (uuid_draws w) + k)%nat with (uuid_draws w + S k)%nat
          by lia.
        replace (S i + k)%nat with (i + S k)%nat by lia. done.
Qed.

End CreateFacts.

(** X13. [create_plan] never fails and checks nothing: for any list of
    step definitions, the empty one included, it stores under a fresh id a
    draft plan with one pending step per definition, in the same order,
    numbered from 1; a missing description becomes "Step n", a missing
    operation or expected outcome the empty text, a missing rollback
    action none. Plans stored under other ids are untouched. *)
Theorem create_plan_builds_pending_steps (name description : string)
    (assessment : Assessment.t) (defs : list PlanController.StepDef)
    (w : World) :
  ∃ plan w',
    PlanController.create_plan name description assessment defs w
      = (Ok plan, w')
    ∧ Lifecycle.plan_of w' (Plan.id plan) = Some plan
    ∧ (∀ pid, pid ≠ Plan.id plan →
         Lifecycle.plan_of w' pid = Lifecycle.plan_of w pid)
    ∧ Plan.status plan = DRAFT
    ∧ Plan.completed_at plan = None
    ∧ Plan.current_step_index plan = 0%Z
    ∧ Plan.assessment_id plan = Assessment.id assessment
    ∧ length (Plan.steps plan) = length defs
    ∧ ∀ k d, defs !! k = Some d →
        ∃ s, Plan.steps plan !! k = Some s
             ∧ PlanStep.order s = (Z.of_nat k + 1)%Z
             ∧ PlanStep.status s = PENDING
             ∧ PlanStep.description s
               = default ("Step " ++ PlanController.decimal (k + 1))%string
                         (PlanController.def_description d)
             ∧ PlanStep.operation s
               = default "" (PlanController.def_operation d)
             ∧ PlanStep.expected_outcome s
               = default "" (PlanController.def_expected_outcome d)
             ∧ PlanStep.rollback_action s
               = PlanController.def_rollback_action d
             ∧ PlanStep.result s = None
             ∧ PlanStep.error s = None
             ∧ PlanStep.executed_at s = None.
Proof.
  unfold PlanController.create_plan.
  destruct (build_steps_lookup defs 0 w) as (steps & Hrun & Hlen & Hk).
  run_monad. rewrite Hrun. cbn. eexists _, _. split; [reflexivity |].
  unfold Lifecycle.plan_of. cbn.
  split; [by rewrite lookup_insert_eq |].
  split; [intros pid Hne; by rewrite lookup_insert_ne |].
  repeat (split; [done |]).
  intros k d Hd. eexists. split; [by apply Hk |]. cbn. done.
Qed.

Section CompleteFacts.
Import SessionManager Session PlanController Lifecycle.

(** What [complete_step] does to the plan when it finds the step. *)
Lemma complete_step_effect (w : World) (pid sid r : string) (plan : Plan.t)
    (i : nat) (st : PlanStep.t) :
  plan_of w pid = Some plan →
  find_step sid (Plan.steps plan) = Some (i, st) →
  ∃ st' plan',
    plan_of (run_op (CompleteStep pid sid r) w) pid = Some plan'
    ∧ PlanStep.id st' = PlanStep.id st
    ∧ PlanStep.status st' = COMPLETED
    ∧ Plan.steps plan' = <[i := st']> (Plan.steps plan)
    ∧ (forallb step_done (Plan.steps plan') = true →
       Plan.status plan' = PLAN_COMPLETED ∧ stamped plan').
Proof.
  unfold plan_of. intros Hp Hf. cbn [run_op].
  unfold complete_step, update_step_status. run_monad.
  repeat (first [rewrite Hp | rewrite Hf | rewrite lookup_insert_eq]; cbn).
  destruct (forallb step_done _) eqn:Hall; cbn.
  - rewrite insert_insert_eq, lookup_insert_eq.
    exists (PlanStep.set_executed_at (Some (clock w (clock_reads w)))
              (PlanStep.set_error None
                 (PlanStep.set_result (Some r)
                    (PlanStep.set_status COMPLETED st)))).
    eexists. split; [reflexivity |]. cbn.
    do 3 (split; [done |]). intros _. split; [done | by eexists].
  - rewrite lookup_insert_eq.
    exists (PlanStep.set_executed_at (Some (clock w (clock_reads w)))
              (PlanStep.set_error None
                 (PlanStep.set_result (Some r)
                    (PlanStep.set_status COMPLETED st)))).
    eexists. split; [reflexivity |]. cbn.
    do 3 (split; [done |]). intros Hall'. congruence.
Qed.

(** After completing the steps named in [l], every step whose id is in [l]
    is completed; if the last call found all steps done, the plan is
    completed. *)
Lemma complete_all_invariant (w : World) (pid r : string) (plan : Plan.t)
    (l : list string) :
  plan_of w pid = Some plan →
  NoDup (map PlanStep.id (Plan.steps plan)) →
  (∀ sid, In sid l → In sid (map PlanStep.id (Plan.steps plan))) →
  ∃ plan',
    plan_of (run_ops (PlanQueries.complete_all pid r l) w) pid = Some plan'
    ∧ map PlanStep.id (Plan.steps plan') = map PlanStep.id (Plan.steps plan)
    ∧ (∀ j s, Plan.steps plan' !! j = Some s → In (PlanStep.id s) l →
         PlanStep.status s = COMPLETED)
    ∧ (l ≠ [] → forallb step_done (Plan.steps plan') = true →
       Plan.status plan' = PLAN_COMPLETED ∧ stamped plan').
Proof.
  intros Hp Hnd. induction l as [|x l IH] using rev_ind; intros Hl.
  - exists plan. cbn. repeat split; done.
  - destruct IH as (plan1 & Hp1 & Hids & Hdone & _).
    { intros sid Hs. apply Hl, in_or_app. by left. }
    unfold PlanQueries.complete_all. rewrite map_app, run_ops_app.
    fold (PlanQueries.complete_all pid r l). cbn [map run_ops fold_left].
    destruct (find_step_some x (Plan.steps plan1)) as (i & st & Hf).
    { rewrite Hids. apply Hl, in_or_app. right. by left. }
    destruct (complete_step_effect _ pid x r plan1 i st Hp1 Hf)
      as (st' & plan2 & Hp2 & Hid' & Hst' & Hsteps & Hfin).
    destruct (find_step_lookup _ _ _ _ Hf) as [Hi Hidx].
    exists plan2. split; [exact Hp2 |].
    split.
    { rewrite Hsteps, <- Hids. by eapply map_insert_same. }
    split.
    + intros j s Hj Hin. rewrite Hsteps in Hj.
      destruct (decide (i = j)) as [<- | Hne].
      * rewrite list_lookup_insert_eq in Hj by (by eapply lookup_lt_Some).
        by injection Hj as <-.
      * rewrite list_lookup_insert_ne in Hj by done.
        apply in_app_or in Hin as [Hin | [Hx | []]];
          [by eapply Hdone |].
        exfalso. apply Hne.
        rewrite <- Hids in Hnd.
        eapply (NoDup_lookup _ i j x Hnd).
        -- by rewrite list_lookup_fmap, Hi; cbn; rewrite Hidx.
        -- by rewrite list_lookup_fmap, Hj; cbn; rewrite Hx.
    + intros _. exact Hfin.
Qed.

End CompleteFacts.

(** X14. Completing every step of a plan completes the plan: if the step
    ids of a stored, non-empty plan are distinct, then after [complete_step]
    has been called for each of them, in any order and from any plan
    status, all steps are completed, the plan status is completed and its
    completion timestamp is set. *)
Theorem completing_every_step_completes_the_plan (w : World)
    (pid result : string) (plan : Plan.t) (order : list string) :
  Lifecycle.plan_of w pid = Some plan →
  NoDup (map PlanStep.id (Plan.steps plan)) →
  Plan.steps plan ≠ [] →
  (∀ sid, In sid order ↔ In sid (map PlanStep.id (Plan.steps plan))) →
  ∃ plan',
    Lifecycle.plan_of
      (Lifecycle.run_ops (PlanQueries.complete_all pid result order) w) pid
    = Some plan'
    ∧ Plan.status plan' = PLAN_COMPLETED
    ∧ Lifecycle.stamped plan'
    ∧ Forall (fun s => PlanStep.status s = COMPLETED) (Plan.steps plan').
Proof.
  intros Hp Hnd Hne Horder.
  destruct (complete_all_invariant w pid result plan order Hp Hnd)
    as (plan' & Hp' & Hids & Hdone & Hfin).
  { intros sid. apply Horder. }
  assert (Hall : Forall (fun s => PlanStep.status s = COMPLETED)
                        (Plan.steps plan')).
  { apply Forall_lookup. intros j s Hj. apply (Hdone j s Hj).
    apply Horder. rewrite <- Hids. apply in_map.
    apply list_elem_of_In. by eapply list_elem_of_lookup_2. }
  exists plan'. split; [exact Hp' |].
  assert (Hcompleted : Plan.status plan' = PLAN_COMPLETED
                       ∧ Lifecycle.stamped plan').
  { apply Hfin.
    - intros ->. destruct (Plan.steps plan) as [|s0 l0]; [done |].
      assert (In (PlanStep.id s0) []) as []. apply Horder. by left.
    - apply forallb_forall. intros s Hs.
      apply list_elem_of_In in Hs.
      rewrite Forall_forall in Hall. unfold PlanController.step_done.
      by rewrite (Hall s Hs). }
  destruct Hcompleted. done.
Qed.

(** The four steps of the sample plan, completed last step first. *)
Lemma completing_every_step_completes_the_plan_witness :
  ∃ plan',
    Lifecycle.plan_of (Lifecycle.run_ops complete_backwards four_steps) "id-4"
    = Some plan'
    ∧ Plan.status plan' = PLAN_COMPLETED
    ∧ Lifecycle.stamped plan'
    ∧ Forall (fun s => PlanStep.status s = COMPLETED) (Plan.steps plan').
Proof.
  destruct (Lifecycle.plan_of four_steps "id-4") as [plan|] eqn:Hp;
    [| vm_compute in Hp; discriminate].
  assert (Hids : map PlanStep.id (Plan.steps plan)
                 = ["id-0"; "id-1"; "id-2"; "id-3"]).
  { vm_compute in Hp. injection Hp as <-. reflexivity. }
  apply (completing_every_step_completes_the_plan four_steps "id-4" "ok" plan
           ["id-3"; "id-2"; "id-1"; "id-0"] Hp).
  - rewrite Hids. apply (bool_decide_unpack _). vm_compute. exact I.
  - intros Hnil. rewrite Hnil in Hids. discriminate.
  - intros sid. rewrite Hids. cbn. tauto.
Defined.

(** X15. [approve_step] and [deny_step] act on one step only: for a stored
    plan and the first step that carries the id, they record an Approval
    of kind "step" for that id (positive for approve, negative for deny),
    set the status of that step to approved or denied, and change nothing
    else of the plan but its update time: the plan status, its completion
    timestamp and the other steps stay as they were. *)
Theorem step_decision_touches_one_step (w : World) (pid sid : string)
    (reason : option string) (plan : Plan.t) (i : nat) (step : PlanStep.t) :
  Lifecycle.plan_of w pid = Some plan →
  Plan.steps plan !! i = Some step →
  PlanStep.id step = sid →
  (∀ j s, j < i → Plan.steps plan !! j = Some s → PlanStep.id s ≠ sid) →
  ∀ (approved : bool),
    let call :=
      if approved then PlanController.approve_step
      else PlanController.deny_step in
    let status := if approved then APPROVED else DENIED in
    ∃ approval w',
      call pid sid reason w
        = (Ok (Some (PlanStep.set_status status step), Some approval), w')
      ∧ Approval.target_type approval = "step"
      ∧ Approval.target_id approval = sid
      ∧ Approval.approved approval = approved
      ∧ Approval.reason approval = reason
      ∧ SessionManager.approvals (session w') !! Approval.id approval
        = Some approval
      ∧ Lifecycle.plan_of w' pid
        = Some (Plan.set_updated_at (clock w (S (clock_reads w)))
                  (Plan.set_steps
                     (<[i := PlanStep.set_status status step]>
                        (Plan.steps plan))
                     plan)).
Proof.
  intros Hp Hi Hid Hfirst approved. unfold Lifecycle.plan_of in *.
  pose proof (find_step_first _ _ _ _ Hi Hid Hfirst) as Hfind.
  destruct approved; cbn zeta;
    unfold PlanController.approve_step, PlanController.deny_step,
      PlanController.decide_step, PlanController.new_approval;
    run_monad; rewrite Hp; cbn; rewrite Hfind; cbn;
    eexists _, _; (split; [reflexivity |]); cbn;
    rewrite !lookup_insert_eq; done.
Qed.

(** Denying the second step of the approved sample plan leaves the plan in
    progress. *)
Lemma step_decision_touches_one_step_witness :
  ∃ plan step approval w',
    Lifecycle.plan_of (Lifecycle.run_op (Lifecycle.ApprovePlan "id-4" None)
                                        four_steps) "id-4"
    = Some plan
    ∧ Plan.status plan = IN_PROGRESS
    ∧ PlanController.deny_step "id-4" "id-1" (Some "too risky")
        (Lifecycle.run_op (Lifecycle.ApprovePlan "id-4" None) four_steps)
      = (Ok (Some (PlanStep.set_status DENIED step), Some approval), w')
    ∧ Approval.approved approval = false
    ∧ (Plan.status <$> Lifecycle.plan_of w' "id-4") = Some IN_PROGRESS.
Proof.
  set (w := Lifecycle.run_op (Lifecycle.ApprovePlan "id-4" None) four_steps).
  destruct (Lifecycle.plan_of w "id-4") as [plan|] eqn:Hp;
    [| vm_compute in Hp; discriminate].
  destruct (Plan.steps plan !! 1) as [step|] eqn:Hs;
    [| vm_compute in Hp; injection Hp as <-; vm_compute in Hs; discriminate].
  assert (Hst : Plan.status plan = IN_PROGRESS).
  { vm_compute in Hp. injection Hp as <-. reflexivity. }
  destruct (step_decision_touches_one_step w "id-4" "id-1" (Some "too risky")
              plan 1 step Hp Hs) with (approved := false)
    as (approval & w' & Hrun & _ & _ & Hflag & _ & _ & Hp').
  - vm_compute in Hp. injection Hp as <-. vm_compute in Hs.
    injection Hs as <-. reflexivity.
  - intros j s Hj Hjs. assert (j = 0)%nat as -> by lia.
    vm_compute in Hp. injection Hp as <-. vm_compute in Hjs.
    injection Hjs as <-. discriminate.
  - exists plan, step, approval, w'.
    split; [reflexivity |]. split; [exact Hst |].
    split; [exact Hrun |]. split; [exact Hflag |].
    rewrite Hp'. cbn. by rewrite Hst.
Defined.

Section AbortFacts.
Import SessionManager Session PlanController Lifecycle.

Lemma skip_remaining_idem (s : PlanStep.t) :
  skip_remaining (skip_remaining s) = skip_remaining s.
Proof.
  unfold skip_remaining. destruct (PlanStep.status s) eqn:Hst; cbn;
    by rewrite ?Hst.
Qed.

Lemma collect_suggestion_skipped (acc : list Suggestion) (s : PlanStep.t) :
  collect_suggestion acc (skip_remaining s) = collect_suggestion acc s.
Proof.
  unfold collect_suggestion, skip_remaining.
  by destruct (PlanStep.status s) eqn:Hst; cbn; rewrite ?Hst.
Qed.

Lemma collect_after_skip (steps : list PlanStep.t) (acc : list Suggestion) :
  fold_left collect_suggestion (map skip_remaining steps) acc
  = fold_left collect_suggestion steps acc.
Proof.
  revert acc. induction steps as [|s steps IH]; intros acc; [done |].
  cbn [map fold_left]. by rewrite collect_suggestion_skipped, IH.
Qed.

Lemma skip_remaining_settled (steps : list PlanStep.t) :
  Forall (fun s => PlanStep.status s ≠ PENDING
                   ∧ PlanStep.status s ≠ APPROVED)
         (map skip_remaining steps).
Proof.
  induction steps as [|s steps IH]; cbn; constructor; [| done].
  unfold skip_remaining. by destruct (PlanStep.status s) eqn:Hst; cbn;
    rewrite ?Hst.
Qed.

(** The outcome of [abort_plan] on a stored plan. *)
Lemma abort_plan_runs (w : World) (pid : string) (plan : Plan.t)
    (reason : option string) :
  plans (session w) !! pid = Some plan →
  ∃ res w' plan',
    abort_plan pid reason w = (Ok (Some res), w')
    ∧ plans (session w') !! pid = Some plan'
    ∧ Plan.steps plan' = map skip_remaining (Plan.steps plan)
    ∧ Plan.status plan' = ABORTED
    ∧ rollback_suggestions res
      = rev (fold_left collect_suggestion (Plan.steps plan) [])
    ∧ completed_steps res = count_status COMPLETED (Plan.steps plan')
    ∧ skipped_steps res = count_status SKIPPED (Plan.steps plan').
Proof.
  intros Hp. unfold abort_plan. run_monad. rewrite Hp. cbn -[count_status].
  eexists _, _, _. split; [reflexivity |]. cbn -[count_status].
  rewrite lookup_insert_eq.
  split; [reflexivity |]. cbn -[count_status]. repeat split; reflexivity.
Qed.

End AbortFacts.

(** X16. Aborting is idempotent on the steps: after [abort_plan] no step of
    the plan is pending or approved, and a second [abort_plan] leaves every
    step as it is and returns the same rollback suggestions and the same
    counts as the first; only the timestamps of the plan are written
    again. *)
Theorem abort_plan_twice (w : World) (pid : string) (plan : Plan.t)
    (reason reason' : option string) :
  Lifecycle.plan_of w pid = Some plan →
  ∃ res1 w1 plan1 res2 w2 plan2,
    PlanController.abort_plan pid reason w = (Ok (Some res1), w1)
    ∧ Lifecycle.plan_of w1 pid = Some plan1
    ∧ Forall (fun s => PlanStep.status s ≠ PENDING
                       ∧ PlanStep.status s ≠ APPROVED)
             (Plan.steps plan1)
    ∧ PlanController.abort_plan pid reason' w1 = (Ok (Some res2), w2)
    ∧ Lifecycle.plan_of w2 pid = Some plan2
    ∧ Plan.steps plan2 = Plan.steps plan1
    ∧ Plan.status plan2 = ABORTED
    ∧ PlanController.rollback_suggestions res2
      = PlanController.rollback_suggestions res1
    ∧ PlanController.completed_steps res2
      = PlanController.completed_steps res1
    ∧ PlanController.skipped_steps res2
      = PlanController.skipped_steps res1.
Proof.
  intros Hp. unfold Lifecycle.plan_of in *.
  destruct (abort_plan_runs w pid plan reason Hp)
    as (res1 & w1 & plan1 & Hrun1 & Hp1 & Hsteps1 & _ & Hsug1 & Hc1 & Hs1).
  destruct (abort_plan_runs w1 pid plan1 reason' Hp1)
    as (res2 & w2 & plan2 & Hrun2 & Hp2 & Hsteps2 & Hst2 & Hsug2 & Hc2 & Hs2).
  assert (Hidem : Plan.steps plan2 = Plan.steps plan1).
  { rewrite Hsteps2, Hsteps1, map_map. apply map_ext. intros s.
    apply skip_remaining_idem. }
  exists res1, w1, plan1, res2, w2, plan2.
  split; [exact Hrun1 |]. split; [exact Hp1 |].
  split; [rewrite Hsteps1; apply skip_remaining_settled |].
  split; [exact Hrun2 |]. split; [exact Hp2 |].
  split; [exact Hidem |]. split; [exact Hst2 |].
  split; [rewrite Hsug2, Hsug1, Hsteps1, collect_after_skip; reflexivity |].
  split; [rewrite Hc2, Hc1, Hidem; reflexivity
         | rewrite Hs2, Hs1, Hidem; reflexivity].
Qed.

Lemma abort_plan_twice_witness :
  ∃ res1 w1 res2 w2,
    PlanController.abort_plan "id-4" None two_completed = (Ok (Some res1), w1)
    ∧ PlanController.abort_plan "id-4" (Some "again") w1
      = (Ok (Some res2), w2)
    ∧ PlanController.rollback_suggestions res2
      = PlanController.rollback_suggestions res1
    ∧ PlanController.skipped_steps res2 = PlanController.skipped_steps res1.
Proof.
  destruct (Lifecycle.plan_of two_completed "id-4") as [plan|] eqn:Hp;
    [| vm_compute in Hp; discriminate].
  destruct (abort_plan_twice two_completed "id-4" plan None (Some "again") Hp)
    as (res1 & w1 & plan1 & res2 & w2 & plan2 & H1 & _ & _ & H2 & _ & _ & _
        & Hsug & _ & Hskip).
  exists res1, w1, res2, w2.
  split; [exact H1 |]. split; [exact H2 |]. split; [exact Hsug | exact Hskip].
Defined.

(** X17. Every status update of a step overwrites its result and its
    error: [start_step_execution] sets the step to executing and clears
    both, without touching its execution time; [complete_step] records the
    result, clears the error and stamps the execution time; [fail_step]
    records the error, clears the result and stamps the execution time. *)
Theorem step_update_overwrites_result_and_error (w : World)
    (pid sid text : string) (plan : Plan.t) (i : nat) (step : PlanStep.t) :
  Lifecycle.plan_of w pid = Some plan →
  Plan.steps plan !! i = Some step →
  PlanStep.id step = sid →
  (∀ j s, j < i → Plan.steps plan !! j = Some s → PlanStep.id s ≠ sid) →
  (∃ w',
     PlanController.start_step_execution pid sid w
     = (Ok (Some (PlanStep.set_error None
                    (PlanStep.set_result None
                       (PlanStep.set_status EXECUTING step)))), w'))
  ∧ (∃ w',
       PlanController.complete_step pid sid text w
       = (Ok (Some (PlanStep.set_executed_at
                      (Some (clock w (clock_reads w)))
                      (PlanStep.set_error None
                         (PlanStep.set_result (Some text)
                            (PlanStep.set_status COMPLETED step))))), w'))
  ∧ (∃ w',
       PlanController.fail_step pid sid text w
       = (Ok (Some (PlanStep.set_executed_at
                      (Some (clock w (clock_reads w)))
                      (PlanStep.set_error (Some text)
                         (PlanStep.set_result None
                            (PlanStep.set_status FAILED step))))), w')).
Proof.
  intros Hp Hi Hid Hfirst. unfold Lifecycle.plan_of in *.
  pose proof (find_step_first _ _ _ _ Hi Hid Hfirst) as Hfind.
  split; [| split].
  - unfold PlanController.start_step_execution, Session.update_step_status.
    run_monad. rewrite Hp. cbn. rewrite Hfind. cbn. by eexists.
  - unfold PlanController.complete_step, Session.update_step_status.
    run_monad.
    repeat (first [rewrite Hp | rewrite Hfind | rewrite lookup_insert_eq];
            cbn).
    destruct (forallb PlanController.step_done _); cbn; by eexists.
  - unfold PlanController.fail_step, Session.update_step_status.
    run_monad.
    repeat (first [rewrite Hp | rewrite Hfind | rewrite lookup_insert_eq];
            cbn).
    by eexists.
Qed.

(** Starting again the completed first step of the aborted sample plan
    wipes its result. *)
Lemma step_update_overwrites_result_and_error_witness :
  ∃ plan step step' w',
    Lifecycle.plan_of aborted_plan "id-4" = Some plan
    ∧ Plan.steps plan !! 0 = Some step
    ∧ PlanStep.result step = Some "done"
    ∧ PlanController.start_step_execution "id-4" "id-0" aborted_plan
      = (Ok (Some step'), w')
    ∧ PlanStep.status step' = EXECUTING
    ∧ PlanStep.result step' = None
    ∧ PlanStep.executed_at step' = PlanStep.executed_at step.
Proof.
  destruct (Lifecycle.plan_of aborted_plan "id-4") as [plan|] eqn:Hp;
    [| vm_compute in Hp; discriminate].
  destruct (Plan.steps plan !! 0) as [step|] eqn:Hs;
    [| vm_compute in Hp; injection Hp as <-; vm_compute in Hs; discriminate].
  assert (Hstep : PlanStep.id step = "id-0" ∧ PlanStep.result step = Some "done").
  { vm_compute in Hp. injection Hp as <-. vm_compute in Hs.
    injection Hs as <-. split; reflexivity. }
  destruct Hstep as [Hid Hres].
  destruct (step_update_overwrites_result_and_error aborted_plan "id-4" "id-0"
              "" plan 0 step Hp Hs Hid)
    as ((w' & Hrun) & _).
  { intros j s Hj. lia. }
  eexists plan, step, _, w'.
  split; [reflexivity |]. split; [exact Hs |]. split; [exact Hres |].
  split; [exact Hrun |]. repeat split.
Defined.

Section StatusFacts.
Import SessionManager Session PlanController Lifecycle PlanQueries.

Lemma step_status_value_inj (a b : StepStatus) :
  step_status_value a = step_status_value b → a = b.
Proof. destruct a, b; cbn; intros H; try done; discriminate. Qed.

(** The tally of a status, from any starting dictionary. *)
Lemma tally_counts (status : StepStatus) (steps : list PlanStep.t)
    (summary : gmap string nat) (n : nat) :
  summary !! step_status_value status = Some n →
  fold_left tally steps summary !! step_status_value status
  = Some (n + length (List.filter (AbortSpec.has_status status) steps))%nat.
Proof.
  revert summary n. induction steps as [|s steps IH]; intros summary n Hn.
  - cbn. rewrite Hn. f_equal. lia.
  - cbn [fold_left List.filter]. unfold AbortSpec.has_status at 1.
    destruct (decide (PlanStep.status s = status)) as [Heq | Hne].
    + rewrite bool_decide_eq_true_2 by done.
      rewrite (IH _ (n + 1)%nat).
      * cbn [length]. f_equal. lia.
      * unfold tally. rewrite Heq, lookup_insert_eq, Hn. done.
    + rewrite bool_decide_eq_false_2 by done.
      apply IH. unfold tally. rewrite lookup_insert_ne; [done |].
      intros H. by apply step_status_value_inj in H.
Qed.

Lemma has_status_cons (status : StepStatus) (s : PlanStep.t)
    (steps : list PlanStep.t) :
  length (List.filter (AbortSpec.has_status status) (s :: steps))
  = ((if bool_decide (PlanStep.status s = status) then 1 else 0)
     + length (List.filter (AbortSpec.has_status status) steps))%nat.
Proof.
  cbn [List.filter]. unfold AbortSpec.has_status at 1.
  by destruct (bool_decide _).
Qed.

(** Every step has one status. *)
Lemma statuses_partition (steps : list PlanStep.t) :
  (length (List.filter (AbortSpec.has_status PENDING) steps)
   + length (List.filter (AbortSpec.has_status APPROVED) steps)
   + length (List.filter (AbortSpec.has_status DENIED) steps)
   + length (List.filter (AbortSpec.has_status EXECUTING) steps)
   + length (List.filter (AbortSpec.has_status COMPLETED) steps)
   + length (List.filter (AbortSpec.has_status FAILED) steps)
   + length (List.filter (AbortSpec.has_status SKIPPED) steps))%nat
  = length steps.
Proof.
  induction steps as [|s steps IH]; [done |].
  rewrite !has_status_cons. cbn [length].
  destruct (PlanStep.status s);
    repeat first [ rewrite bool_decide_eq_true_2 by reflexivity
                 | rewrite bool_decide_eq_false_2 by discriminate ];
    lia.
Qed.

Lemma create_plan_index (name description : string)
    (assessment : Assessment.t) (defs : list StepDef) (w : World) :
  ∃ plan w',
    create_plan name description assessment defs w = (Ok plan, w')
    ∧ plan_of w' (Plan.id plan) = Some plan
    ∧ Plan.current_step_index plan = 0%Z.
Proof.
  unfold create_plan.
  destruct (build_steps_runs defs 0 w) as (steps & w1 & Hrun & _).
  run_monad. rewrite Hrun. cbn. eexists _, _. split; [reflexivity |].
  unfold plan_of. cbn. by rewrite lookup_insert_eq.
Qed.

Lemma get_plan_status_runs (w : World) (pid : string) (plan : Plan.t) :
  plan_of w pid = Some plan →
  ∃ report,
    get_plan_status pid w = (Ok (Some report), w)
    ∧ PlanQueries.plan report = plan
    ∧ current_step report = Plan.get_current_step plan
    ∧ step_summary report = fold_left tally (Plan.steps plan) empty_summary
    ∧ progress report
      = (decimal (default 0%nat (step_summary report !! "completed"))
         ++ "/" ++ decimal (length (Plan.steps plan)))%string
    ∧ is_active report
      = match Plan.status plan with
        | AWAITING_APPROVAL | IN_PROGRESS => true
        | _ => false
        end.
Proof.
  unfold plan_of. intros Hp. unfold get_plan_status. run_monad.
  rewrite Hp. cbv [mret M_ret ret]. eexists. split; [reflexivity |].
  repeat split; reflexivity.
Qed.

End StatusFacts.

(** X18. [get_plan_status] reads the state without changing it. For each
    of the seven step statuses its summary holds the number of steps in
    that status, so the seven counts add up to the number of steps; the
    progress text is the number of completed steps over the number of
    steps; and the plan is reported active exactly when it is awaiting
    approval or in progress. *)
Theorem plan_status_summary_counts_steps (w : World) (pid : string)
    (plan : Plan.t) :
  Lifecycle.plan_of w pid = Some plan →
  ∃ report,
    PlanQueries.get_plan_status pid w = (Ok (Some report), w)
    ∧ (∀ status,
         PlanQueries.step_summary report
           !! PlanQueries.step_status_value status
         = Some (PlanQueries.steps_in status plan))
    ∧ (PlanQueries.steps_in PENDING plan + PlanQueries.steps_in APPROVED plan
       + PlanQueries.steps_in DENIED plan + PlanQueries.steps_in EXECUTING plan
       + PlanQueries.steps_in COMPLETED plan
       + PlanQueries.steps_in FAILED plan
       + PlanQueries.steps_in SKIPPED plan)%nat
      = length (Plan.steps plan)
    ∧ PlanQueries.progress report
      = (PlanController.decimal (PlanQueries.steps_in COMPLETED plan)
         ++ "/" ++ PlanController.decimal (length (Plan.steps plan)))%string
    ∧ (PlanQueries.is_active report = true
       ↔ Plan.status plan = AWAITING_APPROVAL
         ∨ Plan.status plan = IN_PROGRESS).
Proof.
  intros Hp.
  destruct (get_plan_status_runs w pid plan Hp)
    as (report & Hrun & _ & _ & Hsum & Hprog & Hact).
  assert (Hcount : ∀ status,
    PlanQueries.step_summary report !! PlanQueries.step_status_value status
    = Some (PlanQueries.steps_in status plan)).
  { intros status. rewrite Hsum.
    rewrite (tally_counts status _ _ 0%nat); [done |].
    by destruct status. }
  exists report. split; [exact Hrun |]. split; [exact Hcount |].
  split; [apply statuses_partition |].
  split.
  - rewrite Hprog.
    change "completed" with (PlanQueries.step_status_value COMPLETED).
    by rewrite Hcount.
  - rewrite Hact.
    destruct (Plan.status plan); split; intros H;
      first [ reflexivity | by left | by right | discriminate
            | destruct H; discriminate ].
Qed.

Lemma plan_status_summary_counts_steps_witness :
  ∃ report,
    PlanQueries.get_plan_status "id-4" aborted_plan
      = (Ok (Some report), aborted_plan)
    ∧ PlanQueries.progress report = "1/4"
    ∧ PlanQueries.step_summary report !! "skipped" = Some 1%nat
    ∧ PlanQueries.step_summary report !! "pending" = Some 0%nat.
Proof.
  destruct (Lifecycle.plan_of aborted_plan "id-4") as [plan|] eqn:Hp;
    [| vm_compute in Hp; discriminate].
  destruct (plan_status_summary_counts_steps aborted_plan "id-4" plan Hp)
    as (report & Hrun & Hcount & _ & Hprog & _).
  exists report. split; [exact Hrun |].
  vm_compute in Hp. injection Hp as <-.
  split; [rewrite Hprog; vm_compute; reflexivity |].
  split.
  - refine (eq_trans (Hcount SKIPPED) _). vm_compute. reflexivity.
  - refine (eq_trans (Hcount PENDING) _). vm_compute. reflexivity.
Defined.

(** X19. The plan controller never advances the current-step pointer: in
    every state reached from a freshly created plan by calls of the nine
    operations, the index is 0 and [get_plan_status] reports the first
    step of the plan as the current step, whatever has been executed (and
    no current step for a plan without steps). *)
Theorem current_step_is_always_the_first (w0 : World)
    (name description : string) (assessment : Assessment.t)
    (defs : list PlanController.StepDef) (plan0 : Plan.t) (w1 : World)
    (ops : list Lifecycle.Op) :
  PlanController.create_plan name description assessment defs w0
    = (Ok plan0, w1) →
  ∃ plan report,
    Lifecycle.plan_of (Lifecycle.run_ops ops w1) (Plan.id plan0) = Some plan
    ∧ Plan.current_step_index plan = 0%Z
    ∧ PlanQueries.get_plan_status (Plan.id plan0) (Lifecycle.run_ops ops w1)
      = (Ok (Some report), Lifecycle.run_ops ops w1)
    ∧ PlanQueries.current_step report = Plan.steps plan !! 0%nat
    ∧ map PlanStep.id (Plan.steps plan) = map PlanStep.id (Plan.steps plan0).
Proof.
  intros Hcreate.
  destruct (create_plan_index name description assessment defs w0)
    as (p & w' & Hrun & Hstored & Hidx).
  rewrite Hcreate in Hrun. injection Hrun as <- <-.
  pose proof (run_ops_keep_frame ops w1 (Plan.id plan0)) as Hframe.
  rewrite Hstored in Hframe.
  destruct Hframe as (plan & Hp & Hf).
  destruct Hf as (_ & _ & _ & _ & _ & Hi & Hsteps).
  destruct (get_plan_status_runs _ _ _ Hp)
    as (report & Hstatus & _ & Hcur & _).
  exists plan, report. split; [exact Hp |].
  split; [by rewrite Hi |]. split; [exact Hstatus |].
  split.
  - rewrite Hcur. unfold Plan.get_current_step. rewrite Hi, Hidx.
    case_decide as Hrange; [done |].
    destruct (Plan.steps plan); [done |]. cbn in Hrange. lia.
  - apply (f_equal (map (fun d => fst (fst (fst (fst (fst d))))))) in Hsteps.
    by rewrite !map_map in Hsteps.
Qed.

(** After all four steps of the sample plan are completed, the current
    step is still the first one. *)
Lemma current_step_is_always_the_first_witness :
  ∃ plan0 w1 plan report,
    PlanController.create_plan "cleanup" "purge stale sessions"
      sample_assessment four_step_defs Lifecycle.boot
    = (Ok plan0, w1)
    ∧ Lifecycle.plan_of (Lifecycle.run_ops complete_backwards w1)
        (Plan.id plan0)
      = Some plan
    ∧ Plan.current_step_index plan = 0%Z
    ∧ PlanQueries.get_plan_status (Plan.id plan0)
        (Lifecycle.run_ops complete_backwards w1)
      = (Ok (Some report), Lifecycle.run_ops complete_backwards w1)
    ∧ PlanQueries.current_step report = Plan.steps plan !! 0%nat
    ∧ map PlanStep.id (Plan.steps plan) = map PlanStep.id (Plan.steps plan0).
Proof.
  destruct (PlanController.create_plan "cleanup" "purge stale sessions"
              sample_assessment four_step_defs Lifecycle.boot)
    as [[plan0 | e] w1] eqn:Hc; [| vm_compute in Hc; discriminate].
  destruct (current_step_is_always_the_first _ _ _ _ _ plan0 w1
              complete_backwards Hc)
    as (plan & report & H).
  by exists plan0, w1, plan, report.
Defined.

Section AdvanceFacts.
Import PlanQueries.

Lemma get_current_step_lookup (p : Plan.t) :
  (0 <= Plan.current_step_index p)%Z →
  Plan.get_current_step p
  = Plan.steps p !! Z.to_nat (Plan.current_step_index p).
Proof.
  intros H0. unfold Plan.get_current_step.
  case_decide as Hrange; [done |].
  symmetry. apply lookup_ge_None. lia.
Qed.

Lemma advance_to_next_step_runs (p : Plan.t) (w : World) :
  ∃ p' w',
    advance_to_next_step p w = (Ok (p', Plan.get_current_step p'), w')
    ∧ Plan.current_step_index p' = (Plan.current_step_index p + 1)%Z
    ∧ Plan.steps p' = Plan.steps p
    ∧ clock_reads w' = S (clock_reads w).
Proof.
  unfold advance_to_next_step. run_monad. by eexists _, _.
Qed.

End AdvanceFacts.

(** X20. [Plan.advance_to_next_step] walks the steps in order: called [n]
    times on a plan whose index is not negative, it moves the index forward
    by [n], reads the clock [n] times, leaves the steps alone and returns
    the step at the new index, or nothing once the index has passed the
    last step. *)
Theorem advance_walks_the_steps (n : nat) (plan : Plan.t) (w : World) :
  (0 <= Plan.current_step_index plan)%Z →
  ∃ plan' w',
    PlanQueries.advance_times n plan w
    = (Ok (plan',
           Plan.steps plan
             !! (Z.to_nat (Plan.current_step_index plan) + n)%nat), w')
    ∧ Plan.current_step_index plan'
      = (Plan.current_step_index plan + Z.of_nat n)%Z
    ∧ Plan.steps plan' = Plan.steps plan
    ∧ clock_reads w' = (clock_reads w + n)%nat.
Proof.
  revert plan w. induction n as [|n IH]; intros plan w H0.
  - exists plan, w. cbn [PlanQueries.advance_times]. cbv [mret M_ret ret].
    rewrite get_current_step_lookup by done.
    rewrite Nat.add_0_r, Z.add_0_r, Nat.add_0_r. done.
  - destruct (advance_to_next_step_runs plan w)
      as (p1 & w1 & Hrun & Hidx & Hsteps & Hreads).
    cbn [PlanQueries.advance_times]. cbv [mbind M_bind bind].
    rewrite Hrun. cbn [fst].
    destruct n as [|m].
    + exists p1, w1. cbv [mret M_ret ret].
      rewrite get_current_step_lookup by lia.
      rewrite Hidx, Hsteps.
      replace (Z.to_nat (Plan.current_step_index plan + 1))
        with (Z.to_nat (Plan.current_step_index plan) + 1)%nat by lia.
      split; [done |]. split; [lia |]. split; [done | lia].
    + destruct (IH p1 w1) as (p2 & w2 & Hrun2 & Hidx2 & Hsteps2 & Hreads2);
        [lia |].
      exists p2, w2. rewrite Hrun2, Hsteps, Hidx.
      replace (Z.to_nat (Plan.current_step_index plan + 1) + S m)%nat
        with (Z.to_nat (Plan.current_step_index plan) + S (S m))%nat by lia.
      split; [done |].
      rewrite Hidx2, Hidx, Hsteps2, Hsteps, Hreads2, Hreads.
      split; [lia |]. split; [done | lia].
Qed.

(** On the sample plan of four steps, three calls return the last step and
    five calls return nothing. *)
Lemma advance_walks_the_steps_witness :
  ∃ plan p3 w3 p5 w5 step,
    Lifecycle.plan_of four_steps "id-4" = Some plan
    ∧ PlanQueries.advance_times 3 plan four_steps = (Ok (p3, Some step), w3)
    ∧ PlanStep.id step = "id-3"
    ∧ PlanQueries.advance_times 5 plan four_steps = (Ok (p5, None), w5).
Proof.
  destruct (Lifecycle.plan_of four_steps "id-4") as [plan|] eqn:Hp;
    [| vm_compute in Hp; discriminate].
  assert (H0 : (0 <= Plan.current_step_index plan)%Z).
  { vm_compute in Hp. injection Hp as <-. vm_compute. discriminate. }
  destruct (advance_walks_the_steps 3 plan four_steps H0)
    as (p3 & w3 & H3 & _).
  destruct (advance_walks_the_steps 5 plan four_steps H0)
    as (p5 & w5 & H5 & _).
  destruct (Plan.steps plan
              !! (Z.to_nat (Plan.current_step_index plan) + 3)%nat)
    as [step|] eqn:Hs3;
    [| vm_compute in Hp; injection Hp as <-; vm_compute in Hs3;
       discriminate].
  destruct (Plan.steps plan
              !! (Z.to_nat (Plan.current_step_index plan) + 5)%nat)
    as [step5|] eqn:Hs5;
    [vm_compute in Hp; injection Hp as <-; vm_compute in Hs5;
     discriminate |].
  exists plan, p3, w3, p5, w5, step.
  split; [reflexivity |]. split; [exact H3 |]. split; [| exact H5].
  vm_compute in Hp. injection Hp as <-. vm_compute in Hs3.
  injection Hs3 as <-. reflexivity.
Defined.

Section ApprovalFacts.
Import SessionQueries.

(** No later approval is newer than the best so far: the best stays. *)
Lemma latest_keeps (best : Approval.t) (rest : list Approval.t) :
  (∀ b, In b rest → (Approval.timestamp b <= Approval.timestamp best)%Z) →
  latest best rest = best.
Proof.
  unfold latest. induction rest as [|x rest IH]; intros Hle; [done |].
  cbn [fold_left].
  destruct (Z.ltb_spec (Approval.timestamp best) (Approval.timestamp x))
    as [Hlt | _].
  - specialize (Hle x (or_introl eq_refl)). lia.
  - apply IH. intros b Hb. apply Hle. by right.
Qed.

(** A strictly newer approval replaces every older one before it. *)
Lemma latest_skips (best a : Approval.t) (before after : list Approval.t) :
  (Approval.timestamp best < Approval.timestamp a)%Z →
  (∀ b, In b before → (Approval.timestamp b < Approval.timestamp a)%Z) →
  latest best (before ++ a :: after) = latest a after.
Proof.
  unfold latest. revert best.
  induction before as [|x before IH]; intros best Hbest Hlt; cbn [app fold_left].
  - destruct (Z.ltb_spec (Approval.timestamp best) (Approval.timestamp a));
      [done | lia].
  - apply IH.
    + destruct (_ <? _)%Z; [apply Hlt; by left | done].
    + intros b Hb. apply Hlt. by right.
Qed.

End ApprovalFacts.

(** X21. [is_approved] is false for a target with no recorded decision.
    Otherwise it is the flag of the decision of greatest timestamp among
    those recorded for the target; when several share the greatest
    timestamp, the one stored first decides. Decisions on other targets
    play no part. *)
Theorem is_approved_follows_latest_decision (values : list Approval.t)
    (target_type target_id : string) :
  (SessionQueries.get_approvals_for_target values target_type target_id = []
   → SessionQueries.is_approved values target_type target_id = false)
  ∧ (∀ before a after,
       SessionQueries.get_approvals_for_target values target_type target_id
         = before ++ a :: after →
       (∀ b, In b before →
             (Approval.timestamp b < Approval.timestamp a)%Z) →
       (∀ b, In b after →
             (Approval.timestamp b <= Approval.timestamp a)%Z) →
       SessionQueries.is_approved values target_type target_id
       = Approval.approved a).
Proof.
  unfold SessionQueries.is_approved. split.
  - by intros ->.
  - intros before a after -> Hbefore Hafter.
    destruct before as [|first before]; cbn [app].
    + by rewrite latest_keeps.
    + rewrite latest_skips.
      * by rewrite latest_keeps.
      * apply Hbefore. by left.
      * intros b Hb. apply Hbefore. by right.
Qed.

(** "plan-1" was approved, then denied, and an approval with an older
    timestamp was stored last: the denial stands. "plan-3" has no
    decision. *)
Lemma is_approved_follows_latest_decision_witness :
  SessionQueries.is_approved decisions "plan" "plan-1" = false
  ∧ SessionQueries.is_approved decisions "plan" "plan-3" = false.
Proof.
  split.
  - refine (proj2 (is_approved_follows_latest_decision decisions "plan"
                     "plan-1")
              [approval_at "a1" "plan-1" true 10%Z]
              (approval_at "a3" "plan-1" false 30%Z)
              [approval_at "a4" "plan-1" true 20%Z] _ _ _).
    + vm_compute. reflexivity.
    + intros b [<- | []]. vm_compute. reflexivity.
    + intros b [<- | []]. vm_compute. discriminate.
  - refine (proj1 (is_approved_follows_latest_decision decisions "plan"
                     "plan-3") _).
    vm_compute. reflexivity.
Defined.

Section LogFacts.
Import AuditLogger AuditStats AuditSpec QuerySpec.

Lemma get_entry_app (l : list AuditEntry.t) (e : AuditEntry.t)
    (entry_id : string) :
  get_entry (l ++ [e]) entry_id
  = match get_entry l entry_id with
    | Some x => Some x
    | None => if String.eqb (AuditEntry.id e) entry_id then Some e else None
    end.
Proof.
  induction l as [|x l IH]; cbn [app get_entry]; [done |].
  by destruct (String.eqb (AuditEntry.id x) entry_id).
Qed.

Lemma take_then_take (n m : nat) (l : list AuditEntry.t) :
  take n l ++ take m (drop n l) = take (n + m) l.
Proof.
  revert l. induction n as [|n IH]; intros l; [by rewrite drop_0 |].
  destruct l as [|x l]; cbn; [by rewrite take_nil |]. by rewrite IH.
Qed.

Lemma get_entries_of_page (self : list AuditEntry.t) (q : Query) (k n : Z) :
  (0 <= n)%Z →
  get_entries self (page q k n)
  = take (Z.to_nat n)
      (drop (Z.to_nat k) (sort_desc (List.filter (selected q) self))).
Proof.
  intros Hn. rewrite get_entries_unfold. cbn zeta.
  rewrite paged_is_drop. cbn [limit offset page]. unfold slice_to.
  destruct (Z.leb_spec 0 n); [reflexivity | lia].
Qed.

Lemma get_entries_unpaged (self : list AuditEntry.t) (q : Query) :
  get_entries self (unpaged q)
  = sort_desc (List.filter (selected q) self).
Proof. rewrite get_entries_unfold. reflexivity. Qed.

Lemma get_entries_within (self : list AuditEntry.t) (q : Query) :
  ∃ before after,
    sort_desc (List.filter (selected q) self)
    = before ++ get_entries self q ++ after.
Proof.
  rewrite get_entries_unfold. cbn zeta. rewrite paged_is_drop.
  set (sorted := sort_desc (List.filter (selected q) self)).
  assert (Htake : ∀ j, ∃ before after,
    sorted = before ++ take j (drop (Z.to_nat (offset q)) sorted) ++ after).
  { intros j. exists (take (Z.to_nat (offset q)) sorted),
                     (drop j (drop (Z.to_nat (offset q)) sorted)).
    by rewrite !take_drop. }
  destruct (limit q) as [n |].
  - unfold slice_to. destruct (0 <=? n)%Z; apply Htake.
  - exists (take (Z.to_nat (offset q)) sorted), [].
    by rewrite app_nil_r, take_drop.
Qed.

End LogFacts.

(** X22. [log] appends exactly one entry at the end of the log, with the
    next id drawn and the next reading of the clock, and touches nothing
    of the session. Afterwards [get_entry] finds the new entry under its
    id unless an older entry already has that id, and finds every other
    id as before. *)
Theorem log_appends_and_get_entry_finds (action operation : string)
    (risk_level : RiskLevel) (details : option (gmap string string))
    (assessment_id plan_id step_id : option string) (success : bool)
    (error : option string) (w : World) :
  ∃ entry w',
    AuditLogger.log action operation risk_level details assessment_id
      plan_id step_id success error w
    = (Ok entry, w')
    ∧ audit_entries w' = audit_entries w ++ [entry]
    ∧ session w' = session w
    ∧ AuditEntry.id entry = uuid_stream w (uuid_draws w)
    ∧ AuditEntry.timestamp entry = clock w (clock_reads w)
    ∧ AuditEntry.success entry = success
    ∧ ∀ entry_id,
        AuditStats.get_entry (audit_entries w') entry_id
        = match AuditStats.get_entry (audit_entries w) entry_id with
          | Some older => Some older
          | None =>
              if String.eqb (AuditEntry.id entry) entry_id then Some entry
              else None
          end.
Proof.
  unfold AuditLogger.log. run_monad. cbv [set_audit_entries]. cbn.
  eexists _, _. split; [reflexivity |]. cbn.
  do 5 (split; [reflexivity |]).
  intros entry_id. apply get_entry_app.
Qed.

(** X23. Consecutive pages of [get_entries] join up: for offsets and
    limits that are not negative, the page of [n] entries at offset [k]
    followed by the page of [m] entries at offset [k + n] is the page of
    [n + m] entries at offset [k]; no entry is lost or repeated between
    pages. *)
Theorem consecutive_pages_join (self : list AuditEntry.t)
    (q : AuditLogger.Query) (k n m : Z) :
  (0 <= k)%Z → (0 <= n)%Z → (0 <= m)%Z →
  AuditLogger.get_entries self (QuerySpec.page q k n)
    ++ AuditLogger.get_entries self (QuerySpec.page q (k + n) m)
  = AuditLogger.get_entries self (QuerySpec.page q k (n + m)).
Proof.
  intros Hk Hn Hm. rewrite !get_entries_of_page by lia.
  rewrite (Z2Nat.inj_add k n), (Z2Nat.inj_add n m) by lia.
  rewrite <- drop_drop. apply take_then_take.
Qed.

Lemma consecutive_pages_join_witness :
  AuditLogger.get_entries two_entries (QuerySpec.page (with_limit 0) 0 1)
    ++ AuditLogger.get_entries two_entries
         (QuerySpec.page (with_limit 0) (0 + 1) 1)
  = AuditLogger.get_entries two_entries (QuerySpec.page (with_limit 0) 0 (1 + 1))
  ∧ AuditLogger.get_entries two_entries (QuerySpec.page (with_limit 0) 0 1)
    = [entry_at "entry-2" 1001%Z].
Proof.
  split.
  - apply (consecutive_pages_join two_entries (with_limit 0) 0 1 1); lia.
  - vm_compute. reflexivity.
Defined.

(** X24. Without limit and offset, [get_entries] returns the entries of
    any one timestamp in the order in which they were logged: the sort is
    stable although it is descending. *)
Theorem equal_timestamps_keep_log_order (self : list AuditEntry.t)
    (q : AuditLogger.Query) (t : datetime) :
  List.filter (fun e => (AuditEntry.timestamp e =? t)%Z)
    (AuditLogger.get_entries self (QuerySpec.unpaged q))
  = List.filter (fun e => (AuditEntry.timestamp e =? t)%Z)
      (List.filter (AuditSpec.selected q) self).
Proof. rewrite get_entries_unpaged. apply sort_desc_stable. Qed.

(** X25. Whatever the limit and the offset, [get_entries] returns only
    logged entries that pass every filter of the query, each at most as
    often as it is logged; a query with both [success_only] and
    [failures_only] therefore returns nothing. *)
Theorem get_entries_returns_selected_entries (self : list AuditEntry.t)
    (q : AuditLogger.Query) :
  (∀ e, In e (AuditLogger.get_entries self q) →
        In e self ∧ AuditSpec.selected q e = true)
  ∧ AuditLogger.get_entries self q
      ⊆+ List.filter (AuditSpec.selected q) self
  ∧ (AuditLogger.success_only q = true →
     AuditLogger.failures_only q = true →
     AuditLogger.get_entries self q = []).
Proof.
  destruct (get_entries_within self q) as (before & after & Hrun).
  assert (Hsub : AuditLogger.get_entries self q
                 ⊆+ List.filter (AuditSpec.selected q) self).
  { rewrite <- (sort_desc_perm (List.filter (AuditSpec.selected q) self)).
    rewrite Hrun. apply submseteq_middle. }
  assert (Hin : ∀ e, In e (AuditLogger.get_entries self q) →
                     In e self ∧ AuditSpec.selected q e = true).
  { intros e He. apply List.filter_In.
    apply list_elem_of_In. apply list_elem_of_In in He.
    by eapply elem_of_submseteq. }
  split; [exact Hin |]. split; [exact Hsub |].
  intros Hs Hf.
  destruct (AuditLogger.get_entries self q) as [|e l] eqn:Hres; [done |].
  destruct (Hin e (or_introl eq_refl)) as [_ Hsel].
  unfold AuditSpec.selected in Hsel. rewrite Hs, Hf in Hsel.
  destruct (AuditEntry.success e); cbn in Hsel;
    rewrite ?andb_false_r in Hsel; discriminate.
Qed.

Lemma get_entries_returns_selected_entries_witness :
  AuditLogger.get_entries two_entries
    (AuditLogger.mkQuery None 0 None None None None None None true true)
  = [].
Proof.
  refine (proj2 (proj2 (get_entries_returns_selected_entries two_entries
            (AuditLogger.mkQuery None 0 None None None None None None true
               true))) _ _); reflexivity.
Defined.

Section StatsFacts.
Import AuditStats QuerySpec.

Lemma risk_level_value_inj (a b : RiskLevel) :
  risk_level_value a = risk_level_value b → a = b.
Proof. destruct a, b; cbn; intros H; try reflexivity; discriminate. Qed.

(** A counting dictionary after the loop, at one key. *)
Lemma bump_fold (key : AuditEntry.t → string) (l : list AuditEntry.t)
    (d : gmap string nat) (k : string) :
  fold_left (fun d e => bump (key e) d) l d !! k
  = match d !! k with
    | Some n =>
        Some (n + length (List.filter (fun e => String.eqb (key e) k) l))%nat
    | None => counted (length (List.filter (fun e => String.eqb (key e) k) l))
    end.
Proof.
  revert d. induction l as [|e l IH]; intros d.
  - cbn. destruct (d !! k) as [n |]; [f_equal; lia | done].
  - cbn [fold_left List.filter]. rewrite IH. unfold bump.
    destruct (String.eqb_spec (key e) k) as [-> | Hne].
    + rewrite lookup_insert_eq. cbn [length].
      destruct (d !! k) as [n |]; cbn; f_equal; lia.
    + by rewrite lookup_insert_ne.
Qed.

(** The three accumulators of the loop are independent. *)
Lemma count_entry_fold (l : list AuditEntry.t) (r a : gmap string nat)
    (s : nat) :
  fold_left count_entry l (r, a, s)
  = (fold_left
       (fun d e => bump (risk_level_value (AuditEntry.risk_level e)) d) l r,
     fold_left (fun d e => bump (AuditEntry.action e) d) l a,
     (s + length (List.filter AuditEntry.success l))%nat).
Proof.
  revert r a s. induction l as [|e l IH]; intros r a s.
  - cbn. by rewrite Nat.add_0_r.
  - cbn [fold_left List.filter count_entry]. rewrite IH.
    destruct (AuditEntry.success e); cbn [length]; f_equal; lia.
Qed.

Lemma rate_in_range (good total : nat) :
  (good <= total)%nat → (0 < total)%nat →
  (0 <= Z.of_nat good # Pos.of_nat total)%Q
  ∧ (Z.of_nat good # Pos.of_nat total <= 1)%Q.
Proof.
  intros Hle Htotal. unfold Qle. cbn [Qnum Qden].
  rewrite pos_of_nat_Z by lia. split; lia.
Qed.

Lemma get_stats_nonempty (e : AuditEntry.t) (l : list AuditEntry.t) :
  get_stats (e :: l)
  = mkStats (length (e :: l))
      (fold_left
         (fun d e => bump (risk_level_value (AuditEntry.risk_level e)) d)
         (e :: l) ∅)
      (fold_left (fun d e => bump (AuditEntry.action e) d) (e :: l) ∅)
      (Some (Z.of_nat (length (List.filter AuditEntry.success (e :: l)))
             # Pos.of_nat (length (e :: l)))).
Proof.
  unfold get_stats. cbn [length]. rewrite count_entry_fold. reflexivity.
Qed.

End StatsFacts.

(** X26. [get_stats] counts the log: the total is the number of entries;
    [by_risk_level] and [by_action] hold for each level and each action
    the number of entries that have it, and no key for a level or action
    that no entry has; the success rate is the number of successful
    entries over the total, a number between 0 and 1, and is absent for
    an empty log. *)
Theorem get_stats_counts_the_log (self : list AuditEntry.t) :
  AuditStats.total_entries (AuditStats.get_stats self) = length self
  ∧ (∀ level,
       AuditStats.by_risk_level (AuditStats.get_stats self)
         !! AuditStats.risk_level_value level
       = QuerySpec.counted
           (length (List.filter
                      (fun e => bool_decide (AuditEntry.risk_level e = level))
                      self)))
  ∧ (∀ action,
       AuditStats.by_action (AuditStats.get_stats self) !! action
       = QuerySpec.counted
           (length (List.filter
                      (fun e => String.eqb (AuditEntry.action e) action)
                      self)))
  ∧ AuditStats.success_rate (AuditStats.get_stats self)
    = match self with
      | [] => None
      | _ :: _ =>
          Some (Z.of_nat (length (List.filter AuditEntry.success self))
                # Pos.of_nat (length self))
      end
  ∧ ∀ rate,
      AuditStats.success_rate (AuditStats.get_stats self) = Some rate →
      (0 <= rate)%Q ∧ (rate <= 1)%Q.
Proof.
  destruct self as [|e l].
  - cbn. repeat split; try done.
  - rewrite get_stats_nonempty.
    cbn [AuditStats.total_entries AuditStats.by_risk_level
         AuditStats.by_action AuditStats.success_rate].
    split; [reflexivity |]. split; [| split; [| split; [reflexivity |]]].
    + intros level. rewrite bump_fold, lookup_empty. do 2 f_equal.
      apply List.filter_ext. intros x.
      destruct (String.eqb_spec
                  (AuditStats.risk_level_value (AuditEntry.risk_level x))
                  (AuditStats.risk_level_value level)) as [Heq | Hne].
      * apply risk_level_value_inj in Heq.
        by rewrite bool_decide_eq_true_2.
      * rewrite bool_decide_eq_false_2; [done |].
        intros Heq. apply Hne. by rewrite Heq.
    + intros action. by rewrite bump_fold, lookup_empty.
    + intros rate Hrate. apply (inj Some) in Hrate. rewrite <- Hrate.
      apply rate_in_range; [apply List.filter_length_le | cbn; lia].
Qed.

(** The log of one successful and no failed entry. *)
Lemma get_stats_counts_the_log_witness :
  AuditStats.by_risk_level (AuditStats.get_stats two_entries) !! "low"
    = Some 2%nat
  ∧ AuditStats.by_risk_level (AuditStats.get_stats two_entries) !! "high"
    = None
  ∧ ∃ rate,
      AuditStats.success_rate (AuditStats.get_stats two_entries) = Some rate
      ∧ (0 <= rate)%Q ∧ (rate <= 1)%Q.
Proof.
  destruct (get_stats_counts_the_log two_entries)
    as (_ & Hrisk & _ & Hrate & Hrange).
  split; [exact (Hrisk LOW) |]. split; [exact (Hrisk HIGH) |].
  eexists. split; [exact Hrate |]. apply Hrange. exact Hrate.
Defined.

(** X27. An operation on a plain local file is rated HIGH exactly when it
    is executed system-wide, so deleting local files never rates HIGH,
    whatever the scope; and it is rated LOW exactly when it is a read, or
    acts on a single item without executing, or is a write to multiple
    items. *)
Theorem local_file_is_high_only_when_executed_system_wide
    (operation description context : string) (w : World) :
  fst (ResourceClassifier.classify operation context)
    = ResourceClassifier.LOCAL_FILE →
  ∃ a w',
    RiskAssessor.assess operation description context w = (Ok a, w')
    ∧ (Assessment.risk_level a = HIGH
       ↔ fst (ActionClassifier.classify_action operation)
           = ActionClassifier.EXECUTE
         ∧ fst (ActionClassifier.classify_scope operation context)
           = ActionClassifier.SYSTEM)
    ∧ (Assessment.risk_level a = LOW
       ↔ fst (ActionClassifier.classify_action operation)
           = ActionClassifier.READ
         ∨ fst (ActionClassifier.classify_scope operation context)
             = ActionClassifier.SINGLE
           ∧ fst (ActionClassifier.classify_action operation)
             ≠ ActionClassifier.EXECUTE
         ∨ fst (ActionClassifier.classify_action operation)
             = ActionClassifier.WRITE
           ∧ fst (ActionClassifier.classify_scope operation context)
             = ActionClassifier.MULTIPLE).
Proof.
  intros Hfile.
  destruct (assess_by_categories operation description context w)
    as (a & w' & Hrun & _ & Hscore & Hlevel & _).
  exists a, w'. split; [exact Hrun |].
  rewrite Hlevel, Hscore, Hfile.
  destruct (fst (ActionClassifier.classify_action operation));
    destruct (fst (ActionClassifier.classify_scope operation context));
    (split; split; intros H;
       first [ solve [vm_compute in H; discriminate]
             | solve [vm_compute; reflexivity]
             | solve [split; reflexivity]
             | solve [left; reflexivity]
             | solve [right; left; split; [reflexivity | discriminate]]
             | solve [right; right; split; reflexivity]
             | solve [destruct H as [H1 H2]; congruence]
             | solve [destruct H as [H | [[H1 H2] | [H1 H2]]];
                      congruence] ]).
Qed.

(** Deleting all records is a collection-wide delete on a local file:
    neither HIGH nor LOW. *)
Lemma local_file_is_high_only_when_executed_system_wide_witness :
  ∃ a w',
    RiskAssessor.assess delete_all_records "" "" Lifecycle.boot = (Ok a, w')
    ∧ Assessment.risk_level a ≠ HIGH
    ∧ Assessment.risk_level a ≠ LOW.
Proof.
  destruct (local_file_is_high_only_when_executed_system_wide
              delete_all_records "" "" Lifecycle.boot)
    as (a & w' & Hrun & Hhigh & Hlow); [vm_compute; reflexivity |].
  exists a, w'. split; [exact Hrun |]. split.
  - intros H. apply Hhigh in H. destruct H as [H _].
    vm_compute in H. discriminate.
  - intros H. apply Hlow in H.
    destruct H as [H | [[H _] | [H _]]]; vm_compute in H; discriminate.
Defined.

(** X28. [matches_any_pattern] and [get_matching_patterns] agree: a text
    matches one of the patterns exactly when the list of matching patterns
    is not empty, and that list holds the matching patterns of the table,
    in the order of the table. *)
Theorem matching_patterns_agree (text : string) (patterns : list Re.regex) :
  (Patterns.matches_any_pattern text patterns = true
   ↔ Patterns.get_matching_patterns text patterns ≠ [])
  ∧ (∀ p, p ∈ Patterns.get_matching_patterns text patterns
          ↔ p ∈ patterns ∧ Re.search p text = true)
  ∧ Patterns.get_matching_patterns text patterns `sublist_of` patterns.
Proof.
  unfold Patterns.get_matching_patterns, Patterns.matches_any_pattern.
  split; [| split].
  - induction patterns as [|p patterns IH]; cbn [existsb].
    + split; [discriminate | done].
    + rewrite filter_cons. destruct (Re.search p text) eqn:Hp; cbn.
      * rewrite decide_True by done. done.
      * rewrite decide_False by (by intros H). exact IH.
  - intros p. by rewrite list_elem_of_filter, (comm _ (p ∈ patterns)).
  - apply sublist_filter.
Qed.

Section ActiveFacts.
Import SessionQueries QuerySpec.

Lemma plan_values_stored (w : World) (p : Plan.t) :
  In p (plan_values w) ↔ ∃ pid, Lifecycle.plan_of w pid = Some p.
Proof.
  unfold plan_values, Lifecycle.plan_of, Session.get_plan.
  rewrite <- list_elem_of_In, list_elem_of_fmap. split.
  - intros ([pid p'] & -> & Hin). exists pid.
    by apply elem_of_map_to_list in Hin.
  - intros (pid & Hp). exists (pid, p). split; [done |].
    by apply elem_of_map_to_list.
Qed.

End ActiveFacts.

(** X29. [get_active_plans] and [get_plan_status] agree: a plan is among
    the active plans of the session exactly when it is stored under some
    id for which the status report says it is active. *)
Theorem active_plans_are_those_reported_active (w : World) (p : Plan.t) :
  In p (SessionQueries.get_active_plans (QuerySpec.plan_values w))
  ↔ ∃ pid report,
      PlanQueries.get_plan_status pid w = (Ok (Some report), w)
      ∧ PlanQueries.plan report = p
      ∧ PlanQueries.is_active report = true.
Proof.
  unfold SessionQueries.get_active_plans.
  rewrite List.filter_In, plan_values_stored. split.
  - intros [(pid & Hp) Hact].
    destruct (get_plan_status_runs w pid p Hp)
      as (report & Hrun & Hplan & _ & _ & _ & Hactive).
    exists pid, report. split; [exact Hrun |]. split; [exact Hplan |].
    by rewrite Hactive.
  - intros (pid & report & Hrun & Hplan & Hact).
    destruct (Lifecycle.plan_of w pid) as [p' |] eqn:Hp.
    + destruct (get_plan_status_runs w pid p' Hp)
        as (report' & Hrun' & Hplan' & _ & _ & _ & Hactive').
      rewrite Hrun in Hrun'. injection Hrun' as <-.
      rewrite Hplan in Hplan'. subst p'.
      split; [by exists pid |]. by rewrite <- Hactive'.
    + exfalso. revert Hrun. unfold PlanQueries.get_plan_status.
      unfold Lifecycle.plan_of in Hp. run_monad. rewrite Hp. discriminate.
Qed.

(** X30. [clear] empties the audit log and nothing else: afterwards every
    query of [get_entries] returns nothing, whatever its filters, offset
    and limit, [get_entry] finds no id, and [get_stats] reports no entries,
    no counts and no success rate; the session is as before. *)
Theorem clear_empties_the_log (w : World) :
  ∃ w',
    AuditStats.clear w = (Ok tt, w')
    ∧ session w' = session w
    ∧ (∀ q, AuditLogger.get_entries (audit_entries w') q = [])
    ∧ (∀ entry_id, AuditStats.get_entry (audit_entries w') entry_id = None)
    ∧ AuditStats.get_stats (audit_entries w') = AuditStats.mkStats 0 ∅ ∅ None.
Proof.
  unfold AuditStats.clear. run_monad. cbv [set_audit_entries]. cbn.
  eexists. split; [reflexivity |]. cbn. split; [reflexivity |].
  split; [| split; reflexivity].
  intros q. rewrite get_entries_unfold. cbn zeta. rewrite paged_is_drop.
  cbn [List.filter AuditLogger.sort_desc fold_right]. rewrite drop_nil.
  destruct (AuditLogger.limit q) as [n |]; [| reflexivity].
  unfold AuditLogger.slice_to. destruct (0 <=? n)%Z; apply take_nil.
Qed.
